(** * Paper and author catalogue: validation middleware and database layer

    A shallow embedding of the backend of the paper/author catalogue
    (Express middleware in [middleware.js], Prisma-backed operations in
    [database.js], the routes of [routes/papers.js] and [routes/authors.js]
    that read, list and delete, and the one that creates an author) and of
    the validation of the front end's paper form ([PaperForm.jsx]), together
    with the properties of its validation, author resolution, relationship
    maintenance and list queries.

    The JavaScript built-ins and the Prisma client the sources call are
    modelled in [JS] and [Prisma]; the repository's own functions are embedded
    one by one, under their own names, in [Middleware], [Database], [Routes]
    and [PaperForm]. *)

From Stdlib Require Import ZArith List String Ascii Bool Lia.
From stdpp Require Import base list strings gmap sorting.

Local Open Scope string_scope.
Local Open Scope list_scope.
Local Open Scope Z_scope.

Set Warnings "-clear-no-such-hyp".

(** ** JavaScript values, strings and numbers *)
Module JS.

(** Strings are sequences of code units; the model keeps the code units below
    256.  [isWhiteSpace] is the WhiteSpace and LineTerminator set of
    ECMAScript restricted to that range: TAB, LF, VT, FF, CR, SP and NBSP. *)
Definition isWhiteSpace (c : ascii) : bool :=
  let n := Z.of_N (N_of_ascii c) in
  ((9 <=? n) && (n <=? 13)) || (n =? 32) || (n =? 160).

Fixpoint trimStart (s : string) : string :=
  match s with
  | EmptyString => EmptyString
  | String c r => if isWhiteSpace c then trimStart r else s
  end.

Fixpoint trimEnd (s : string) : string :=
  match s with
  | EmptyString => EmptyString
  | String c r =>
      match trimEnd r with
      | EmptyString => if isWhiteSpace c then EmptyString else String c EmptyString
      | r' => String c r'
      end
  end.

(** [String.prototype.trim]. *)
Definition trim (s : string) : string := trimEnd (trimStart s).

(** [str.length]. *)
Definition strLength (s : string) : Z := Z.of_nat (String.length s).

(** [s.includes(sub)]: [sub] occurs in [s]. *)
Fixpoint includes (sub s : string) : bool :=
  String.prefix sub s ||
  match s with
  | EmptyString => false
  | String _ r => includes sub r
  end.

(** *** Numbers

    A JavaScript number is an IEEE 754 binary64 value.  Finite values are kept
    exactly: [JInt z] is the integral value [z], [JFrac num den] the
    non-integral value [num / den] with [den] a power of two.  The sign of
    zero is not kept (nothing in the program observes it). *)
Inductive JsNumber : Type :=
| NaN
| Infinity (negative : bool)
| JInt (z : Z)
| JFrac (num den : Z).

Definition numNeg (n : JsNumber) : JsNumber :=
  match n with
  | NaN => NaN
  | Infinity s => Infinity (negb s)
  | JInt z => JInt (- z)
  | JFrac a b => JFrac (- a) b
  end.

(** Numerator and denominator of a finite value. *)
Definition fraction (n : JsNumber) : option (Z * Z) :=
  match n with
  | JInt z => Some (z, 1)
  | JFrac a b => Some (a, b)
  | _ => None
  end.

(** [a < b] on numbers. *)
Definition numLt (a b : JsNumber) : bool :=
  match a, b with
  | NaN, _ | _, NaN => false
  | Infinity s1, Infinity s2 => s1 && negb s2
  | Infinity s, _ => s
  | _, Infinity s => negb s
  | _, _ =>
      match fraction a, fraction b with
      | Some (na, da), Some (nb, db) => na * db <? nb * da
      | _, _ => false
      end
  end.

(** [a <= b] on numbers. *)
Definition numLe (a b : JsNumber) : bool :=
  match a, b with
  | NaN, _ | _, NaN => false
  | Infinity s1, Infinity s2 => s1 || negb s2
  | Infinity s, _ => s
  | _, Infinity s => negb s
  | _, _ =>
      match fraction a, fraction b with
      | Some (na, da), Some (nb, db) => na * db <=? nb * da
      | _, _ => false
      end
  end.

(** [Number.isInteger] on a number. *)
Definition numIsInteger (n : JsNumber) : bool :=
  match n with
  | JInt _ => true
  | _ => false
  end.

(** Nearest integer to [n / d] ([n >= 0], [d > 0]), ties to even. *)
Definition roundHalfEven (n d : Z) : Z :=
  let q := n / d in
  let r := n mod d in
  if 2 * r <? d then q
  else if d <? 2 * r then q + 1
  else if Z.even q then q else q + 1.

(** The finite value [m * 2 ^ e]. *)
Definition dyadic (m e : Z) : JsNumber :=
  if 0 <=? e then JInt (m * 2 ^ e)
  else
    let g := Z.gcd m (2 ^ (- e)) in
    if 2 ^ (- e) / g =? 1 then JInt (m / g) else JFrac (m / g) (2 ^ (- e) / g).

(** [floor (log2 (n / d))] for [n, d > 0]. *)
Definition floorLog2Ratio (n d : Z) : Z :=
  let l := Z.log2 n - Z.log2 d in
  let below := if 0 <=? l then n <? d * 2 ^ l else n * 2 ^ (- l) <? d in
  if below then l - 1 else l.

(** The binary64 value nearest to [n / d] for [n, d > 0] (round to nearest,
    ties to even; 53 bits of precision, least exponent -1074, overflow to
    infinity from [2 ^ 1024]). *)
Definition roundToDouble (n d : Z) : JsNumber :=
  let e := Z.max (floorLog2Ratio n d - 52) (-1074) in
  let m := if 0 <=? e then roundHalfEven n (d * 2 ^ e)
           else roundHalfEven (n * 2 ^ (- e)) d in
  if (971 <? e) || ((971 =? e) && (2 ^ 53 <=? m)) then Infinity false
  else dyadic m e.

(** Value of a digit character in bases up to 16. *)
Definition digitValue (c : ascii) : option Z :=
  let n := Z.of_N (N_of_ascii c) in
  if (48 <=? n) && (n <=? 57) then Some (n - 48)
  else if (97 <=? n) && (n <=? 102) then Some (n - 87)
  else if (65 <=? n) && (n <=? 70) then Some (n - 55)
  else None.

Definition digitIn (radix : Z) (c : ascii) : option Z :=
  match digitValue c with
  | Some v => if v <? radix then Some v else None
  | None => None
  end.

(** Longest prefix of digits of [s] in base [radix]: the value accumulated
    onto [acc], the number of digits added to [count], and the rest. *)
Fixpoint scanDigits (radix : Z) (s : string) (acc count : Z) : Z * Z * string :=
  match s with
  | EmptyString => (acc, count, s)
  | String c r =>
      match digitIn radix c with
      | Some v => scanDigits radix r (radix * acc + v) (count + 1)
      | None => (acc, count, s)
      end
  end.

(** The number denoted by the decimal mantissa [m] scaled by [10 ^ e]. *)
Definition decimalValue (negative : bool) (m e : Z) : JsNumber :=
  let v := if m =? 0 then JInt 0
           else if 0 <=? e then roundToDouble (m * 10 ^ e) 1
           else roundToDouble m (10 ^ (- e)) in
  if negative then numNeg v else v.

(** ExponentPart after its [e]: a SignedInteger up to the end of the string. *)
Definition parseExponent (s : string) : option Z :=
  let '(neg, r) :=
    match s with
    | String c r =>
        if Ascii.eqb c "-" then (true, r)
        else if Ascii.eqb c "+" then (false, r)
        else (false, s)
    | EmptyString => (false, s)
    end in
  match scanDigits 10 r 0 0 with
  | (v, n, EmptyString) => if 0 <? n then Some (if neg then - v else v) else None
  | _ => None
  end.

(** StrUnsignedDecimalLiteral: [Infinity], or digits with an optional
    fraction and an optional exponent, at least one digit before the
    exponent. *)
Definition parseUnsignedDecimal (negative : bool) (s : string) : JsNumber :=
  if String.eqb s "Infinity" then Infinity negative
  else
    let '(i, ni, r1) := scanDigits 10 s 0 0 in
    let '(m, nf, r2) :=
      match r1 with
      | String c r => if Ascii.eqb c "." then scanDigits 10 r i 0 else (i, 0, r1)
      | EmptyString => (i, 0, r1)
      end in
    if (ni =? 0) && (nf =? 0) then NaN
    else
      match r2 with
      | EmptyString => decimalValue negative m (- nf)
      | String c r3 =>
          if Ascii.eqb c "e" || Ascii.eqb c "E" then
            match parseExponent r3 with
            | Some x => decimalValue negative m (x - nf)
            | None => NaN
            end
          else NaN
      end.

(** NonDecimalIntegerLiteral after its prefix: digits up to the end. *)
Definition parseNonDecimal (radix : Z) (s : string) : JsNumber :=
  match scanDigits radix s 0 0 with
  | (v, n, EmptyString) =>
      if 0 <? n then (if v =? 0 then JInt 0 else roundToDouble v 1) else NaN
  | _ => NaN
  end.

(** The radix that the prefix [0x], [0o] or [0b] (in either case) of [s]
    announces, with what follows the prefix. *)
Definition nonDecimalPrefix (s : string) : option (Z * string) :=
  match s with
  | String c (String x r) =>
      if negb (Ascii.eqb c "0") then None
      else if Ascii.eqb x "x" || Ascii.eqb x "X" then Some (16, r)
      else if Ascii.eqb x "o" || Ascii.eqb x "O" then Some (8, r)
      else if Ascii.eqb x "b" || Ascii.eqb x "B" then Some (2, r)
      else None
  | _ => None
  end.

(** StringToNumber, that is [Number(str)] on a string: white space around the
    literal is dropped, the empty string is 0, a hexadecimal, octal or binary
    literal carries no sign, anything else is a signed decimal literal or
    [NaN]. *)
Definition StringToNumber (str : string) : JsNumber :=
  let s := trim str in
  match s with
  | EmptyString => JInt 0
  | String c r =>
      match nonDecimalPrefix s with
      | Some (radix, digits) => parseNonDecimal radix digits
      | None =>
          if Ascii.eqb c "+" then parseUnsignedDecimal false r
          else if Ascii.eqb c "-" then parseUnsignedDecimal true r
          else parseUnsignedDecimal false s
      end
  end.

(** *** Values *)
#[warnings="-register-all"]
Inductive JsValue : Type :=
| JsUndefined
| JsNull
| JsBool (b : bool)
| JsNum (n : JsNumber)
| JsStr (s : string)
| JsArr (elements : list JsValue)
| JsObj (props : list (string * JsValue)).

(** Own property of an object literal. *)
Fixpoint lookupProp (props : list (string * JsValue)) (key : string) : JsValue :=
  match props with
  | [] => JsUndefined
  | (k, v) :: rest => if String.eqb k key then v else lookupProp rest key
  end.

(** [v.key] for a value that is neither [null] nor [undefined].  The keys the
    program reads ([title], [publishedIn], [year], [authors], [name]) are not
    built-in properties of strings, numbers, booleans or arrays, where the
    read gives [undefined]. *)
Definition getProperty (v : JsValue) (key : string) : JsValue :=
  match v with
  | JsObj props => lookupProp props key
  | _ => JsUndefined
  end.

(** Errors that the program throws or meets. *)
Inductive JsError : Type :=
| TypeError
| PrismaClientKnownRequestError (code : string) (message : string)
| PrismaClientValidationError (message : string)
| Error (message : string).

(** [e.message].  The text of a [TypeError] is the engine's own and is not
    kept. *)
Definition errorMessage (e : JsError) : string :=
  match e with
  | TypeError => ""
  | PrismaClientKnownRequestError _ m => m
  | PrismaClientValidationError m => m
  | Error m => m
  end.

(** Outcome of an evaluation that may throw. *)
Inductive Completion (A : Type) : Type :=
| Return (a : A)
| Throw (e : JsError).
Arguments Return {A} a.
Arguments Throw {A} e.

(** Destructuring [const {key} = v]: a [TypeError] on [null] and
    [undefined]. *)
Definition destructure (v : JsValue) (key : string) : Completion JsValue :=
  match v with
  | JsUndefined | JsNull => Throw TypeError
  | _ => Return (getProperty v key)
  end.

Definition isNull (v : JsValue) : bool :=
  match v with JsNull => true | _ => false end.

Definition isUndefined (v : JsValue) : bool :=
  match v with JsUndefined => true | _ => false end.

(** [Number.isInteger(v)]: false for anything that is not a number. *)
Definition Number_isInteger (v : JsValue) : bool :=
  match v with
  | JsNum n => numIsInteger n
  | _ => false
  end.

(** [a === b] on numbers: [NaN] equals nothing. *)
Definition numEq (a b : JsNumber) : bool :=
  match a, b with
  | NaN, _ | _, NaN => false
  | Infinity s1, Infinity s2 => Bool.eqb s1 s2
  | Infinity _, _ | _, Infinity _ => false
  | _, _ =>
      match fraction a, fraction b with
      | Some (na, da), Some (nb, db) => na * db =? nb * da
      | _, _ => false
      end
  end.

(** [a === b] where one side is a primitive, as in every comparison the
    program makes: values of different types differ, and an array or an
    object differs from any primitive. *)
Definition strictEquals (a b : JsValue) : bool :=
  match a, b with
  | JsUndefined, JsUndefined | JsNull, JsNull => true
  | JsBool x, JsBool y => Bool.eqb x y
  | JsNum x, JsNum y => numEq x y
  | JsStr x, JsStr y => String.eqb x y
  | _, _ => false
  end.

(** [v.length]: the number of elements of an array, of code units of a
    string, the own [length] property of an object; [undefined] on a number
    and on a boolean; a [TypeError] on [null] and [undefined]. *)
Definition getLength (v : JsValue) : Completion JsValue :=
  match v with
  | JsUndefined | JsNull => Throw TypeError
  | JsArr elements => Return (JsNum (JInt (Z.of_nat (length elements))))
  | JsStr s => Return (JsNum (JInt (strLength s)))
  | JsObj props => Return (lookupProp props "length")
  | _ => Return JsUndefined
  end.

(** The properties of [{...props, [key]: v}]. *)
Fixpoint setProp (props : list (string * JsValue)) (key : string) (v : JsValue)
  : list (string * JsValue) :=
  match props with
  | [] => [(key, v)]
  | (k, w) :: rest =>
      if String.eqb k key then (k, v) :: rest else (k, w) :: setProp rest key v
  end.

End JS.


(** ** HTTP plumbing shared by the middleware and the routes *)
Module Http.
Import JS.

(** A response: its status code and its JSON body ([JsUndefined] when the
    response ends without one). *)
Record Response : Type := mkResponse { status : Z; body : JsValue }.

(** A middleware either answers the request or hands it on, possibly
    rewritten, to the next handler ([next()]). *)
Inductive MiddlewareResult (Req : Type) : Type :=
| Respond (r : Response)
| Next (req : Req).
Arguments Respond {Req} r.
Arguments Next {Req} req.

Definition BAD_REQUEST : Z := 400.
Definition NOT_FOUND : Z := 404.
Definition NO_CONTENT : Z := 204.
Definition INTERNAL_SERVER_ERROR : Z := 500.
Definition OK : Z := 200.
Definition CREATED : Z := 201.

(** What the query-string parser produces for a parameter: a string, an
    array (a repeated parameter) or a nested object. *)
#[warnings="-register-all"]
Inductive ParsedQs : Type :=
| QString (s : string)
| QArray (elements : list ParsedQs)
| QObject (props : list (string * ParsedQs)).

(** A value of [req.query]: as parsed, or the number a validator has put in
    its place. *)
Inductive QueryValue : Type :=
| Raw (v : ParsedQs)
| QNumber (n : JsNumber).

(** [req.query]: absent keys read as [undefined]. *)
Abbreviation Query := (gmap string QueryValue).

Definition joinComma (parts : list string) : string :=
  match parts with
  | [] => ""
  | p :: rest => fold_left (fun acc q => acc +:+ "," +:+ q) rest p
  end.

(** [String(v)] on a parsed parameter: an array is its elements joined by
    commas, an object is ["[object Object]"]. *)
Fixpoint parsedToString (v : ParsedQs) : string :=
  match v with
  | QString s => s
  | QArray l => joinComma (map parsedToString l)
  | QObject _ => "[object Object]"
  end.

(** [Number(v)] on a value of [req.query]: a parsed parameter converts
    through its string, a number is itself. *)
Definition Number (v : QueryValue) : JsNumber :=
  match v with
  | Raw r => StringToNumber (parsedToString r)
  | QNumber n => n
  end.

End Http.

(** ** [middleware.js] *)
Module Middleware.
Import JS Http.

(** [res.status(400).json({error: "Validation Error", message})]. *)
Definition respondWithValidationError (message : string) : Response :=
  {| status := BAD_REQUEST;
     body := JsObj [("error", JsStr "Validation Error"); ("message", JsStr message)] |}.

Definition isNonEmptyStringWithoutTrim (str : JsValue) : bool :=
  match str with
  | JsStr s => 0 <? strLength s
  | _ => false
  end.

Definition isNonEmptyStringAfterTrim (str : JsValue) : bool :=
  match str with
  | JsStr s => 0 <? strLength (trim s)
  | _ => false
  end.

(** The four range checks.  Each is [Number.isInteger(num) && <comparison>];
    the comparison is only evaluated on a number. *)
Definition isIntegerGreaterThan1900 (num : JsValue) : bool :=
  Number_isInteger num &&
  match num with JsNum n => numLt (JInt 1900) n | _ => false end.

Definition isIntegerGreaterThan0 (num : JsValue) : bool :=
  Number_isInteger num &&
  match num with JsNum n => numLt (JInt 0) n | _ => false end.

Definition isIntegerLeThan100 (num : JsValue) : bool :=
  Number_isInteger num &&
  match num with JsNum n => numLe n (JInt 100) | _ => false end.

Definition isIntegerNonNegative (num : JsValue) : bool :=
  Number_isInteger num &&
  match num with JsNum n => numLe (JInt 0) n | _ => false end.

(** A parsed parameter, and a value of [req.query], as the string checks see
    them: only its being a string, and which, matters to them. *)
Definition parsedAsValue (v : ParsedQs) : JsValue :=
  match v with
  | QString s => JsStr s
  | QArray _ => JsArr []
  | QObject _ => JsObj []
  end.

Definition queryAsValue (v : QueryValue) : JsValue :=
  match v with
  | Raw r => parsedAsValue r
  | QNumber n => JsNum n
  end.

(** [validateLimit(req, limit)]: whether the limit passes, and [req.query]
    afterwards. *)
Definition validateLimit (query : Query) (limit : option QueryValue) : bool * Query :=
  match limit with
  | None => (true, <["limit" := QNumber (JInt 10)]> query)
  | Some l =>
      let parsedLimit := Number l in
      if negb (isIntegerGreaterThan0 (JsNum parsedLimit)) ||
         negb (isIntegerLeThan100 (JsNum parsedLimit))
      then (false, query)
      else (true, <["limit" := QNumber parsedLimit]> query)
  end.

Definition validateOffset (query : Query) (offset : option QueryValue) : bool * Query :=
  match offset with
  | None => (true, <["offset" := QNumber (JInt 0)]> query)
  | Some o =>
      let parsedOffset := Number o in
      if negb (isIntegerNonNegative (JsNum parsedOffset))
      then (false, query)
      else (true, <["offset" := QNumber parsedOffset]> query)
  end.

(** The loop over [authors] in [validatePaperInput]: each element is
    destructured for its [name]; the first name that is not a non-blank
    string adds the message and leaves the loop. *)
Fixpoint authorNameErrors (authors : list JsValue) : Completion (list string) :=
  match authors with
  | [] => Return []
  | a :: rest =>
      match destructure a "name" with
      | Throw e => Throw e
      | Return name =>
          if negb (isNonEmptyStringAfterTrim name)
          then Return ["Author name is required"]
          else authorNameErrors rest
      end
  end.

Definition validatePaperInput (paper : JsValue) : Completion (list string) :=
  match paper with
  | JsUndefined | JsNull => Throw TypeError
  | _ =>
      let title := getProperty paper "title" in
      let publishedIn := getProperty paper "publishedIn" in
      let year := getProperty paper "year" in
      let authors := getProperty paper "authors" in
      let errors := [] in
      let errors :=
        if isNull title || negb (isNonEmptyStringAfterTrim title)
        then errors ++ ["Title is required"] else errors in
      let errors :=
        if isNull publishedIn || negb (isNonEmptyStringAfterTrim publishedIn)
        then errors ++ ["Published venue is required"] else errors in
      let errors :=
        if isNull year || isUndefined year
        then errors ++ ["Published year is required"]
        else if negb (isIntegerGreaterThan1900 year)
        then errors ++ ["Valid year after 1900 is required"]
        else errors in
      match authors with
      | JsArr (a :: rest) =>
          match authorNameErrors (a :: rest) with
          | Throw e => Throw e
          | Return found => Return (errors ++ found)
          end
      | _ => Return (errors ++ ["At least one author is required"])
      end
  end.

Definition validateAuthorInput (author : JsValue) : Completion (list string) :=
  match author with
  | JsUndefined | JsNull => Throw TypeError
  | _ =>
      let name := getProperty author "name" in
      Return (if isNull name || negb (isNonEmptyStringAfterTrim name)
              then ["Name is required"] else [])
  end.

Definition VALIDATION_ERROR_MESSAGE : string := "Invalid query parameter format".

(** The tail shared by both query validators: limit, then offset, then
    [next()]. *)
Definition validatePaging (query : Query) (limit offset : option QueryValue)
  : MiddlewareResult Query :=
  let '(okLimit, query) := validateLimit query limit in
  if negb okLimit then Respond (respondWithValidationError VALIDATION_ERROR_MESSAGE)
  else
    let '(okOffset, query) := validateOffset query offset in
    if negb okOffset then Respond (respondWithValidationError VALIDATION_ERROR_MESSAGE)
    else Next query.

Definition validatePaperQueryParams (query : Query) : MiddlewareResult Query :=
  let year := query !! "year" in
  let publishedIn := query !! "publishedIn" in
  let author := query !! "author" in
  let limit := query !! "limit" in
  let offset := query !! "offset" in
  let checkedYear : option Query :=
    match year with
    | None => Some query
    | Some y =>
        let parsedYear := Number y in
        if negb (isIntegerGreaterThan1900 (JsNum parsedYear)) then None
        else Some (<["year" := QNumber parsedYear]> query)
    end in
  match checkedYear with
  | None => Respond (respondWithValidationError VALIDATION_ERROR_MESSAGE)
  | Some query =>
      let publishedInOk :=
        match publishedIn with
        | None => true
        | Some p => isNonEmptyStringWithoutTrim (queryAsValue p)
        end in
      if negb publishedInOk
      then Respond (respondWithValidationError VALIDATION_ERROR_MESSAGE)
      else
        let authorOk :=
          match author with
          | None => true
          | Some (Raw (QArray names)) =>
              forallb (fun authorName => isNonEmptyStringAfterTrim (parsedAsValue authorName))
                names
          | Some a => isNonEmptyStringAfterTrim (queryAsValue a)
          end in
        if negb authorOk
        then Respond (respondWithValidationError VALIDATION_ERROR_MESSAGE)
        else validatePaging query limit offset
  end.

Definition validateAuthorQueryParams (query : Query) : MiddlewareResult Query :=
  let name := query !! "name" in
  let affiliation := query !! "affiliation" in
  let limit := query !! "limit" in
  let offset := query !! "offset" in
  let nameOk :=
    match name with
    | None => true
    | Some n => isNonEmptyStringAfterTrim (queryAsValue n)
    end in
  if negb nameOk then Respond (respondWithValidationError VALIDATION_ERROR_MESSAGE)
  else
    let affiliationOk :=
      match affiliation with
      | None => true
      | Some a => isNonEmptyStringAfterTrim (queryAsValue a)
      end in
    if negb affiliationOk
    then Respond (respondWithValidationError VALIDATION_ERROR_MESSAGE)
    else validatePaging query limit offset.

(** [validateResourceId]: [req.params.id] is a string; on success it is
    replaced by the parsed number. *)
Definition validateResourceId (id : string) : MiddlewareResult JsNumber :=
  let parsedId := StringToNumber id in
  if negb (isIntegerGreaterThan0 (JsNum parsedId))
  then Respond (respondWithValidationError "Invalid ID format")
  else Next parsedId.

End Middleware.


(** ** The Prisma client over the catalogue's schema

    The client's operations follow Prisma's documented meaning: a [where]
    field that is [undefined] is no condition at all, [null] selects the
    absent value, a plain value is equality; the fields of a [where] are
    conjoined; [some], [every] and [none] quantify over the related rows
    ([every] holds of a row with no related rows); [contains] is the
    substring test, in [insensitive] mode with letter case folded (here on
    the ASCII letters); [orderBy: {id: "asc"}] sorts by identifier; [skip]
    and [take] slice the sorted rows.  Each call is atomic; several calls are
    not. *)
Module Prisma.
Import JS.

(** Modelled from the spec: the Prisma schema ([prisma/schema.prisma]) is not
    among the sources.  An author has a name (a string) and an optional
    [email] and [affiliation] (a string or the absent value); its identifier
    is the key it is stored under.  The [createdAt] and [updatedAt]
    timestamps are left out. *)
Record AuthorRow : Type := mkAuthor
  { authorName : string; authorEmail : option string; authorAffiliation : option string }.

(** Modelled from the spec: a paper has a title, a venue and an integer
    year; its identifier is the key it is stored under. *)
Record PaperRow : Type := mkPaper
  { paperTitle : string; paperPublishedIn : string; paperYear : Z }.

(** Modelled from the spec: the store is the two tables, keyed by integer
    identifiers, and the many-to-many relation between them, kept as the set
    [authorToPaper] of pairs (author identifier, paper identifier) whose
    members go with either end when it is deleted; identifiers are assigned
    on creation from a per-table sequence ([authorSeq], [paperSeq]: the next
    identifier to hand out). *)
Record DB : Type := mkDB
  { authors : gmap Z AuthorRow;
    papers : gmap Z PaperRow;
    authorToPaper : gset (Z * Z);
    authorSeq : Z;
    paperSeq : Z }.

#[global] Instance AuthorRow_eq_dec : EqDecision AuthorRow.
Proof. solve_decision. Defined.

#[global] Instance PaperRow_eq_dec : EqDecision PaperRow.
Proof. solve_decision. Defined.

(** A computation over the store that may throw.  A throw keeps the store as
    it is at that point: calls are not grouped in a transaction. *)
Definition M (A : Type) : Type := DB -> Completion A * DB.

Definition ret {A} (a : A) : M A := fun db => (Return a, db).

Definition throw {A} (e : JsError) : M A := fun db => (Throw e, db).

Definition bind {A B} (c : M A) (k : A -> M B) : M B :=
  fun db =>
    match c db with
    | (Return a, db') => k a db'
    | (Throw e, db') => (Throw e, db')
    end.

(** [try { c } catch (error) { h error }]. *)
Definition tryCatch {A} (c : M A) (h : JsError -> M A) : M A :=
  fun db =>
    match c db with
    | (Return a, db') => (Return a, db')
    | (Throw e, db') => h e db'
    end.

Notation "x <- c ;; k" := (bind c (fun x => k))
  (at level 100, c at next level, right associativity).

(** A value handed to Prisma for a nullable string column: [undefined] (the
    property is absent), [null], or a string. *)
Inductive Field : Type :=
| Absent
| Null
| Value (s : string).

(** What a [data] object stores for such a value: nothing for [undefined]
    and [null]. *)
Definition dataValue (f : Field) : option string :=
  match f with
  | Value s => Some s
  | _ => None
  end.

(** *** Filters *)
Inductive StringFilter : Type :=
| Equals (s : string)
| Contains (s : string) (insensitive : bool).

Inductive NullableStringFilter : Type :=
| IsNull
| Is (f : StringFilter).

(** What a [where] object means by such a value in a field. *)
Definition whereValue (f : Field) : option NullableStringFilter :=
  match f with
  | Absent => None
  | Null => Some IsNull
  | Value s => Some (Is (Equals s))
  end.

Record AuthorWhere : Type := mkAuthorWhere
  { whereId : option Z;
    whereName : option StringFilter;
    whereEmail : option NullableStringFilter;
    whereAffiliation : option NullableStringFilter }.

(** The empty filter [{}]. *)
Definition anyAuthor : AuthorWhere := mkAuthorWhere None None None None.

Inductive RelationFilter : Type :=
| RelSome (w : AuthorWhere)
| RelEvery (w : AuthorWhere)
| RelNone (w : AuthorWhere).

#[warnings="-register-all"]
Inductive PaperWhere : Type :=
| mkPaperWhere (whereYear : option Z) (wherePublishedIn : option StringFilter)
    (whereAuthors : option RelationFilter) (AND : list PaperWhere).

Definition lowerChar (c : ascii) : ascii :=
  let n := N_of_ascii c in
  if ((65 <=? n) && (n <=? 90))%N then ascii_of_N (n + 32) else c.

Fixpoint lower (s : string) : string :=
  match s with
  | EmptyString => EmptyString
  | String c r => String (lowerChar c) (lower r)
  end.

Definition stringMatches (f : StringFilter) (v : string) : bool :=
  match f with
  | Equals s => String.eqb v s
  | Contains s false => includes s v
  | Contains s true => includes (lower s) (lower v)
  end.

Definition nullableMatches (f : NullableStringFilter) (v : option string) : bool :=
  match f, v with
  | IsNull, None => true
  | IsNull, Some _ => false
  | Is g, Some s => stringMatches g s
  | Is _, None => false
  end.

(** A field of a [where]: no condition when [undefined]. *)
Definition holds {F} (f : option F) (test : F -> bool) : bool :=
  match f with
  | None => true
  | Some x => test x
  end.

Definition authorMatches (w : AuthorWhere) (a : Z * AuthorRow) : bool :=
  holds (whereId w) (fun i => i =? a.1) &&
  holds (whereName w) (fun f => stringMatches f (authorName a.2)) &&
  holds (whereEmail w) (fun f => nullableMatches f (authorEmail a.2)) &&
  holds (whereAffiliation w) (fun f => nullableMatches f (authorAffiliation a.2)).

Definition idLe {A} (x y : Z * A) : Prop := x.1 <= y.1.

#[global] Instance idLe_dec {A} (x y : Z * A) : Decision (idLe x y).
Proof. unfold idLe. apply _. Defined.

(** The rows of a table by ascending identifier. *)
Definition rowsAsc {A} (table : gmap Z A) : list (Z * A) :=
  merge_sort idLe (map_to_list table).

(** The authors linked to a paper, and the papers linked to an author, by
    ascending identifier. *)
Definition authorsOf (db : DB) (paper : Z) : list (Z * AuthorRow) :=
  List.filter (fun a => bool_decide ((a.1, paper) ∈ authorToPaper db)) (rowsAsc (authors db)).

Definition papersOf (db : DB) (author : Z) : list (Z * PaperRow) :=
  List.filter (fun p => bool_decide ((author, p.1) ∈ authorToPaper db)) (rowsAsc (papers db)).

Definition relationMatches (f : RelationFilter) (linked : list (Z * AuthorRow)) : bool :=
  match f with
  | RelSome w => existsb (authorMatches w) linked
  | RelEvery w => forallb (authorMatches w) linked
  | RelNone w => negb (existsb (authorMatches w) linked)
  end.

Fixpoint paperMatches (db : DB) (w : PaperWhere) (p : Z * PaperRow) : bool :=
  match w with
  | mkPaperWhere y v a ands =>
      holds y (fun y => paperYear p.2 =? y) &&
      holds v (fun f => stringMatches f (paperPublishedIn p.2)) &&
      holds a (fun f => relationMatches f (authorsOf db p.1)) &&
      forallb (fun w' => paperMatches db w' p) ands
  end.

(** [skip] and [take] on rows already in order.  An absent [skip] is 0, an
    absent [take] is no bound; a negative [take] counts from the end; a
    negative [skip] is refused by the client. *)
Definition slice {A} (skip take : option Z) (rows : list A) : Completion (list A) :=
  let s := default 0 skip in
  if s <? 0 then Throw (PrismaClientValidationError "Invalid value for skip argument")
  else
    match take with
    | None => Return (skipn (Z.to_nat s) rows)
    | Some t =>
        if 0 <=? t then Return (firstn (Z.to_nat t) (skipn (Z.to_nat s) rows))
        else Return (rev (firstn (Z.to_nat (- t)) (skipn (Z.to_nat s) (rev rows))))
    end.

(** *** Results with their relation included *)
Record PaperWithAuthors : Type := mkPaperWithAuthors
  { paperId : Z; paperRow : PaperRow; paperAuthors : list (Z * AuthorRow) }.

Record AuthorWithPapers : Type := mkAuthorWithPapers
  { authorId : Z; authorRow : AuthorRow; authorPapers : list (Z * PaperRow) }.

Definition includeAuthors (db : DB) (p : Z * PaperRow) : PaperWithAuthors :=
  mkPaperWithAuthors p.1 p.2 (authorsOf db p.1).

Definition includePapers (db : DB) (a : Z * AuthorRow) : AuthorWithPapers :=
  mkAuthorWithPapers a.1 a.2 (papersOf db a.1).

Definition recordNotFound (message : string) : JsError :=
  PrismaClientKnownRequestError "P2025" message.

Definition uniqueConstraintFailed : JsError :=
  PrismaClientKnownRequestError "P2002" "Unique constraint failed on the fields: (`id`)".

(** The texts of the client's "record not found" errors, in the wording the
    routes look for. *)
Definition RECORD_TO_DELETE : string :=
  "An operation failed because it depends on one or more records that were required but not found. Record to delete does not exist.".

Definition RECORD_TO_UPDATE : string :=
  "An operation failed because it depends on one or more records that were required but not found. Record to update not found.".

Definition RECORD_TO_CONNECT : string :=
  "An operation failed because it depends on one or more records that were required but not found. No 'Author' records were found for a connect on the relation.".

(** *** [prisma.author] *)

(** [findFirst({where, orderBy: {id: "asc"}})]. *)
Definition author_findFirst (w : AuthorWhere) : M (option (Z * AuthorRow)) :=
  fun db => (Return (head (List.filter (authorMatches w) (rowsAsc (authors db)))), db).

(** [create({data})]: the identifier is the next value of the sequence. *)
Definition author_create (data : AuthorRow) : M (Z * AuthorRow) :=
  fun db =>
    let id := authorSeq db in
    let db' := mkDB (authors db) (papers db) (authorToPaper db) (id + 1) (paperSeq db) in
    match authors db !! id with
    | Some _ => (Throw uniqueConstraintFailed, db')
    | None =>
        (Return (id, data),
         mkDB (<[id := data]> (authors db)) (papers db) (authorToPaper db) (id + 1) (paperSeq db))
    end.

(** [findMany({where, orderBy: {id: "asc"}, skip, take, include: {papers: true}})]. *)
Definition author_findMany (w : AuthorWhere) (skip take : option Z)
  : M (list AuthorWithPapers) :=
  fun db =>
    match slice skip take (List.filter (authorMatches w) (rowsAsc (authors db))) with
    | Throw e => (Throw e, db)
    | Return rows => (Return (map (includePapers db) rows), db)
    end.

(** [delete({where: {id}})]: the author's rows of the join table go with
    it. *)
Definition author_delete (id : Z) : M unit :=
  fun db =>
    match authors db !! id with
    | None => (Throw (recordNotFound RECORD_TO_DELETE), db)
    | Some _ =>
        (Return tt,
         mkDB (delete id (authors db)) (papers db)
           (filter (fun l => l.1 ≠ id) (authorToPaper db))
           (authorSeq db) (paperSeq db))
    end.

(** *** [prisma.paper] *)

Definition connectLinks (paper : Z) (ids : list Z) : gset (Z * Z) :=
  list_to_set (map (fun a => (a, paper)) ids).

Definition allExist (db : DB) (ids : list Z) : bool :=
  forallb (fun a => bool_decide (is_Some (authors db !! a))) ids.

(** [create({data: {..., authors: {connect}}, include: {authors: true}})]. *)
Definition paper_create (data : PaperRow) (connect : list Z) : M PaperWithAuthors :=
  fun db =>
    let id := paperSeq db in
    let bumped := mkDB (authors db) (papers db) (authorToPaper db) (authorSeq db) (id + 1) in
    match papers db !! id with
    | Some _ => (Throw uniqueConstraintFailed, bumped)
    | None =>
        if negb (allExist db connect) then (Throw (recordNotFound RECORD_TO_CONNECT), bumped)
        else
          let db' := mkDB (authors db) (<[id := data]> (papers db))
                       (authorToPaper db ∪ connectLinks id connect)
                       (authorSeq db) (id + 1) in
          (Return (includeAuthors db' (id, data)), db')
    end.

(** [findMany({where, orderBy: {id: "asc"}, skip, take})], rows only. *)
Definition paper_findManyRows (w : PaperWhere) (skip take : option Z)
  : M (list (Z * PaperRow)) :=
  fun db =>
    (slice skip take (List.filter (paperMatches db w) (rowsAsc (papers db))), db).

(** The same with [include: {authors: true}]. *)
Definition paper_findMany (w : PaperWhere) (skip take : option Z)
  : M (list PaperWithAuthors) :=
  fun db =>
    match slice skip take (List.filter (paperMatches db w) (rowsAsc (papers db))) with
    | Throw e => (Throw e, db)
    | Return rows => (Return (map (includeAuthors db) rows), db)
    end.

(** [findUnique({where: {id}, include: {authors: true}})]. *)
Definition paper_findUnique (id : Z) : M (option PaperWithAuthors) :=
  fun db => (Return (option_map (fun row => includeAuthors db (id, row)) (papers db !! id)), db).

(** [update({where: {id}, data: {..., authors: {set, connect}},
    include: {authors: true}})]: the paper's links become those of [set],
    then those of [connect] are added. *)
Definition paper_update (id : Z) (data : PaperRow) (set connect : list Z)
  : M PaperWithAuthors :=
  fun db =>
    match papers db !! id with
    | None => (Throw (recordNotFound RECORD_TO_UPDATE), db)
    | Some _ =>
        if negb (allExist db set && allExist db connect)
        then (Throw (recordNotFound RECORD_TO_CONNECT), db)
        else
          let db' := mkDB (authors db) (<[id := data]> (papers db))
                       (filter (fun l => l.2 ≠ id) (authorToPaper db)
                          ∪ connectLinks id set ∪ connectLinks id connect)
                       (authorSeq db) (paperSeq db) in
          (Return (includeAuthors db' (id, data)), db')
    end.

(** [delete({where: {id}})]: the paper's rows of the join table go with
    it. *)
Definition paper_delete (id : Z) : M unit :=
  fun db =>
    match papers db !! id with
    | None => (Throw (recordNotFound RECORD_TO_DELETE), db)
    | Some _ =>
        (Return tt,
         mkDB (authors db) (delete id (papers db))
           (filter (fun l => l.2 ≠ id) (authorToPaper db))
           (authorSeq db) (paperSeq db))
    end.

(** *** Values given to [create]

    The client checks a [data] object against the schema before anything
    reaches the store: a string column takes a string, a nullable string
    column a string, [null] or [undefined]; any other value is refused with
    a validation error (whose text is not kept). *)
Definition invalidValue : JsError :=
  PrismaClientValidationError "Invalid value provided".

Definition stringInput (v : JsValue) : Completion string :=
  match v with
  | JsStr s => Return s
  | _ => Throw invalidValue
  end.

Definition nullableStringInput (v : JsValue) : Completion Field :=
  match v with
  | JsUndefined => Return Absent
  | JsNull => Return Null
  | JsStr s => Return (Value s)
  | _ => Throw invalidValue
  end.

(** *** Arguments as they arrive

    Where a value reaches the client as the request gave it, its reading has
    three outcomes: the argument the typed operation takes, the validation
    error the client throws before any query runs, and [None] for what this
    model of the client does not cover (its filter objects and nested
    writes). *)

(** A value given in a [where] for a string column: a string is equality,
    [undefined] no condition; a number or a boolean is refused. *)
Definition stringWhere (v : JsValue) : option (Completion (option StringFilter)) :=
  match v with
  | JsUndefined => Some (Return None)
  | JsStr s => Some (Return (Some (Equals s)))
  | JsBool _ | JsNum _ => Some (Throw invalidValue)
  | JsNull | JsArr _ | JsObj _ => None
  end.

(** The same for a nullable string column, where [null] selects the absent
    value. *)
Definition nullableStringWhere (v : JsValue) : option (Completion Field) :=
  match v with
  | JsUndefined => Some (Return Absent)
  | JsNull => Some (Return Null)
  | JsStr s => Some (Return (Value s))
  | JsBool _ | JsNum _ => Some (Throw invalidValue)
  | JsArr _ | JsObj _ => None
  end.

(** Modelled from the spec: the schema ([prisma/schema.prisma]) is not among
    the sources.  The fields of an author: its identifier, the three columns
    of the identity tuple, the two timestamps and the relation to its
    papers. *)
Definition AUTHOR_FIELDS : list string :=
  ["id"; "name"; "email"; "affiliation"; "createdAt"; "updatedAt"; "papers"].

Definition hasOnly (fields : list string) (props : list (string * JsValue)) : bool :=
  forallb (fun kv => bool_decide (kv.1 ∈ fields)) props.

(** A whole object given as the [data] of [author.create]: a property that
    is no field of the model is refused, and so is a value that does not fit
    its column; what gives nothing besides [name], [email] and [affiliation]
    is the row to store.  An identifier, a timestamp or a nested write of
    papers is not covered. *)
Definition authorCreateData (data : JsValue) : option (Completion AuthorRow) :=
  match data with
  | JsObj props =>
      if negb (hasOnly AUTHOR_FIELDS props) then Some (Throw invalidValue)
      else
        match stringInput (lookupProp props "name"),
              nullableStringInput (lookupProp props "email"),
              nullableStringInput (lookupProp props "affiliation") with
        | Return name, Return email, Return affiliation =>
            if hasOnly ["name"; "email"; "affiliation"] props
            then Some (Return (mkAuthor name (dataValue email) (dataValue affiliation)))
            else None
        | _, _, _ => Some (Throw invalidValue)
        end
  | _ => None
  end.

(** *** [prisma.author], with the papers included *)

(** [create({data, include: {papers: true}})]. *)
Definition author_createIncluding (data : AuthorRow) : M AuthorWithPapers :=
  fun db =>
    match author_create data db with
    | (Return a, db') => (Return (includePapers db' a), db')
    | (Throw e, db') => (Throw e, db')
    end.

(** [findUnique({where: {id}, include: {papers: true}})]. *)
Definition author_findUnique (id : Z) : M (option AuthorWithPapers) :=
  fun db => (Return (option_map (fun row => includePapers db (id, row)) (authors db !! id)), db).

(** What the [data] of an [update] makes of a nullable string column: an
    [undefined] value leaves the column as it is, [null] empties it. *)
Definition updateValue (f : Field) (stored : option string) : option string :=
  match f with
  | Absent => stored
  | Null => None
  | Value s => Some s
  end.

(** [update({where: {id}, data: {name, email, affiliation},
    include: {papers: true}})]. *)
Definition author_update (id : Z) (name : string) (email affiliation : Field)
  : M AuthorWithPapers :=
  fun db =>
    match authors db !! id with
    | None => (Throw (recordNotFound RECORD_TO_UPDATE), db)
    | Some row =>
        let row' := mkAuthor name (updateValue email (authorEmail row))
                      (updateValue affiliation (authorAffiliation row)) in
        let db' := mkDB (<[id := row']> (authors db)) (papers db) (authorToPaper db)
                     (authorSeq db) (paperSeq db) in
        (Return (includePapers db' (id, row')), db')
    end.

End Prisma.

(** ** [database.js] *)
Module Database.
Import JS Prisma.

(** An author as a paper's payload carries it: a name and the optional
    [email] and [affiliation], each a string, [null] or absent. *)
Record AuthorInput : Type := mkAuthorInput
  { inputName : string; inputEmail : Field; inputAffiliation : Field }.

Record PaperData : Type := mkPaperData
  { dataTitle : string; dataPublishedIn : string; dataYear : Z;
    dataAuthors : list AuthorInput }.

(** The loop of [createPaper] over [paperData.authors], [newAuthors] being
    the identifiers pushed so far. *)
Fixpoint createPaper_authors (authors : list AuthorInput) (newAuthors : list Z)
  : M (list Z) :=
  match authors with
  | [] => ret newAuthors
  | author :: rest =>
      let name := inputName author in
      let email := inputEmail author in
      let affiliation := inputAffiliation author in
      found <- author_findFirst
                 (mkAuthorWhere None (Some (Equals name)) (whereValue email)
                    (whereValue affiliation)) ;;
      auther <- match found with
                | None => author_create (mkAuthor name (dataValue email) (dataValue affiliation))
                | Some a => ret a
                end ;;
      createPaper_authors rest (newAuthors ++ [auther.1])
  end.

Definition createPaper (paperData : PaperData) : M PaperWithAuthors :=
  tryCatch
    (newAuthors <- createPaper_authors (dataAuthors paperData) [] ;;
     paper_create
       (mkPaper (dataTitle paperData) (dataPublishedIn paperData) (dataYear paperData))
       newAuthors)
    (fun error => throw (Error "Failed to insert paper")).

(** The [author] filter of a paper listing: absent, one string, or an
    array of strings. *)
Inductive AuthorFilter : Type :=
| NoAuthorFilter
| AuthorString (author : string)
| AuthorArray (author : list string).

Record PaperFilters : Type := mkPaperFilters
  { filterYear : option Z;
    filterPublishedIn : option string;
    filterAuthor : AuthorFilter;
    filterLimit : option Z;
    filterOffset : option Z }.

(** [getAllPapers()] with no argument: [filters = {}]. *)
Definition noPaperFilters : PaperFilters :=
  mkPaperFilters None None NoAuthorFilter None None.

(** A listing as returned: the rows, [total], and the [limit] and [offset]
    it was asked with. *)
Record Listing (A : Type) : Type := mkListing
  { items : list A; total : Z; limit : option Z; offset : option Z }.
Arguments mkListing {A} items total limit offset.
Arguments items {A} l.
Arguments total {A} l.
Arguments limit {A} l.
Arguments offset {A} l.

Definition nameContains (name : string) : AuthorWhere :=
  mkAuthorWhere None (Some (Contains name true)) None None.

(** [x ? x : undefined] on an optional number and an optional string: 0 and
    the empty string are falsy. *)
Definition truthyNumber (x : option Z) : option Z :=
  match x with
  | Some n => if n =? 0 then None else Some n
  | None => None
  end.

Definition truthyString (x : option string) : option string :=
  match x with
  | Some EmptyString => None
  | other => other
  end.

Definition getAllPapers (filters : PaperFilters) : M (Listing PaperWithAuthors) :=
  let year := filterYear filters in
  let publishedIn := filterPublishedIn filters in
  let author := filterAuthor filters in
  let limit := filterLimit filters in
  let offset := filterOffset filters in
  (* authorArrayFilter: the [authors] and the [AND] it spreads into [where] *)
  let authorArrayFilter : option RelationFilter * list PaperWhere :=
    match author with
    | AuthorArray [] => (Some (RelNone anyAuthor), [])
    | AuthorArray names =>
        (None,
         map (fun name => mkPaperWhere None None (Some (RelSome (nameContains name))) [])
           names)
    | AuthorString name => (Some (RelSome (nameContains name)), [])
    | NoAuthorFilter => (None, [])
    end in
  papers <- paper_findMany
              (mkPaperWhere (truthyNumber year)
                 (option_map (fun v => Contains v true) (truthyString publishedIn))
                 authorArrayFilter.1 authorArrayFilter.2)
              offset limit ;;
  let total := Z.of_nat (length papers) in
  ret (mkListing papers total limit offset).

Definition getPaperById (id : Z) : M (option PaperWithAuthors) :=
  paper_findUnique id.

(** The loop of [updatePaper] over [paperData.authors]. *)
Fixpoint updatePaper_authors (authors : list AuthorInput) (authorIds : list Z)
  : M (list Z) :=
  match authors with
  | [] => ret authorIds
  | author :: rest =>
      found <- author_findFirst
                 (mkAuthorWhere None (Some (Equals (inputName author)))
                    (whereValue (inputEmail author))
                    (whereValue (inputAffiliation author))) ;;
      existingAuthor <-
        match found with
        | None => author_create
                    (mkAuthor (inputName author) (dataValue (inputEmail author))
                       (dataValue (inputAffiliation author)))
        | Some a => ret a
        end ;;
      updatePaper_authors rest (authorIds ++ [existingAuthor.1])
  end.

Definition updatePaper (id : Z) (paperData : PaperData) : M PaperWithAuthors :=
  authorIds <- updatePaper_authors (dataAuthors paperData) [] ;;
  paper_update id
    (mkPaper (dataTitle paperData) (dataPublishedIn paperData) (dataYear paperData))
    [] authorIds.

Definition deletePaper (id : Z) : M unit :=
  paper_delete id.

(** *** [updatePaper] on the payload as it arrives

    The route hands [paperData] over as the body gave it, of which
    [validatePaperInput] has checked the title, the venue, the year and the
    names of the authors, and nothing else.  The typed [updatePaper] above
    is the function on the payloads its comment describes; here each author
    is the JSON value received.  [None]: the client's reading of an argument
    is not covered (see [Prisma]). *)

(** The [where] of the loop's [findFirst]: [author.name], [author.email] and
    [author.affiliation], and nothing else of [author]. *)
Definition findFirstWhere (author : JsValue) : option (Completion AuthorWhere) :=
  match author with
  | JsUndefined | JsNull => Some (Throw TypeError)
  | _ =>
      match stringWhere (getProperty author "name"),
            nullableStringWhere (getProperty author "email"),
            nullableStringWhere (getProperty author "affiliation") with
      | Some (Return name), Some (Return email), Some (Return affiliation) =>
          Some (Return (mkAuthorWhere None name (whereValue email) (whereValue affiliation)))
      | Some (Throw e), _, _ => Some (Throw e)
      | _, Some (Throw e), _ => Some (Throw e)
      | _, _, Some (Throw e) => Some (Throw e)
      | _, _, _ => None
      end
  end.

(** The loop of [updatePaper]: [create({data: author})] takes the whole
    object. *)
Fixpoint updatePaper_authors_raw (authors : list JsValue) (authorIds : list Z) (db : DB)
  : option (Completion (list Z) * DB) :=
  match authors with
  | [] => Some (Return authorIds, db)
  | author :: rest =>
      match findFirstWhere author with
      | None => None
      | Some (Throw e) => Some (Throw e, db)
      | Some (Return w) =>
          match author_findFirst w db with
          | (Throw e, db1) => Some (Throw e, db1)
          | (Return (Some existingAuthor), db1) =>
              updatePaper_authors_raw rest (authorIds ++ [existingAuthor.1]) db1
          | (Return None, db1) =>
              match authorCreateData author with
              | None => None
              | Some (Throw e) => Some (Throw e, db1)
              | Some (Return data) =>
                  match author_create data db1 with
                  | (Throw e, db2) => Some (Throw e, db2)
                  | (Return existingAuthor, db2) =>
                      updatePaper_authors_raw rest (authorIds ++ [existingAuthor.1]) db2
                  end
              end
          end
      end
  end.

(** The [data] of the final [update]: the title, the venue and the year as
    [validatePaperInput] leaves them, two strings and an integer. *)
Definition paperUpdateData (title publishedIn year : JsValue) : option PaperRow :=
  match title, publishedIn, year with
  | JsStr t, JsStr p, JsNum (JInt y) => Some (mkPaper t p y)
  | _, _, _ => None
  end.

Definition updatePaper_raw (id : Z) (paperData : JsValue) (db : DB)
  : option (Completion PaperWithAuthors * DB) :=
  match getProperty paperData "authors" with
  | JsArr authors =>
      match updatePaper_authors_raw authors [] db with
      | None => None
      | Some (Throw e, db1) => Some (Throw e, db1)
      | Some (Return authorIds, db1) =>
          match paperUpdateData (getProperty paperData "title")
                  (getProperty paperData "publishedIn") (getProperty paperData "year") with
          | None => None
          | Some data => Some (paper_update id data [] authorIds db1)
          end
      end
  | _ => None
  end.

Record AuthorFilters : Type := mkAuthorFilters
  { filterName : option string;
    filterAffiliation : option string;
    authorsLimit : option Z;
    authorsOffset : option Z }.

Definition getAllAuthors (filters : AuthorFilters) : M (Listing AuthorWithPapers) :=
  let name := filterName filters in
  let affiliation := filterAffiliation filters in
  let limit := authorsLimit filters in
  let offset := authorsOffset filters in
  authors <- author_findMany
               (mkAuthorWhere None
                  (option_map (fun v => Contains v true) (truthyString name))
                  None
                  (option_map (fun v => Is (Contains v true)) (truthyString affiliation)))
               offset limit ;;
  let total := Z.of_nat (length authors) in
  ret (mkListing authors total limit offset).

Definition SOLE_AUTHOR_MESSAGE : string :=
  "Cannot delete author: they are the only author of one or more papers".

Definition deleteAuthor (id : Z) : M unit :=
  papersWithSoleAuthor <-
    paper_findManyRows
      (mkPaperWhere None None (Some (RelEvery (mkAuthorWhere (Some id) None None None))) [])
      None None ;;
  if 0 <? Z.of_nat (length papersWithSoleAuthor)
  then throw (Error SOLE_AUTHOR_MESSAGE)
  else author_delete id.

(** [createAuthor(authorData)], [authorData] being the name, email and
    affiliation the route has taken from the body. *)
Definition createAuthor (authorData : AuthorInput) : M AuthorWithPapers :=
  author_createIncluding
    (mkAuthor (inputName authorData) (dataValue (inputEmail authorData))
       (dataValue (inputAffiliation authorData))).

Definition getAuthorById (id : Z) : M (option AuthorWithPapers) :=
  author_findUnique id.

Definition updateAuthor (id : Z) (authorData : AuthorInput) : M AuthorWithPapers :=
  author_update id (inputName authorData) (inputEmail authorData)
    (inputAffiliation authorData).

End Database.

(** ** [routes/authors.js] and [routes/papers.js] *)
Module Routes.
Import JS Http Prisma.

(** The error handler installed last: every error handed to [next]. *)
Definition errorHandler (err : JsError) : Response :=
  {| status := INTERNAL_SERVER_ERROR;
     body := JsObj [("error", JsStr "Internal Server Error");
                    ("message", JsStr "An unexpected error occurred")] |}.

(** The handler behind [validateResourceId].  The validated identifier is an
    integral number; the client refuses any other before it reaches the
    store. *)
Definition deleteAuthorHandler (id : JsNumber) (db : DB) : Response * DB :=
  match id with
  | JInt n =>
      match Database.deleteAuthor n db with
      | (Return _, db') => ({| status := NO_CONTENT; body := JsUndefined |}, db')
      | (Throw e, db') =>
          if includes "Record to delete does not exist" (errorMessage e)
          then ({| status := NOT_FOUND; body := JsObj [("error", JsStr "Author not found")] |}, db')
          else if String.eqb Database.SOLE_AUTHOR_MESSAGE (errorMessage e)
          then ({| status := BAD_REQUEST;
                   body := JsObj [("error", JsStr "Constraint Error");
                                  ("message", JsStr Database.SOLE_AUTHOR_MESSAGE)] |}, db')
          else (errorHandler e, db')
      end
  | _ => (errorHandler (PrismaClientValidationError "Invalid value for argument id"), db)
  end.

Definition deleteAuthorRoute (id : string) (db : DB) : Response * DB :=
  match Middleware.validateResourceId id with
  | Respond r => (r, db)
  | Next parsedId => deleteAuthorHandler parsedId db
  end.

(** *** The other routes of [routes/papers.js] and [routes/authors.js]

    What a handler sends is either a plain answer (an error object, or no
    body at all) or a status with the entity or the listing handed to
    [res.json]. *)
Inductive Reply (A : Type) : Type :=
| Plain (r : Response)
| Payload (status : Z) (payload : A).
Arguments Plain {A} r.
Arguments Payload {A} status payload.

Definition notFound (message : string) : Response :=
  {| status := NOT_FOUND; body := JsObj [("error", JsStr message)] |}.

(** [GET /api/papers/:id]. *)
Definition getPaperHandler (id : JsNumber) (db : DB) : Reply PaperWithAuthors * DB :=
  match id with
  | JInt n =>
      match Database.getPaperById n db with
      | (Return None, db') => (Plain (notFound "Paper not found"), db')
      | (Return (Some paper), db') => (Payload OK paper, db')
      | (Throw e, db') => (Plain (errorHandler e), db')
      end
  | _ => (Plain (errorHandler (PrismaClientValidationError "Invalid value for argument id")), db)
  end.

Definition getPaperRoute (id : string) (db : DB) : Reply PaperWithAuthors * DB :=
  match Middleware.validateResourceId id with
  | Respond r => (Plain r, db)
  | Next parsedId => getPaperHandler parsedId db
  end.

(** [DELETE /api/papers/:id]. *)
Definition deletePaperHandler (id : JsNumber) (db : DB) : Response * DB :=
  match id with
  | JInt n =>
      match Database.deletePaper n db with
      | (Return _, db') => ({| status := NO_CONTENT; body := JsUndefined |}, db')
      | (Throw e, db') =>
          if includes "Record to delete does not exist." (errorMessage e)
          then (notFound "Paper not found", db')
          else (errorHandler e, db')
      end
  | _ => (errorHandler (PrismaClientValidationError "Invalid value for argument id"), db)
  end.

Definition deletePaperRoute (id : string) (db : DB) : Response * DB :=
  match Middleware.validateResourceId id with
  | Respond r => (r, db)
  | Next parsedId => deletePaperHandler parsedId db
  end.

(** [GET /api/authors/:id]. *)
Definition getAuthorHandler (id : JsNumber) (db : DB) : Reply AuthorWithPapers * DB :=
  match id with
  | JInt n =>
      match Database.getAuthorById n db with
      | (Return None, db') => (Plain (notFound "Author not found"), db')
      | (Return (Some author), db') => (Payload OK author, db')
      | (Throw e, db') => (Plain (errorHandler e), db')
      end
  | _ => (Plain (errorHandler (PrismaClientValidationError "Invalid value for argument id")), db)
  end.

Definition getAuthorRoute (id : string) (db : DB) : Reply AuthorWithPapers * DB :=
  match Middleware.validateResourceId id with
  | Respond r => (Plain r, db)
  | Next parsedId => getAuthorHandler parsedId db
  end.

(** The values a list handler takes out of the query its validator has
    handed on: the integer under a key, the string under a key, the [author]
    parameter.  A query that has passed its validator holds nothing else
    under the keys read (lemmas [validated_paper_query_typed] and
    [validated_author_query_typed]). *)
Definition integerParam (query : Query) (key : string) : option Z :=
  match query !! key with
  | Some (QNumber (JInt n)) => Some n
  | _ => None
  end.

Definition stringParam (query : Query) (key : string) : option string :=
  match query !! key with
  | Some (Raw (QString s)) => Some s
  | _ => None
  end.

Definition stringElements (elements : list ParsedQs) : list string :=
  omap (fun e => match e with QString s => Some s | _ => None end) elements.

Definition authorParam (query : Query) : Database.AuthorFilter :=
  match query !! "author" with
  | Some (Raw (QString s)) => Database.AuthorString s
  | Some (Raw (QArray elements)) => Database.AuthorArray (stringElements elements)
  | _ => Database.NoAuthorFilter
  end.

(** [GET /api/papers]: the handler behind [validatePaperQueryParams]. *)
Definition getPapersHandler (query : Query) (db : DB)
  : Reply (Database.Listing PaperWithAuthors) * DB :=
  let year := integerParam query "year" in
  let publishedIn := stringParam query "publishedIn" in
  let author := authorParam query in
  let limit := integerParam query "limit" in
  let offset := integerParam query "offset" in
  match Database.getAllPapers
          (Database.mkPaperFilters year publishedIn author limit offset) db with
  | (Return found, db') =>
      (Payload OK (Database.mkListing (Database.items found) (Database.total found)
                     limit offset), db')
  | (Throw e, db') => (Plain (errorHandler e), db')
  end.

Definition getPapersRoute (query : Query) (db : DB)
  : Reply (Database.Listing PaperWithAuthors) * DB :=
  match Middleware.validatePaperQueryParams query with
  | Respond r => (Plain r, db)
  | Next validated => getPapersHandler validated db
  end.

(** [GET /api/authors]: the handler behind [validateAuthorQueryParams]. *)
Definition getAuthorsHandler (query : Query) (db : DB)
  : Reply (Database.Listing AuthorWithPapers) * DB :=
  let name := stringParam query "name" in
  let affiliation := stringParam query "affiliation" in
  let limit := integerParam query "limit" in
  let offset := integerParam query "offset" in
  match Database.getAllAuthors
          (Database.mkAuthorFilters name affiliation limit offset) db with
  | (Return found, db') =>
      (Payload OK (Database.mkListing (Database.items found) (Database.total found)
                     limit offset), db')
  | (Throw e, db') => (Plain (errorHandler e), db')
  end.

Definition getAuthorsRoute (query : Query) (db : DB)
  : Reply (Database.Listing AuthorWithPapers) * DB :=
  match Middleware.validateAuthorQueryParams query with
  | Respond r => (Plain r, db)
  | Next validated => getAuthorsHandler validated db
  end.

(** [POST /api/authors].  The body is what [express.json()] has parsed. *)
Definition validationErrors (errors : list string) : Response :=
  {| status := BAD_REQUEST;
     body := JsObj [("error", JsStr "Validation Error");
                    ("messages", JsArr (map JsStr errors))] |}.

(** The [authorData] of the route as [prisma.author.create] takes it. *)
Definition authorCreateInput (name email affiliation : JsValue)
  : Completion Database.AuthorInput :=
  match stringInput name with
  | Throw e => Throw e
  | Return n =>
      match nullableStringInput email with
      | Throw e => Throw e
      | Return e =>
          match nullableStringInput affiliation with
          | Throw e' => Throw e'
          | Return a => Return (Database.mkAuthorInput n e a)
          end
      end
  end.

Definition createAuthorRoute (body : JsValue) (db : DB) : Reply AuthorWithPapers * DB :=
  match body with
  | JsUndefined | JsNull => (Plain (errorHandler TypeError), db)
  | _ =>
      let name := getProperty body "name" in
      let email := getProperty body "email" in
      let affiliation := getProperty body "affiliation" in
      let authorData :=
        JsObj [("name", name); ("email", email); ("affiliation", affiliation)] in
      match Middleware.validateAuthorInput authorData with
      | Throw e => (Plain (errorHandler e), db)
      | Return errors =>
          if negb (Z.of_nat (length errors) =? 0)
          then (Plain (validationErrors errors), db)
          else
            match authorCreateInput name email affiliation with
            | Throw e => (Plain (errorHandler e), db)
            | Return input =>
                match Database.createAuthor input db with
                | (Return author, db') => (Payload CREATED author, db')
                | (Throw e, db') => (Plain (errorHandler e), db')
                end
            end
      end
  end.

End Routes.

(** ** [frontend/src/components/PaperForm.jsx]: the validation of the form *)
Module PaperForm.
Import JS.

Definition isNonEmptyStringAfterTrim (str : JsValue) : bool :=
  match str with
  | JsStr s => 0 <? strLength (trim s)
  | _ => false
  end.

Definition isIntegerGreaterThan1900 (num : JsValue) : bool :=
  Number_isInteger num &&
  match num with JsNum n => numLt (JInt 1900) n | _ => false end.

Definition EMPTY_PAPER_INPUTS : JsValue :=
  JsObj [("title", JsStr ""); ("publishedIn", JsStr ""); ("year", JsNum (JInt 0));
         ("authorIds", JsArr [])].

(** [validatePaperInput(paper)]: the first error met, or [null] ([None]). *)
Definition validatePaperInput (paper : JsValue) : Completion (option string) :=
  match paper with
  | JsUndefined | JsNull => Throw TypeError
  | _ =>
      let title := getProperty paper "title" in
      let publishedIn := getProperty paper "publishedIn" in
      let year := getProperty paper "year" in
      let authorIds := getProperty paper "authorIds" in
      if strictEquals (getProperty EMPTY_PAPER_INPUTS "title") title
         || negb (isNonEmptyStringAfterTrim title)
      then Return (Some "Title is required")
      else if strictEquals (getProperty EMPTY_PAPER_INPUTS "publishedIn") publishedIn
              || negb (isNonEmptyStringAfterTrim publishedIn)
      then Return (Some "Published venue is required")
      else if strictEquals (getProperty EMPTY_PAPER_INPUTS "year") year
      then Return (Some "Publication year is required")
      else if negb (isIntegerGreaterThan1900 year)
      then Return (Some "Valid year after 1900 is required")
      else
        match getLength authorIds with
        | Throw e => Throw e
        | Return len =>
            if strictEquals (JsNum (JInt 0)) len
            then Return (Some "Please select at least one author")
            else Return None
        end
  end.

(** The state of the form is an object; it is kept as its properties. *)
Definition FormData : Type := list (string * JsValue).

(** What submitting the form comes to: the error shown ([setError]) or the
    paper handed to [onSubmit]. *)
Inductive Submission : Type :=
| ShowError (validationError : string)
| Submit (paperData : JsValue).

Definition handleSubmit (formData : FormData) : Completion Submission :=
  let title := lookupProp formData "title" in
  let publishedIn := lookupProp formData "publishedIn" in
  let year := lookupProp formData "year" in
  let authorIds := lookupProp formData "authorIds" in
  let paperData :=
    JsObj [("title", title); ("publishedIn", publishedIn); ("year", year);
           ("authorIds", authorIds)] in
  match validatePaperInput paperData with
  | Throw e => Throw e
  | Return (Some validationError) => Return (ShowError validationError)
  | Return None => Return (Submit paperData)
  end.

(** [handleChange(e)] with [e.target] the input called [name] holding the
    text [value]: the update it applies to the state. *)
Definition handleChange (name value : string) (prev : FormData) : FormData :=
  setProp prev name
    (if String.eqb "year" name then JsNum (StringToNumber value) else JsStr value).

End PaperForm.


(** ** Notions the properties are stated with *)
Module Notions.
Import JS Http Prisma Database.

(** *** Request validation *)

Definition isDecimalDigit (c : ascii) : bool :=
  let n := Z.of_N (N_of_ascii c) in (48 <=? n) && (n <=? 57).

(** The value of a string made of decimal digits only. *)
Fixpoint digitsValue (s : string) (acc : Z) : option Z :=
  match s with
  | EmptyString => Some acc
  | String c r =>
      if isDecimalDigit c then digitsValue r (10 * acc + (Z.of_N (N_of_ascii c) - 48))
      else None
  end.

(** A plain decimal numeral: one digit or more and nothing else, neither
    before, nor after, nor in between; with its value. *)
Definition plainDecimal (s : string) : option Z :=
  match s with
  | EmptyString => None
  | _ => digitsValue s 0
  end.

(** A string that is not blank once trimmed. *)
Definition nonBlankString (v : JsValue) : Prop :=
  ∃ s, v = JsStr s ∧ trim s ≠ EmptyString.

(** An integer greater than 1900. *)
Definition integerAfter1900 (v : JsValue) : Prop :=
  ∃ n, v = JsNum (JInt n) ∧ 1900 < n.

(** Neither [null] nor [undefined]. *)
Definition notNullish (v : JsValue) : Prop := v ≠ JsNull ∧ v ≠ JsUndefined.

(** The messages of [validatePaperInput], in the order of its checks. *)
Definition paperMessages : list string :=
  ["Title is required"; "Published venue is required"; "Published year is required";
   "Valid year after 1900 is required"; "At least one author is required";
   "Author name is required"].

(** No element of the paper's [authors] array is [null] or [undefined]. *)
Definition authorsAreValues (paper : JsValue) : Prop :=
  match getProperty paper "authors" with
  | JsArr l => Forall notNullish l
  | _ => True
  end.

(** The answer to a path identifier that is refused. *)
Definition invalidIdResponse : Response :=
  {| status := 400;
     body := JsObj [("error", JsStr "Validation Error");
                    ("message", JsStr "Invalid ID format")] |}.

(** The one answer to any query parameter that is refused. *)
Definition invalidQueryResponse : Response :=
  {| status := 400;
     body := JsObj [("error", JsStr "Validation Error");
                    ("message", JsStr "Invalid query parameter format")] |}.

(** The rule for [limit]: 10 when absent; when present, the integer in
    [1, 100] it converts to, if any. *)
Definition limitByRule (limit : option QueryValue) : option Z :=
  match limit with
  | None => Some 10
  | Some l =>
      match Number l with
      | JInt n => if (1 <=? n) && (n <=? 100) then Some n else None
      | _ => None
      end
  end.

(** The rule for [offset]: 0 when absent; when present, the non-negative
    integer it converts to, if any. *)
Definition offsetByRule (offset : option QueryValue) : option Z :=
  match offset with
  | None => Some 0
  | Some o =>
      match Number o with
      | JInt n => if 0 <=? n then Some n else None
      | _ => None
      end
  end.

(** A query validator follows the rules on [limit] and [offset] at a query:
    if the request proceeds, it carries the limit and the offset the rules
    give; if one of the two parameters breaks its rule, the request is
    answered with the one refusal; and the validator has no other refusal
    than that one. *)
Definition followsPagingRules (validate : Query -> MiddlewareResult Query)
    (query : Query) : Prop :=
  (∀ validated, validate query = Next validated →
     ∃ l o, limitByRule (query !! "limit") = Some l ∧
            offsetByRule (query !! "offset") = Some o ∧
            validated !! "limit" = Some (QNumber (JInt l)) ∧
            validated !! "offset" = Some (QNumber (JInt o))) ∧
  (limitByRule (query !! "limit") = None ∨ offsetByRule (query !! "offset") = None →
     validate query = Respond invalidQueryResponse) ∧
  (∀ r, validate query = Respond r → r = invalidQueryResponse).

(** The validated query of a request whose limit and offset follow the
    rules. *)
Definition withPaging (query : Query) (l o : Z) : Query :=
  <["offset" := QNumber (JInt o)]> (<["limit" := QNumber (JInt l)]> query).

(** *** The store *)

(** The linked authors of [paper] are exactly [author]. *)
Definition isSoleAuthorOf (db : DB) (author paper : Z) : Prop :=
  (authorsOf db paper).*1 = [author].

(** [author] is the sole author of some paper of the store. *)
Definition isSoleAuthor (db : DB) (author : Z) : Prop :=
  map_Exists (fun paper _ => isSoleAuthorOf db author paper) (papers db).

(** Every paper of the store has at least one linked author: what the
    routes maintain by validating every paper they write. *)
Definition everyPaperHasAnAuthor (db : DB) : Prop :=
  map_Forall (fun paper _ => authorsOf db paper ≠ []) (papers db).

(** The author sequence is ahead of every identifier in use. *)
Definition authorIdsBelowSeq (db : DB) : Prop :=
  map_Forall (fun i _ => i < authorSeq db) (authors db).

#[global] Instance isSoleAuthor_dec db author : Decision (isSoleAuthor db author).
Proof. unfold isSoleAuthor, isSoleAuthorOf. apply _. Defined.

#[global] Instance everyPaperHasAnAuthor_dec db : Decision (everyPaperHasAnAuthor db).
Proof. unfold everyPaperHasAnAuthor. apply _. Defined.

#[global] Instance authorIdsBelowSeq_dec db : Decision (authorIdsBelowSeq db).
Proof. unfold authorIdsBelowSeq. apply _. Defined.

(** The store after removing an author together with its links. *)
Definition withoutAuthor (db : DB) (id : Z) : DB :=
  mkDB (delete id (authors db)) (papers db)
    (filter (fun l => l.1 ≠ id) (authorToPaper db)) (authorSeq db) (paperSeq db).

(** The answer of the author deletion route to a refused deletion. *)
Definition constraintResponse : Response :=
  {| status := 400;
     body := JsObj [("error", JsStr "Constraint Error");
                    ("message",
                     JsStr "Cannot delete author: they are the only author of one or more papers")] |}.

(** The filter of [deleteAuthor]: every linked author is [id]. *)
Definition everyAuthorIs (id : Z) : PaperWhere :=
  mkPaperWhere None None (Some (RelEvery (mkAuthorWhere (Some id) None None None))) [].

(** The [where] that both resolution loops build from a candidate, and the
    row they create when nothing matches. *)
Definition candidateWhere (a : AuthorInput) : AuthorWhere :=
  mkAuthorWhere None (Some (Equals (inputName a))) (whereValue (inputEmail a))
    (whereValue (inputAffiliation a)).

Definition candidateRow (a : AuthorInput) : AuthorRow :=
  mkAuthor (inputName a) (dataValue (inputEmail a)) (dataValue (inputAffiliation a)).

(** A stored field agrees with a candidate's: an absent candidate field
    agrees with anything, [null] with the absent value, a string with
    itself. *)
Definition fieldAgrees (f : Field) (stored : option string) : Prop :=
  match f with
  | Absent => True
  | Null => stored = None
  | Value s => stored = Some s
  end.

(** Author [id] of the store is one the candidate resolves to. *)
Definition resolvedAs (db : DB) (a : AuthorInput) (id : Z) : Prop :=
  ∃ row, authors db !! id = Some row ∧
         authorName row = inputName a ∧
         fieldAgrees (inputEmail a) (authorEmail row) ∧
         fieldAgrees (inputAffiliation a) (authorAffiliation row).

(** Author [id] is the one the candidate stands for in the store: an author
    the candidate resolves to and, for a candidate that gives both optional
    fields, the one of lowest identifier among them. *)
Definition firstResolvedAs (db : DB) (a : AuthorInput) (id : Z) : Prop :=
  resolvedAs db a id ∧
  (inputEmail a ≠ Absent → inputAffiliation a ≠ Absent →
   ∀ j, resolvedAs db a j → id <= j).

(** [value] occurs in [name] when letter case is ignored. *)
Definition containsInsensitive (name value : string) : bool :=
  includes (lower value) (lower name).

(** Some author linked to [paper] has a name containing [value],
    case-insensitively. *)
Definition hasAuthorNamed (db : DB) (paper : Z) (value : string) : Prop :=
  ∃ a, a ∈ authorsOf db paper ∧ containsInsensitive (authorName a.2) value = true.

(** A listing request that carries only an [author] filter. *)
Definition byAuthor (author : AuthorFilter) : PaperFilters :=
  mkPaperFilters None None author None None.

(** The [where] object [getAllPapers] builds from its filters, and the one
    [getAllAuthors] builds. *)
Definition paperWhereOf (filters : PaperFilters) : PaperWhere :=
  let authorArrayFilter : option RelationFilter * list PaperWhere :=
    match filterAuthor filters with
    | AuthorArray [] => (Some (RelNone anyAuthor), [])
    | AuthorArray names =>
        (None,
         map (fun name => mkPaperWhere None None (Some (RelSome (nameContains name))) [])
           names)
    | AuthorString name => (Some (RelSome (nameContains name)), [])
    | NoAuthorFilter => (None, [])
    end in
  mkPaperWhere (truthyNumber (filterYear filters))
    (option_map (fun v => Contains v true) (truthyString (filterPublishedIn filters)))
    authorArrayFilter.1 authorArrayFilter.2.

Definition authorWhereOf (filters : AuthorFilters) : AuthorWhere :=
  mkAuthorWhere None
    (option_map (fun v => Contains v true) (truthyString (filterName filters)))
    None
    (option_map (fun v => Is (Contains v true)) (truthyString (filterAffiliation filters))).

(** The same filters without [limit] and [offset]: the request for the whole
    filtered set. *)
Definition unpaged (filters : PaperFilters) : PaperFilters :=
  mkPaperFilters (filterYear filters) (filterPublishedIn filters) (filterAuthor filters)
    None None.

Definition unpagedAuthors (filters : AuthorFilters) : AuthorFilters :=
  mkAuthorFilters (filterName filters) (filterAffiliation filters) None None.



(** *** Query strings *)

(** A parameter that is present satisfies [P]. *)
Definition whenPresent {A} (v : option A) (P : A → Prop) : Prop :=
  ∀ x, v = Some x → P x.

(** A [year] that converts to an integer greater than 1900. *)
Definition acceptedYear (v : QueryValue) : Prop :=
  ∃ n, Number v = JInt n ∧ 1900 < n.

(** A parameter given once, as a text that is not empty; as a text that is
    not blank. *)
Definition nonEmptyText (v : QueryValue) : Prop :=
  ∃ s, v = Raw (QString s) ∧ s ≠ "".

Definition nonBlankText (v : QueryValue) : Prop :=
  ∃ s, v = Raw (QString s) ∧ trim s ≠ "".

(** An [author] parameter: one text that is not blank, or several, none of
    them blank. *)
Definition acceptedAuthor (v : QueryValue) : Prop :=
  nonBlankText v ∨
  ∃ names, v = Raw (QArray names) ∧ Forall (fun name => nonBlankText (Raw name)) names.

Definition acceptablePaperQuery (query : Query) : Prop :=
  whenPresent (query !! "year") acceptedYear ∧
  whenPresent (query !! "publishedIn") nonEmptyText ∧
  whenPresent (query !! "author") acceptedAuthor ∧
  is_Some (limitByRule (query !! "limit")) ∧
  is_Some (offsetByRule (query !! "offset")).

Definition acceptableAuthorQuery (query : Query) : Prop :=
  whenPresent (query !! "name") nonBlankText ∧
  whenPresent (query !! "affiliation") nonBlankText ∧
  is_Some (limitByRule (query !! "limit")) ∧
  is_Some (offsetByRule (query !! "offset")).

(** The year a query asks for: the integer its [year] converts to. *)
Definition requestedYear (query : Query) : option Z :=
  match query !! "year" with
  | Some y => match Number y with JInt n => Some n | _ => None end
  | None => None
  end.

(** The query with its [year] replaced by the number it converts to. *)
Definition withYear (query : Query) : Query :=
  match query !! "year" with
  | Some y => <["year" := QNumber (Number y)]> query
  | None => query
  end.

(** *** Listings *)

(** What an [author] filter asks of a paper. *)
Definition authorFilterHolds (db : DB) (paper : Z) (author : AuthorFilter) : Prop :=
  match author with
  | NoAuthorFilter => True
  | AuthorString value => hasAuthorNamed db paper value
  | AuthorArray [] => authorsOf db paper = []
  | AuthorArray names => ∀ value, value ∈ names → hasAuthorNamed db paper value
  end.

(** A paper that the filters select: its year is the one asked for, its
    venue contains the text asked for, its authors are as the [author]
    filter asks; a year of 0 and an empty text ask for nothing. *)
Definition paperSelected (db : DB) (filters : PaperFilters) (paper : Z) (row : PaperRow)
  : Prop :=
  (∀ y, filterYear filters = Some y → y ≠ 0 → paperYear row = y) ∧
  (∀ v, filterPublishedIn filters = Some v → v ≠ "" →
     containsInsensitive (paperPublishedIn row) v = true) ∧
  authorFilterHolds db paper (filterAuthor filters).

(** An author that the filters select: the name contains the text asked
    for, and the author has an affiliation that contains the text asked
    for. *)
Definition authorSelected (filters : AuthorFilters) (row : AuthorRow) : Prop :=
  (∀ v, filterName filters = Some v → v ≠ "" →
     containsInsensitive (authorName row) v = true) ∧
  (∀ v, filterAffiliation filters = Some v → v ≠ "" →
     ∃ stored, authorAffiliation row = Some stored ∧
               containsInsensitive stored v = true).

(** The same filters with another limit and offset. *)
Definition pageOf (filters : PaperFilters) (limit offset : Z) : PaperFilters :=
  mkPaperFilters (filterYear filters) (filterPublishedIn filters) (filterAuthor filters)
    (Some limit) (Some offset).

Definition authorsPageOf (filters : AuthorFilters) (limit offset : Z) : AuthorFilters :=
  mkAuthorFilters (filterName filters) (filterAffiliation filters) (Some limit) (Some offset).

(** *** The store as a whole *)

(** The paper sequence is ahead of every identifier in use. *)
Definition paperIdsBelowSeq (db : DB) : Prop :=
  map_Forall (fun i _ => i < paperSeq db) (papers db).

(** Every link joins an author of the store to a paper of the store. *)
Definition linksResolve (db : DB) : Prop :=
  set_Forall (fun l => is_Some (authors db !! l.1) ∧ is_Some (papers db !! l.2))
    (authorToPaper db).

Definition consistent (db : DB) : Prop :=
  authorIdsBelowSeq db ∧ paperIdsBelowSeq db ∧ linksResolve db.

#[global] Instance paperIdsBelowSeq_dec db : Decision (paperIdsBelowSeq db).
Proof. unfold paperIdsBelowSeq. apply _. Defined.

#[global] Instance linksResolve_dec db : Decision (linksResolve db).
Proof. unfold linksResolve. apply _. Defined.

#[global] Instance consistent_dec db : Decision (consistent db).
Proof. unfold consistent. apply _. Defined.

(** A call of one of the operations that [database.js] exports. *)
Inductive Call : Type :=
| CreatePaper (paperData : PaperData)
| GetAllPapers (filters : PaperFilters)
| GetPaperById (id : Z)
| UpdatePaper (id : Z) (paperData : PaperData)
| DeletePaper (id : Z)
| CreateAuthor (authorData : AuthorInput)
| GetAllAuthors (filters : AuthorFilters)
| GetAuthorById (id : Z)
| UpdateAuthor (id : Z) (authorData : AuthorInput)
| DeleteAuthor (id : Z).

(** The store a call leaves behind, whether it returns or throws. *)
Definition storeAfter (call : Call) (db : DB) : DB :=
  match call with
  | CreatePaper paperData => (createPaper paperData db).2
  | GetAllPapers filters => (getAllPapers filters db).2
  | GetPaperById id => (getPaperById id db).2
  | UpdatePaper id paperData => (updatePaper id paperData db).2
  | DeletePaper id => (deletePaper id db).2
  | CreateAuthor authorData => (createAuthor authorData db).2
  | GetAllAuthors filters => (getAllAuthors filters db).2
  | GetAuthorById id => (getAuthorById id db).2
  | UpdateAuthor id authorData => (updateAuthor id authorData db).2
  | DeleteAuthor id => (deleteAuthor id db).2
  end.

(** The store after a sequence of calls, one after the other. *)
Definition storeAfterAll (calls : list Call) (db : DB) : DB :=
  fold_left (fun d call => storeAfter call d) calls db.

(** A call as the routes make it: a paper is written with at least one
    author, which [validatePaperInput] sees to. *)
Definition asValidated (call : Call) : Prop :=
  match call with
  | CreatePaper paperData | UpdatePaper _ paperData => dataAuthors paperData ≠ []
  | _ => True
  end.

(** What an update does to an optional column, [before] and [after] being
    what is stored: a field that is not given keeps it, [null] empties it,
    a string replaces it. *)
Definition keptOrSet (f : Field) (before after : option string) : Prop :=
  match f with
  | Absent => after = before
  | Null => after = None
  | Value s => after = Some s
  end.

(** *** Routes *)

(** The identifier a path parameter stands for: the integer greater than 0
    that it converts to, if it converts to one. *)
Definition pathId (id : string) : option Z :=
  match StringToNumber id with
  | JInt n => if 0 <? n then Some n else None
  | _ => None
  end.

(** An integer within the range of the 32-bit integer columns of the
    catalogue (identifiers, years) and of the arguments of the client: the
    client refuses a number beyond it before anything reaches the store,
    which its model here does not cover. *)
Definition withinInt (n : Z) : Prop := n <= 2147483647.

(** The store after removing a paper together with its links. *)
Definition withoutPaper (db : DB) (id : Z) : DB :=
  mkDB (authors db) (delete id (papers db))
    (filter (fun l => l.2 ≠ id) (authorToPaper db)) (authorSeq db) (paperSeq db).

(** The answers the routes share. *)
Definition noContent : Response := {| status := 204; body := JsUndefined |}.

Definition internalError : Response :=
  {| status := 500;
     body := JsObj [("error", JsStr "Internal Server Error");
                    ("message", JsStr "An unexpected error occurred")] |}.

Definition missing (entity : string) : Response :=
  {| status := 404; body := JsObj [("error", JsStr (entity +:+ " not found"))] |}.

(** A value of a body read as an optional text: absent, [null] or a
    string. *)
Definition givenAs (v : JsValue) (f : Field) : Prop :=
  match f with
  | Absent => v = JsUndefined
  | Null => v = JsNull
  | Value s => v = JsStr s
  end.

(** The JSON value [author] is the candidate [a] and nothing more: an object
    with the candidate's name, with the email and the affiliation as the
    candidate gives them, and with no other property. *)
Definition authorObject (author : JsValue) (a : AuthorInput) : Prop :=
  ∃ props, author = JsObj props ∧
    Forall (fun kv => kv.1 ∈ ["name"; "email"; "affiliation"]) props ∧
    lookupProp props "name" = JsStr (inputName a) ∧
    givenAs (lookupProp props "email") (inputEmail a) ∧
    givenAs (lookupProp props "affiliation") (inputAffiliation a).

(** The JSON value [body] is the payload [paperData]. *)
Definition paperObject (body : JsValue) (paperData : PaperData) : Prop :=
  getProperty body "title" = JsStr (dataTitle paperData) ∧
  getProperty body "publishedIn" = JsStr (dataPublishedIn paperData) ∧
  getProperty body "year" = JsNum (JInt (dataYear paperData)) ∧
  ∃ authors, getProperty body "authors" = JsArr authors ∧
             Forall2 authorObject authors (dataAuthors paperData).

(** Every author linked to [paper] is [author]: what the guard of
    [deleteAuthor] looks for (a paper without any author passes it). *)
Definition hasNoOtherAuthor (db : DB) (author paper : Z) : Prop :=
  ∀ a, a ∈ authorsOf db paper → a.1 = author.

(** *** The form *)

(** A number of value zero. *)
Definition zeroNumber (v : JsValue) : Prop :=
  ∃ n d, v = JsNum n ∧ fraction n = Some (0, d).

End Notions.

(** ** Sample stores and payloads, after the seed data of the test suite *)
Module Samples.
Import JS Http Prisma Database Notions.

Definition emptyStore : DB := mkDB ∅ ∅ ∅ 1 1.

Definition johnDoe : AuthorInput :=
  mkAuthorInput "John Doe" (Value "john@example.com") (Value "University X").
Definition janeSmith : AuthorInput :=
  mkAuthorInput "Jane Smith" (Value "jane@example.com") (Value "University Y").
Definition aliceJohnson : AuthorInput :=
  mkAuthorInput "Alice Johnson" (Value "alice@example.com") (Value "University A").
Definition bobLee : AuthorInput :=
  mkAuthorInput "Bob Lee" (Value "bob@example.com") (Value "University B").
Definition charlieBrown : AuthorInput :=
  mkAuthorInput "Charlie Brown" (Value "charlie@example.com") (Value "University Z").

Definition paper1 : PaperData :=
  mkPaperData "Machine Learning for Beginners" "ICSE 2023" 2023 [johnDoe; janeSmith].
Definition paper2 : PaperData :=
  mkPaperData "Deep Learning Advances" "NeurIPS 2024" 2024 [aliceJohnson; bobLee].
Definition paper3 : PaperData :=
  mkPaperData "AI Ethics and Fairness" "CVPR 2022" 2022 [johnDoe; charlieBrown].

Definition paperRowOf (p : PaperData) : PaperRow :=
  mkPaper (dataTitle p) (dataPublishedIn p) (dataYear p).

(** The store after the three seed papers have been created in turn. *)
Definition seededStore : DB :=
  mkDB
    (list_to_map [(1, candidateRow johnDoe); (2, candidateRow janeSmith);
                  (3, candidateRow aliceJohnson); (4, candidateRow bobLee);
                  (5, candidateRow charlieBrown)])
    (list_to_map [(1, paperRowOf paper1); (2, paperRowOf paper2); (3, paperRowOf paper3)])
    (list_to_set [(1, 1); (2, 1); (3, 2); (4, 2); (1, 3); (5, 3)])
    6 4.

(** The seeded store with a fourth paper written by John Doe alone. *)
Definition soleAuthorStore : DB :=
  mkDB (authors seededStore)
    (<[4 := mkPaper "Sole Author Paper" "Journal Y" 2024]> (papers seededStore))
    (authorToPaper seededStore ∪ {[ (1, 4) ]})
    6 5.

(** A store holding a paper without any author beside an author without any
    paper. *)
Definition orphanStore : DB :=
  mkDB (list_to_map [(1, candidateRow bobLee)])
    (list_to_map [(1, mkPaper "Untitled Draft" "Workshop W" 2020)])
    ∅ 2 2.

(** A candidate that gives a name only. *)
Definition johnDoeByName : AuthorInput := mkAuthorInput "John Doe" Absent Absent.

Definition danaWhite : AuthorInput := mkAuthorInput "Dana White" Null Absent.

Definition paper4 : PaperData :=
  mkPaperData "Workshop Notes" "Workshop W" 2024 [johnDoeByName].

Definition paper1Revised : PaperData :=
  mkPaperData "Machine Learning for Beginners" "ICSE 2023" 2023 [charlieBrown; danaWhite].

(** [paper1Revised] as a request body gives it. *)
Definition paper1RevisedBody : JsValue :=
  JsObj [("title", JsStr "Machine Learning for Beginners"); ("publishedIn", JsStr "ICSE 2023");
         ("year", JsNum (JInt 2023));
         ("authors",
          JsArr [JsObj [("name", JsStr "Charlie Brown");
                        ("email", JsStr "charlie@example.com");
                        ("affiliation", JsStr "University Z")];
                 JsObj [("name", JsStr "Dana White"); ("email", JsNull)]])].

(** Authors with a name, as [validatePaperInput] asks, and with an email
    that is a number, or with a property of their own. *)
Definition adaWithNumericEmail : JsValue :=
  JsObj [("name", JsStr "Ada Lovelace"); ("email", JsNum (JInt 5))].

Definition adaWithNickname : JsValue :=
  JsObj [("name", JsStr "Ada Lovelace"); ("nickname", JsStr "Ada")].

(** A paper body, complete except that its only author is [author]. *)
Definition bodyWithAuthor (author : JsValue) : JsValue :=
  JsObj [("title", JsStr "Example Paper Title"); ("publishedIn", JsStr "ICSE 2024");
         ("year", JsNum (JInt 2024)); ("authors", JsArr [author])].

(** A paper body of the given year with one well-formed author. *)
Definition bodyOfYear (year : JsValue) : JsValue :=
  JsObj [("title", JsStr "Example Paper Title"); ("publishedIn", JsStr "ICSE 2024");
         ("year", year); ("authors", JsArr [JsObj [("name", JsStr "John Doe")]])].

Definition secondPage : Query :=
  list_to_map [("limit", Raw (QString "5")); ("offset", Raw (QString "20"))].

(** A query with every filter of the paper listing, the venue blank. *)
Definition filteredQuery : Query :=
  list_to_map [("year", Raw (QString "2023")); ("publishedIn", Raw (QString " "));
               ("author", Raw (QArray [QString "john"; QString "smith"]));
               ("limit", Raw (QString "5"))].

Definition authorQuery : Query :=
  list_to_map [("name", Raw (QString "doe")); ("offset", Raw (QString "1"))].

(** The state of the form, its year field emptied. *)
Definition emptiedYearForm : JsValue :=
  JsObj [("title", JsStr "Deep Learning Advances"); ("publishedIn", JsStr "NeurIPS 2024");
         ("year", JsNum (JInt 0)); ("authorIds", JsArr [JsNum (JInt 3)])].

Definition filledForm : list (string * JsValue) :=
  [("title", JsStr "Deep Learning Advances"); ("publishedIn", JsStr "NeurIPS 2024");
   ("year", JsNum (JInt 2025)); ("authorIds", JsArr [JsNum (JInt 3)])].

End Samples.

(** ** Properties *)
Import JS Http Middleware Prisma Database Routes Notions Samples.

(** Closed decidable facts about the sample stores are settled by
    evaluation. *)
Ltac by_evaluation P :=
  first [ apply (bool_decide_eq_true_1 P) | apply (bool_decide_eq_false_1 P) ];
  vm_compute; reflexivity.

Section RowsAsc.
Context {A : Type}.

#[local] Instance idLe_transitive : Transitive (@idLe A).
Proof. intros x y z; unfold idLe; lia. Qed.

#[local] Instance idLe_total : Total (@idLe A).
Proof. intros x y; unfold idLe; lia. Qed.

Lemma elem_of_rowsAsc (table : gmap Z A) k v :
  (k, v) ∈ rowsAsc table ↔ table !! k = Some v.
Proof.
  unfold rowsAsc. rewrite merge_sort_Permutation. apply elem_of_map_to_list.
Qed.

Lemma rowsAsc_sorted (table : gmap Z A) : StronglySorted idLe (rowsAsc table).
Proof. apply StronglySorted_merge_sort; apply _. Qed.


(** The first row of a sorted list that passes a test has the least
    identifier among those that pass. *)
Lemma head_filter_least (test : Z * A → bool) (rows : list (Z * A)) x :
  StronglySorted idLe rows →
  head (List.filter test rows) = Some x →
  x ∈ rows ∧ test x = true ∧ ∀ y, y ∈ rows → test y = true → x.1 <= y.1.
Proof.
  induction 1 as [|r rows Hs IH Hall]; simpl; [discriminate|].
  destruct (test r) eqn:Hr; simpl.
  - intros [= <-]. split; [left|]. split; [done|].
    intros y Hy _. apply elem_of_cons in Hy as [->|Hy]; [lia|].
    rewrite List.Forall_forall in Hall. apply Hall, list_elem_of_In, Hy.
  - intros Hx. destruct (IH Hx) as (Hin & Ht & Hmin).
    split; [by right|]. split; [done|].
    intros y Hy Hty. apply elem_of_cons in Hy as [->|Hy]; [congruence|].
    by apply Hmin.
Qed.

Lemma head_filter_None (test : Z * A → bool) (rows : list (Z * A)) :
  head (List.filter test rows) = None ↔ ∀ y, y ∈ rows → test y = false.
Proof.
  induction rows as [|r rows IH]; simpl.
  - split; [intros _ y Hy; inversion Hy|done].
  - destruct (test r) eqn:Hr; simpl.
    + split; [discriminate|]. intros H. specialize (H r (list_elem_of_here _ _)). congruence.
    + rewrite IH. split.
      * intros H y Hy. apply elem_of_cons in Hy as [->|Hy]; auto.
      * intros H y Hy. apply H. by right.
Qed.

End RowsAsc.

Lemma authorsOf_elem (db : DB) paper a :
  a ∈ authorsOf db paper ↔ authors db !! a.1 = Some a.2 ∧ (a.1, paper) ∈ authorToPaper db.
Proof.
  unfold authorsOf. rewrite list_elem_of_In, List.filter_In, <- list_elem_of_In.
  destruct a as [k v]; simpl. rewrite elem_of_rowsAsc, bool_decide_eq_true. done.
Qed.




Lemma everyAuthorIs_matches (db : DB) id p :
  paperMatches db (everyAuthorIs id) p = true ↔ ∀ a, a ∈ authorsOf db p.1 → a.1 = id.
Proof.
  simpl. rewrite !andb_true_r, forallb_forall. split.
  - intros H a Ha. apply list_elem_of_In, H in Ha.
    unfold authorMatches in Ha; simpl in Ha. rewrite !andb_true_r in Ha. lia.
  - intros H a Ha. apply list_elem_of_In, H in Ha.
    unfold authorMatches; simpl. rewrite !andb_true_r. lia.
Qed.

Lemma deleteAuthor_unfold (id : Z) (db : DB) :
  deleteAuthor id db =
  match List.filter (paperMatches db (everyAuthorIs id)) (rowsAsc (papers db)) with
  | [] => author_delete id db
  | _ :: _ => (Throw (Error SOLE_AUTHOR_MESSAGE), db)
  end.
Proof.
  unfold deleteAuthor, bind, paper_findManyRows, slice; simpl.
  fold (everyAuthorIs id).
  destruct (List.filter _ _) as [|p rest]; reflexivity.
Qed.

(** The guard refuses as soon as some paper has all its linked authors equal
    to [id]. *)
Lemma deleteAuthor_refuses (db : DB) id paper row :
  papers db !! paper = Some row →
  (∀ a, a ∈ authorsOf db paper → a.1 = id) →
  deleteAuthor id db = (Throw (Error SOLE_AUTHOR_MESSAGE), db).
Proof.
  intros Hp Hall. rewrite deleteAuthor_unfold.
  destruct (List.filter _ _) as [|p rest] eqn:Hf; [|done].
  exfalso.
  assert (Hin : (paper, row) ∈ List.filter (paperMatches db (everyAuthorIs id)) (rowsAsc (papers db))).
  { apply list_elem_of_In, List.filter_In. split.
    - apply list_elem_of_In, elem_of_rowsAsc, Hp.
    - by apply everyAuthorIs_matches. }
  rewrite Hf in Hin. inversion Hin.
Qed.

Lemma deleteAuthor_proceeds (db : DB) id :
  (∀ paper row, papers db !! paper = Some row →
     ∃ a, a ∈ authorsOf db paper ∧ a.1 ≠ id) →
  deleteAuthor id db = author_delete id db.
Proof.
  intros Hother. rewrite deleteAuthor_unfold.
  destruct (List.filter _ _) as [|[paper row] rest] eqn:Hf; [done|].
  exfalso.
  assert (Hin : (paper, row) ∈ List.filter (paperMatches db (everyAuthorIs id)) (rowsAsc (papers db)))
    by (rewrite Hf; left).
  apply list_elem_of_In, List.filter_In in Hin as [Hin Hm].
  apply list_elem_of_In, elem_of_rowsAsc in Hin.
  destruct (Hother _ _ Hin) as (a & Ha & Hne).
  apply Hne. by eapply (proj1 (everyAuthorIs_matches db id (paper, row))).
Qed.

Lemma seededStore_created :
  (createPaper paper3 (createPaper paper2 (createPaper paper1 emptyStore).2).2).2 = seededStore.
Proof. vm_compute. reflexivity. Qed.

(** *** Deleting a paper *)

(** C8. For every store and every existing paper identifier, [deletePaper]
    succeeds and removes that paper and its own links only: the author table
    is unchanged, and a link of any author to any other paper is in the store
    afterwards exactly when it was before. *)
Theorem deletePaper_keeps_authors_and_other_links (db : DB) (id : Z) :
  is_Some (papers db !! id) →
  ∃ db', deletePaper id db = (Return tt, db') ∧
    authors db' = authors db ∧
    papers db' = delete id (papers db) ∧
    (∀ a p, p ≠ id → ((a, p) ∈ authorToPaper db' ↔ (a, p) ∈ authorToPaper db)) ∧
    (∀ a, (a, id) ∉ authorToPaper db') ∧
    (∀ p, p ≠ id → authorsOf db' p = authorsOf db p).
Proof.
  intros [row Hrow]. unfold deletePaper, paper_delete. rewrite Hrow.
  eexists. split; [reflexivity|]. simpl.
  assert (Hlinks : ∀ a p, p ≠ id →
            ((a, p) ∈ filter (λ l : Z * Z, l.2 ≠ id) (authorToPaper db)
             ↔ (a, p) ∈ authorToPaper db)).
  { intros a p Hne. rewrite elem_of_filter. simpl. tauto. }
  repeat split; try done.
  - apply Hlinks; assumption.
  - apply Hlinks; assumption.
  - intros a. rewrite elem_of_filter. simpl. tauto.
  - intros p Hne. unfold authorsOf; simpl.
    apply List.filter_ext. intros a. apply bool_decide_ext, Hlinks, Hne.
Qed.

Lemma deletePaper_keeps_authors_witness :
  ∃ db', deletePaper 1 seededStore = (Return tt, db') ∧
    authors db' = authors seededStore ∧
    papers db' = delete 1 (papers seededStore) ∧
    (∀ a p, p ≠ 1 → ((a, p) ∈ authorToPaper db' ↔ (a, p) ∈ authorToPaper seededStore)) ∧
    (∀ a, (a, 1) ∉ authorToPaper db') ∧
    (∀ p, p ≠ 1 → authorsOf db' p = authorsOf seededStore p).
Proof.
  apply (deletePaper_keeps_authors_and_other_links seededStore 1).
  exists (paperRowOf paper1). reflexivity.
Defined.

(** *** Deleting an author *)

(** C10. In every store that holds a paper with no linked author,
    [deleteAuthor] refuses every identifier, linked to that paper or not,
    with the sole-author error and leaves the store as it is: [every] holds
    vacuously of the authorless paper. *)
Theorem deleteAuthor_refused_by_authorless_paper (db : DB) (paper id : Z) :
  is_Some (papers db !! paper) →
  authorsOf db paper = [] →
  deleteAuthor id db = (Throw (Error SOLE_AUTHOR_MESSAGE), db) ∧
  deleteAuthorHandler (JInt id) db = (constraintResponse, db).
Proof.
  intros [row Hrow] Hnone.
  assert (H : deleteAuthor id db = (Throw (Error SOLE_AUTHOR_MESSAGE), db)).
  { eapply deleteAuthor_refuses; [exact Hrow|].
    intros a Ha. rewrite Hnone in Ha. inversion Ha. }
  split; [exact H|].
  unfold deleteAuthorHandler. rewrite H. reflexivity.
Qed.

Lemma deleteAuthor_refused_by_authorless_paper_witness :
  deleteAuthor 7 orphanStore = (Throw (Error SOLE_AUTHOR_MESSAGE), orphanStore) ∧
  deleteAuthorHandler (JInt 7) orphanStore = (constraintResponse, orphanStore).
Proof.
  apply (deleteAuthor_refused_by_authorless_paper orphanStore 1 7).
  - exists (mkPaper "Untitled Draft" "Workshop W" 2020). reflexivity.
  - reflexivity.
Defined.




(** *** Resolving the authors of a paper *)

Lemma field_agrees (f : Field) (stored : option string) :
  holds (whereValue f) (fun g => nullableMatches g stored) = true ↔ fieldAgrees f stored.
Proof.
  destruct f as [| |s], stored as [t|]; simpl; try done.
  rewrite String.eqb_eq. split; congruence.
Qed.

Lemma authorMatches_candidate (a : AuthorInput) (i : Z) (row : AuthorRow) :
  authorMatches (candidateWhere a) (i, row) = true ↔
  authorName row = inputName a ∧
  fieldAgrees (inputEmail a) (authorEmail row) ∧
  fieldAgrees (inputAffiliation a) (authorAffiliation row).
Proof.
  unfold authorMatches, candidateWhere; simpl.
  rewrite !andb_true_iff, !field_agrees, String.eqb_eq. tauto.
Qed.

Lemma candidateRow_matches (a : AuthorInput) (i : Z) :
  authorMatches (candidateWhere a) (i, candidateRow a) = true.
Proof.
  apply authorMatches_candidate. unfold candidateRow; simpl.
  split; [done|]. split; [destruct (inputEmail a)|destruct (inputAffiliation a)]; done.
Qed.

(** One turn of the loop of [createPaper]. *)
Lemma createPaper_authors_step (author : AuthorInput) rest acc (db : DB) :
  createPaper_authors (author :: rest) acc db =
  match head (List.filter (authorMatches (candidateWhere author)) (rowsAsc (authors db))) with
  | Some a => createPaper_authors rest (acc ++ [a.1]) db
  | None =>
      match authors db !! authorSeq db with
      | Some _ =>
          (Throw uniqueConstraintFailed,
           mkDB (authors db) (papers db) (authorToPaper db) (authorSeq db + 1) (paperSeq db))
      | None =>
          createPaper_authors rest (acc ++ [authorSeq db])
            (mkDB (<[authorSeq db := candidateRow author]> (authors db)) (papers db)
               (authorToPaper db) (authorSeq db + 1) (paperSeq db))
      end
  end.
Proof.
  simpl. unfold bind, author_findFirst. fold (candidateWhere author).
  destruct (head _) as [a|]; [reflexivity|].
  unfold author_create. fold (candidateRow author).
  destruct (authors db !! authorSeq db); reflexivity.
Qed.

(** The loops of [updatePaper] and [createPaper] are the same function. *)
Lemma updatePaper_authors_eq (authors : list AuthorInput) acc (db : DB) :
  updatePaper_authors authors acc db = createPaper_authors authors acc db.
Proof.
  revert acc db. induction authors as [|a rest IH]; intros acc db; [reflexivity|].
  simpl. unfold bind.
  destruct (author_findFirst _ db) as [[found|e] db1]; [|reflexivity].
  destruct found as [x|].
  - unfold ret. apply IH.
  - destruct (author_create _ db1) as [[x|e] db2]; [apply IH|reflexivity].
Qed.

Lemma resolvedAs_weaken (db db' : DB) (a : AuthorInput) (i : Z) :
  authors db ⊆ authors db' → resolvedAs db a i → resolvedAs db' a i.
Proof.
  intros Hsub (row & Hrow & H). exists row. split; [|exact H].
  eapply lookup_weaken; eassumption.
Qed.

(** When the candidate gives both optional fields (a string or [null]), the
    rows it resolves to are those equal to it in all three fields. *)
Lemma given_field_agrees (f : Field) (stored : option string) :
  f ≠ Absent → (fieldAgrees f stored ↔ stored = dataValue f).
Proof. destruct f; simpl; intros Hf; done. Qed.

Lemma authorMatches_exact (a : AuthorInput) (i : Z) (row : AuthorRow) :
  inputEmail a ≠ Absent → inputAffiliation a ≠ Absent →
  (authorMatches (candidateWhere a) (i, row) = true ↔ row = candidateRow a).
Proof.
  intros He Ha. rewrite authorMatches_candidate.
  rewrite (given_field_agrees _ _ He), (given_field_agrees _ _ Ha).
  destruct row as [n e f]; unfold candidateRow; simpl. split.
  - intros (-> & -> & ->). done.
  - intros [= -> -> ->]. done.
Qed.

(** X2. The identity rule for candidates that give both optional fields.  In a
    store whose author sequence is ahead of the identifiers in use, either
    loop resolves such a candidate to an author whose name, email and
    affiliation are exactly the candidate's: the one with the least
    identifier when the store has any, the store staying as it is, and
    otherwise a new author with exactly these fields under the next
    identifier of the sequence.  Resolving the same candidate again gives the
    same identifier and creates nothing; a candidate that differs in a field
    never resolves to that author. *)
Theorem resolver_exact_match (db : DB) (a : AuthorInput) :
  authorIdsBelowSeq db →
  inputEmail a ≠ Absent → inputAffiliation a ≠ Absent →
  ∃ i db',
    createPaper_authors [a] [] db = (Return [i], db') ∧
    updatePaper_authors [a] [] db = (Return [i], db') ∧
    authors db' !! i = Some (candidateRow a) ∧
    ((∃ j, authors db !! j = Some (candidateRow a)) →
       db' = db ∧ ∀ j, authors db !! j = Some (candidateRow a) → i <= j) ∧
    ((∀ j, authors db !! j ≠ Some (candidateRow a)) →
       i = authorSeq db ∧ authors db !! i = None ∧
       authors db' = <[i := candidateRow a]> (authors db)) ∧
    createPaper_authors [a] [] db' = (Return [i], db') ∧
    (∀ b i' db'', candidateRow b ≠ candidateRow a →
       inputEmail b ≠ Absent → inputAffiliation b ≠ Absent →
       createPaper_authors [b] [] db' = (Return [i'], db'') → i' ≠ i).
Proof.
  intros Hwf He Ha.
  assert (Hfound : ∀ (d : DB) i row,
            head (List.filter (authorMatches (candidateWhere a)) (rowsAsc (authors d)))
              = Some (i, row) →
            createPaper_authors [a] [] d = (Return [i], d) ∧
            authors d !! i = Some (candidateRow a) ∧
            ∀ j, authors d !! j = Some (candidateRow a) → i <= j).
  { intros d i row Hhead. rewrite createPaper_authors_step, Hhead.
    apply head_filter_least in Hhead as (Hin & Hm & Hmin); [|apply rowsAsc_sorted].
    apply elem_of_rowsAsc in Hin. apply authorMatches_exact in Hm; [|done..]. subst row.
    repeat split; try done.
    intros j Hj. apply (Hmin (j, candidateRow a)).
    - by apply elem_of_rowsAsc.
    - by apply authorMatches_exact. }
  assert (Hother : ∀ (d : DB) i b i' d'',
            authors d !! i = Some (candidateRow a) → authorIdsBelowSeq d →
            candidateRow b ≠ candidateRow a →
            inputEmail b ≠ Absent → inputAffiliation b ≠ Absent →
            createPaper_authors [b] [] d = (Return [i'], d'') → i' ≠ i).
  { intros d i b i' d'' Hi Hwfd Hne Hbe Hba Hrun ->.
    rewrite createPaper_authors_step in Hrun.
    destruct (head _) as [[k row]|] eqn:Hhead.
    - simpl in Hrun. injection Hrun as -> _.
      apply head_filter_least in Hhead as (Hin & Hm & _); [|apply rowsAsc_sorted].
      apply elem_of_rowsAsc in Hin. apply authorMatches_exact in Hm; [|done..].
      simpl in Hin. congruence.
    - destruct (authors d !! authorSeq d) eqn:Hseq; [discriminate|].
      simpl in Hrun. injection Hrun as Hk _. rewrite <- Hk in Hi. congruence. }
  destruct (head (List.filter (authorMatches (candidateWhere a)) (rowsAsc (authors db))))
    as [[i row]|] eqn:Hhead.
  - destruct (Hfound db i row Hhead) as (Hrun & Hrow & Hmin).
    exists i, db.
    split; [done|]. split; [exact (eq_trans (updatePaper_authors_eq _ _ _) Hrun)|].
    split; [done|]. split; [done|]. split; [|split; [done|]].
    + intros Hno. exfalso. by apply (Hno i).
    + intros b i' db'' Hne Hbe Hba Hrun'. by eapply (Hother db i b).
  - assert (Hnone : ∀ j, authors db !! j ≠ Some (candidateRow a)).
    { intros j Hj. apply head_filter_None with (y := (j, candidateRow a)) in Hhead.
      - by rewrite (proj2 (authorMatches_exact a j (candidateRow a) He Ha)) in Hhead.
      - by apply elem_of_rowsAsc. }
    assert (Hfree : authors db !! authorSeq db = None).
    { destruct (authors db !! authorSeq db) as [row|] eqn:Hrow; [|done].
      apply Hwf in Hrow. simpl in Hrow. lia. }
    set (db1 := mkDB (<[authorSeq db := candidateRow a]> (authors db)) (papers db)
                  (authorToPaper db) (authorSeq db + 1) (paperSeq db)).
    assert (Hwf1 : authorIdsBelowSeq db1).
    { intros i row Hrow. simpl in *. apply lookup_insert_Some in Hrow as [[<- _]|[_ Hrow]].
      - lia.
      - apply Hwf in Hrow. simpl in Hrow. lia. }
    assert (Hrun : createPaper_authors [a] [] db = (Return [authorSeq db], db1)).
    { by rewrite createPaper_authors_step, Hhead, Hfree. }
    assert (Hrow1 : authors db1 !! authorSeq db = Some (candidateRow a))
      by apply lookup_insert_eq.
    exists (authorSeq db), db1.
    split; [done|]. split; [exact (eq_trans (updatePaper_authors_eq _ _ _) Hrun)|].
    split; [done|]. split; [|split; [done|split]].
    + intros (j & Hj). exfalso. by apply (Hnone j).
    + destruct (head (List.filter (authorMatches (candidateWhere a)) (rowsAsc (authors db1))))
        as [[k row]|] eqn:Hhead1.
      * destruct (Hfound db1 k row Hhead1) as (Hrun1 & Hk & _).
        assert (k = authorSeq db); [|by subst k].
        simpl in Hk. apply lookup_insert_Some in Hk as [[<- _]|[_ Hk]]; [done|].
        exfalso. by apply (Hnone k).
      * exfalso. apply head_filter_None with (y := (authorSeq db, candidateRow a)) in Hhead1.
        -- by rewrite (proj2 (authorMatches_exact a _ (candidateRow a) He Ha)) in Hhead1.
        -- by apply elem_of_rowsAsc.
    + intros b i' db'' Hne Hbe Hba Hrun'. by eapply (Hother db1 (authorSeq db) b).
Qed.

Lemma resolver_exact_match_witness :
  ∃ i db',
    createPaper_authors [charlieBrown] [] seededStore = (Return [i], db') ∧
    updatePaper_authors [charlieBrown] [] seededStore = (Return [i], db') ∧
    authors db' !! i = Some (candidateRow charlieBrown) ∧
    ((∃ j, authors seededStore !! j = Some (candidateRow charlieBrown)) →
       db' = seededStore ∧
       ∀ j, authors seededStore !! j = Some (candidateRow charlieBrown) → i <= j) ∧
    ((∀ j, authors seededStore !! j ≠ Some (candidateRow charlieBrown)) →
       i = authorSeq seededStore ∧ authors seededStore !! i = None ∧
       authors db' = <[i := candidateRow charlieBrown]> (authors seededStore)) ∧
    createPaper_authors [charlieBrown] [] db' = (Return [i], db') ∧
    (∀ b i' db'', candidateRow b ≠ candidateRow charlieBrown →
       inputEmail b ≠ Absent → inputAffiliation b ≠ Absent →
       createPaper_authors [b] [] db' = (Return [i'], db'') → i' ≠ i).
Proof.
  apply (resolver_exact_match seededStore charlieBrown).
  - by_evaluation (authorIdsBelowSeq seededStore).
  - discriminate.
  - discriminate.
Defined.

(** *** Updating a paper *)

Lemma allExist_resolved (db : DB) (inputs : list AuthorInput) (ids : list Z) :
  Forall2 (resolvedAs db) inputs ids → allExist db ids = true.
Proof.
  induction 1 as [|a i inputs ids (row & Hrow & _) _ IH]; simpl; [done|].
  rewrite IH, andb_true_r. apply bool_decide_eq_true. by eexists.
Qed.

Lemma elem_of_connectLinks (paper : Z) (ids : list Z) a p :
  (a, p) ∈ connectLinks paper ids ↔ p = paper ∧ a ∈ ids.
Proof.
  unfold connectLinks. rewrite elem_of_list_to_set, list_elem_of_fmap. split.
  - intros (x & [= -> ->] & Hx). done.
  - intros [-> Ha]. eauto.
Qed.

(** The loop, with what pins the identifiers it returns: each is the least
    among the authors its candidate resolves to in the store the loop
    leaves, and every author the loop has added stands at an identifier it
    returns, not below the sequence it started from, as the row of a
    candidate that resolved to nothing before. *)
Lemma createPaper_authors_least (inputs : list AuthorInput) acc (db : DB) :
  authorIdsBelowSeq db →
  ∃ ids db',
    createPaper_authors inputs acc db = (Return (acc ++ ids), db') ∧
    authorIdsBelowSeq db' ∧
    authors db ⊆ authors db' ∧
    papers db' = papers db ∧
    authorToPaper db' = authorToPaper db ∧
    paperSeq db' = paperSeq db ∧
    Forall2 (fun a i => resolvedAs db' a i ∧ ∀ j, resolvedAs db' a j → i <= j) inputs ids ∧
    (∀ i row, authors db' !! i = Some row → authors db !! i = None →
       authorSeq db <= i ∧ i ∈ ids ∧
       ∃ a, a ∈ inputs ∧ row = candidateRow a ∧ ∀ j, ¬ resolvedAs db a j).
Proof.
  revert acc db. induction inputs as [|a rest IH]; intros acc db Hwf.
  - exists [], db. rewrite app_nil_r.
    split; [done|]. split; [done|]. split; [done|]. split; [done|]. split; [done|].
    split; [done|]. split; [constructor|].
    intros i row Hrow Hnone. congruence.
  - rewrite createPaper_authors_step.
    destruct (head (List.filter (authorMatches (candidateWhere a)) (rowsAsc (authors db))))
      as [[i row]|] eqn:Hhead.
    + apply head_filter_least in Hhead as (Hin & Hm & Hmin); [|apply rowsAsc_sorted].
      apply elem_of_rowsAsc in Hin. simpl in Hin.
      destruct (IH (acc ++ [i]) db Hwf)
        as (ids & db' & Hrun & Hwf' & Hsub & Hp & Hl & Hs & Hres & Hnew).
      exists (i :: ids), db'. simpl in Hrun. rewrite <- app_assoc in Hrun.
      split; [done|]. split; [done|]. split; [done|]. split; [done|]. split; [done|].
      split; [done|]. split.
      * constructor; [|done]. split.
        -- apply (resolvedAs_weaken db); [done|].
           exists row. split; [done|]. by apply authorMatches_candidate in Hm.
        -- intros j (w & Hj & Hw). destruct (authors db !! j) as [w'|] eqn:Hdbj.
           ++ assert (authors db' !! j = Some w') as Hj'
                by (eapply lookup_weaken; eassumption).
              assert (w' = w) as -> by congruence.
              apply (Hmin (j, w)); [by apply elem_of_rowsAsc|].
              by apply authorMatches_candidate.
           ++ destruct (Hnew j w Hj Hdbj) as [Hge _].
              apply Hwf in Hin. simpl in Hin. lia.
      * intros k r Hk Hnone.
        destruct (Hnew k r Hk Hnone) as (Hge & Hmem & b & Hb & Hr & Hno).
        split; [done|]. split; [by apply elem_of_cons; right|].
        exists b. split; [by apply elem_of_cons; right|done].
    + assert (Hfree : authors db !! authorSeq db = None).
      { destruct (authors db !! authorSeq db) as [row|] eqn:Hrow; [|done].
        apply Hwf in Hrow. simpl in Hrow. lia. }
      rewrite Hfree.
      set (db1 := mkDB (<[authorSeq db := candidateRow a]> (authors db)) (papers db)
                    (authorToPaper db) (authorSeq db + 1) (paperSeq db)).
      assert (Hwf1 : authorIdsBelowSeq db1).
      { intros i row Hrow. simpl in *. apply lookup_insert_Some in Hrow as [[<- _]|[_ Hrow]].
        - lia.
        - apply Hwf in Hrow. simpl in Hrow. lia. }
      destruct (IH (acc ++ [authorSeq db]) db1 Hwf1)
        as (ids & db' & Hrun & Hwf' & Hsub & Hp & Hl & Hs & Hres & Hnew).
      exists (authorSeq db :: ids), db'. rewrite <- app_assoc in Hrun.
      assert (Hsub1 : authors db ⊆ authors db1) by (by apply insert_subseteq).
      assert (Hrow1 : authors db1 !! authorSeq db = Some (candidateRow a))
        by apply lookup_insert_eq.
      assert (Hunmatched : ∀ j, ¬ resolvedAs db a j).
      { intros j (w & Hj & Hw).
        apply head_filter_None with (y := (j, w)) in Hhead; [|by apply elem_of_rowsAsc].
        apply (authorMatches_candidate a j w) in Hw. congruence. }
      split; [done|]. split; [done|]. split; [by transitivity (authors db1)|].
      split; [done|]. split; [done|]. split; [done|]. split.
      * constructor; [|done]. split.
        -- apply (resolvedAs_weaken db1); [done|].
           exists (candidateRow a). split; [done|].
           apply (authorMatches_candidate a (authorSeq db)), candidateRow_matches.
        -- intros j (w & Hj & Hw).
           destruct (decide (j = authorSeq db)) as [->|Hne]; [lia|].
           destruct (authors db1 !! j) as [w'|] eqn:Hj1.
           ++ exfalso. apply (Hunmatched j). exists w.
              assert (authors db' !! j = Some w') as Hj'
                by (eapply lookup_weaken; eassumption).
              assert (w' = w) as -> by congruence.
              simpl in Hj1. rewrite lookup_insert_ne in Hj1 by done. done.
           ++ destruct (Hnew j w Hj Hj1) as [Hge _]. simpl in Hge. lia.
      * intros k r Hk Hnone. destruct (decide (k = authorSeq db)) as [->|Hne].
        -- assert (r = candidateRow a) as ->.
           { pose proof (lookup_weaken _ _ _ _ Hrow1 Hsub) as Hk'. congruence. }
           split; [lia|]. split; [by apply elem_of_cons; left|].
           exists a. split; [by apply elem_of_cons; left|done].
        -- assert (Hnone1 : authors db1 !! k = None)
             by (simpl; by rewrite lookup_insert_ne).
           destruct (Hnew k r Hk Hnone1) as (Hge & Hmem & b & Hb & Hr & Hno).
           simpl in Hge. split; [lia|]. split; [by apply elem_of_cons; right|].
           exists b. split; [by apply elem_of_cons; right|]. split; [done|].
           intros j Hres'. apply (Hno j). by apply (resolvedAs_weaken db).
Qed.

(** *** The payload as it arrives *)

Lemma hasOnly_Forall (fields : list string) (props : list (string * JsValue)) :
  Forall (fun kv => kv.1 ∈ fields) props → hasOnly fields props = true.
Proof.
  induction 1 as [|kv rest Hkv _ IH]; [reflexivity|].
  simpl. rewrite IH, andb_true_r. by apply bool_decide_eq_true.
Qed.

Lemma hasOnly_more (fields fields' : list string) (props : list (string * JsValue)) :
  fields ⊆ fields' → hasOnly fields props = true → hasOnly fields' props = true.
Proof.
  intros Hsub. unfold hasOnly. rewrite !forallb_forall. intros H kv Hin.
  apply bool_decide_eq_true, Hsub. apply (bool_decide_eq_true_1 _ (H kv Hin)).
Qed.

Lemma nullableStringWhere_given (v : JsValue) (f : Field) :
  givenAs v f → nullableStringWhere v = Some (Return f).
Proof. destruct f; simpl; intros ->; reflexivity. Qed.

Lemma nullableStringInput_of_given (v : JsValue) (f : Field) :
  givenAs v f → nullableStringInput v = Return f.
Proof. destruct f; simpl; intros ->; reflexivity. Qed.

(** For an author object that is a candidate and nothing more, the [where]
    and the [data] of the loop are those of the candidate. *)
Lemma findFirstWhere_object (author : JsValue) (a : AuthorInput) :
  authorObject author a → findFirstWhere author = Some (Return (candidateWhere a)).
Proof.
  intros (props & -> & _ & Hname & Hemail & Haff).
  unfold findFirstWhere. cbn [getProperty].
  rewrite Hname, (nullableStringWhere_given _ _ Hemail), (nullableStringWhere_given _ _ Haff).
  reflexivity.
Qed.

Lemma authorCreateData_object (author : JsValue) (a : AuthorInput) :
  authorObject author a → authorCreateData author = Some (Return (candidateRow a)).
Proof.
  intros (props & -> & Honly & Hname & Hemail & Haff).
  apply hasOnly_Forall in Honly.
  unfold authorCreateData.
  rewrite (hasOnly_more ["name"; "email"; "affiliation"] AUTHOR_FIELDS props), Honly; [|set_solver|done].
  rewrite Hname, (nullableStringInput_of_given _ _ Hemail), (nullableStringInput_of_given _ _ Haff).
  reflexivity.
Qed.

(** On such objects the loop over the payload as it arrives is the loop over
    the candidates, and [updatePaper] likewise. *)
Lemma updatePaper_authors_raw_typed (authors : list JsValue) (inputs : list AuthorInput)
    acc (db : DB) :
  Forall2 authorObject authors inputs →
  updatePaper_authors_raw authors acc db = Some (updatePaper_authors inputs acc db).
Proof.
  intros Hall. revert acc db.
  induction Hall as [|author a authors inputs Ha _ IH]; intros acc db; [reflexivity|].
  cbn [updatePaper_authors_raw updatePaper_authors].
  rewrite (findFirstWhere_object _ _ Ha), (authorCreateData_object _ _ Ha).
  unfold bind, author_findFirst, candidateWhere, candidateRow.
  destruct (head _) as [found|]; [apply IH|].
  destruct (author_create _ db) as [[created|e] db2]; [apply IH|reflexivity].
Qed.

Lemma updatePaper_raw_typed (id : Z) (body : JsValue) (paperData : PaperData) (db : DB) :
  paperObject body paperData →
  updatePaper_raw id body db = Some (updatePaper id paperData db).
Proof.
  intros (Htitle & Hvenue & Hyear & authors & Hauthors & Hall).
  unfold updatePaper_raw, updatePaper, bind.
  rewrite Hauthors, (updatePaper_authors_raw_typed _ _ _ _ Hall), Htitle, Hvenue, Hyear.
  destruct (updatePaper_authors _ _ db) as [[ids|e] db1]; reflexivity.
Qed.

(** C4, as stated, fails on lists that pass the validation.  An author with
    a name and a number as email passes [validatePaperInput], which checks
    names only; [updatePaper] hands the email to [findFirst], the client
    refuses it, and paper 1 of the seeded store keeps the two authors it
    had, neither of whom bears the name of the list.  An author with a
    property of its own passes as well and is handed whole to [create],
    which refuses it, no author of that name being stored: again nothing is
    replaced. *)
Lemma updatePaper_replaces_authors_claim_counterexample :
  is_Some (papers seededStore !! 1) ∧
  (authorsOf seededStore 1).*1 = [1; 2] ∧
  map_Forall (fun _ row => authorName row ≠ "Ada Lovelace") (authors seededStore) ∧
  validatePaperInput (bodyWithAuthor adaWithNumericEmail) = Return [] ∧
  (∃ message,
     updatePaper_raw 1 (bodyWithAuthor adaWithNumericEmail) seededStore
     = Some (Throw (PrismaClientValidationError message), seededStore)) ∧
  validatePaperInput (bodyWithAuthor adaWithNickname) = Return [] ∧
  (∃ message,
     updatePaper_raw 1 (bodyWithAuthor adaWithNickname) seededStore
     = Some (Throw (PrismaClientValidationError message), seededStore)).
Proof.
  split; [eexists; reflexivity|].
  split; [vm_compute; reflexivity|].
  split; [by_evaluation
            (map_Forall (fun _ row => authorName row ≠ "Ada Lovelace") (authors seededStore))|].
  split; [vm_compute; reflexivity|].
  split; [eexists; vm_compute; reflexivity|].
  split; [vm_compute; reflexivity|].
  eexists; vm_compute; reflexivity.
Qed.

(** C4, amended.  The replacement list is one of candidates: authors with a
    string name and with an email and an affiliation that are each a string,
    [null] or absent; on a JSON body that gives such authors and no other
    property of theirs, [updatePaper] on the payload as it arrives is
    [updatePaper] on the candidates.  For every existing paper and every
    such list, in a store whose author sequence is ahead of the identifiers
    in use, [updatePaper] succeeds, and afterwards the paper is linked to
    exactly the authors resolved from the new list, whatever it was linked to
    before: [ids] are the identifiers the resolution loop returns, one per
    candidate, each of a stored author the candidate resolves to and, for a
    candidate that gives both optional fields, the one of lowest identifier
    among them; the authors stored before are kept, and an author is created
    only as the row of a candidate, at an identifier of [ids], and never as
    the equal of an author stored before; a link to the paper is in the
    store exactly for the members of [ids], the returned paper carries
    exactly these authors, and the links of every other paper are
    untouched. *)
Theorem updatePaper_replaces_authors (db : DB) (id : Z) (paperData : PaperData) :
  authorIdsBelowSeq db →
  is_Some (papers db !! id) →
  ∃ ids db1 updated db2,
    updatePaper_authors (dataAuthors paperData) [] db = (Return ids, db1) ∧
    updatePaper id paperData db = (Return updated, db2) ∧
    (∀ body, paperObject body paperData →
       updatePaper_raw id body db = Some (Return updated, db2)) ∧
    Forall2 (firstResolvedAs db2) (dataAuthors paperData) ids ∧
    authors db ⊆ authors db2 ∧
    (∀ i row, authors db2 !! i = Some row → authors db !! i = None →
       i ∈ ids ∧ (∃ a, a ∈ dataAuthors paperData ∧ row = candidateRow a) ∧
       ∀ j, authors db !! j ≠ Some row) ∧
    (∀ a, (a, id) ∈ authorToPaper db2 ↔ a ∈ ids) ∧
    (∀ a, a ∈ (paperAuthors updated).*1 ↔ a ∈ ids) ∧
    (∀ a p, p ≠ id → ((a, p) ∈ authorToPaper db2 ↔ (a, p) ∈ authorToPaper db)).
Proof.
  intros Hwf [row Hrow].
  destruct (createPaper_authors_least (dataAuthors paperData) [] db Hwf)
    as (ids & db1 & Hrun & _ & Hsub & Hp & Hl & _ & Hleast & Hnew).
  simpl in Hrun.
  assert (Hres : Forall2 (resolvedAs db1) (dataAuthors paperData) ids).
  { eapply Forall2_impl; [exact Hleast|]. by intros a i [H _]. }
  pose proof (allExist_resolved _ _ _ Hres) as Hexist.
  set (db2 := mkDB (authors db1)
                (<[id := mkPaper (dataTitle paperData) (dataPublishedIn paperData)
                           (dataYear paperData)]> (papers db1))
                (filter (λ l : Z * Z, l.2 ≠ id) (authorToPaper db1)
                   ∪ connectLinks id [] ∪ connectLinks id ids)
                (authorSeq db1) (paperSeq db1)).
  assert (Hlinks : ∀ a p, (a, p) ∈ authorToPaper db2 ↔
            (p ≠ id ∧ (a, p) ∈ authorToPaper db) ∨ (p = id ∧ a ∈ ids)).
  { intros a p. simpl. rewrite !elem_of_union, elem_of_filter, !elem_of_connectLinks, Hl.
    simpl. split.
    - intros [[[? ?]|[_ Hnil]]|[? ?]]; [by left|inversion Hnil|by right].
    - intros [[? ?]|[? ?]]; [by left; left|by right]. }
  assert (Hcall : updatePaper id paperData db =
            (Return (includeAuthors db2 (id, mkPaper (dataTitle paperData)
                       (dataPublishedIn paperData) (dataYear paperData))), db2)).
  { unfold updatePaper, bind. rewrite updatePaper_authors_eq, Hrun.
    unfold paper_update. rewrite Hp, Hrow, Hexist. simpl. rewrite <- Hp. reflexivity. }
  exists ids, db1, (includeAuthors db2 (id, mkPaper (dataTitle paperData)
                      (dataPublishedIn paperData) (dataYear paperData))), db2.
  split; [by rewrite updatePaper_authors_eq|].
  split; [exact Hcall|].
  split; [intros body Hbody; by rewrite (updatePaper_raw_typed _ _ _ _ Hbody), Hcall|].
  split.
  { eapply Forall2_impl; [exact Hleast|].
    intros a i [Hai Hmin]. split; [exact Hai|]. intros _ _. exact Hmin. }
  split; [exact Hsub|].
  split.
  { intros i r Hi Hnone. destruct (Hnew i r Hi Hnone) as (_ & Hmem & a & Ha & -> & Hno).
    split; [done|]. split; [by exists a|].
    intros j Hj. apply (Hno j). exists (candidateRow a). split; [done|].
    apply (authorMatches_candidate a j), candidateRow_matches. }
  split; [|split].
  - intros a. rewrite Hlinks. split; [intros [[? _]|[_ ?]]; done|by right].
  - intros a. simpl. rewrite list_elem_of_fmap. split.
    + intros ([k v] & -> & Hin). apply authorsOf_elem in Hin as [_ Hin].
      apply Hlinks in Hin as [[? _]|[_ ?]]; done.
    + intros Ha.
      assert (Hex : is_Some (authors db1 !! a)).
      { clear -Hres Ha. induction Hres as [|x i xs is' (r & Hr & _) _ IH]; [inversion Ha|].
        apply elem_of_cons in Ha as [->|Ha]; [by eexists|by apply IH]. }
      destruct Hex as [r Hr]. exists (a, r). split; [done|].
      apply authorsOf_elem. split; [exact Hr|]. apply Hlinks. by right.
  - intros a p Hne. rewrite Hlinks. split; [intros [[_ ?]|[? _]]; done|by left].
Qed.

Lemma updatePaper_replaces_authors_witness :
  ∃ ids db1 updated db2,
    updatePaper_authors (dataAuthors paper1Revised) [] seededStore = (Return ids, db1) ∧
    updatePaper 1 paper1Revised seededStore = (Return updated, db2) ∧
    (∀ body, paperObject body paper1Revised →
       updatePaper_raw 1 body seededStore = Some (Return updated, db2)) ∧
    Forall2 (firstResolvedAs db2) (dataAuthors paper1Revised) ids ∧
    authors seededStore ⊆ authors db2 ∧
    (∀ i row, authors db2 !! i = Some row → authors seededStore !! i = None →
       i ∈ ids ∧ (∃ a, a ∈ dataAuthors paper1Revised ∧ row = candidateRow a) ∧
       ∀ j, authors seededStore !! j ≠ Some row) ∧
    (∀ a, (a, 1) ∈ authorToPaper db2 ↔ a ∈ ids) ∧
    (∀ a, a ∈ (paperAuthors updated).*1 ↔ a ∈ ids) ∧
    (∀ a p, p ≠ 1 → ((a, p) ∈ authorToPaper db2 ↔ (a, p) ∈ authorToPaper seededStore)).
Proof.
  apply (updatePaper_replaces_authors seededStore 1 paper1Revised).
  - by_evaluation (authorIdsBelowSeq seededStore).
  - exists (paperRowOf paper1). reflexivity.
Defined.

(** The body that gives [paper1Revised] is such a payload, and the call on
    it returns paper 1 with Charlie Brown, who was stored, and Dana White,
    who was not. *)
Example paper1RevisedBody_payload : paperObject paper1RevisedBody paper1Revised.
Proof.
  split; [reflexivity|]. split; [reflexivity|]. split; [reflexivity|].
  eexists. split; [reflexivity|].
  repeat constructor; eexists; (split; [reflexivity|]);
    (split; [repeat constructor; set_solver|]); repeat split.
Qed.

Example updatePaper_raw_sample :
  option_map fst (updatePaper_raw 1 paper1RevisedBody seededStore) =
  Some (Return (mkPaperWithAuthors 1 (paperRowOf paper1Revised)
                  [(5, candidateRow charlieBrown); (6, candidateRow danaWhite)])).
Proof. vm_compute. reflexivity. Qed.

Example updatePaper_sample :
  (updatePaper 1 paper1Revised seededStore).1 =
  Return (mkPaperWithAuthors 1 (paperRowOf paper1Revised)
            [(5, candidateRow charlieBrown); (6, candidateRow danaWhite)]).
Proof. vm_compute. reflexivity. Qed.

(** C3, at the failing input.  The seeded store holds John Doe with an email
    and an affiliation as author 1.  A paper whose author gives the name
    only is created, and paper 2 is updated, with that candidate: both are
    linked to author 1, whose email and affiliation the candidate does not
    have, and no author record is created. *)
Theorem resolver_ignores_absent_fields :
  candidateRow johnDoeByName ≠ candidateRow johnDoe ∧
  authors seededStore !! 1 = Some (candidateRow johnDoe) ∧
  (createPaper paper4 seededStore).1 =
    Return (mkPaperWithAuthors 4 (paperRowOf paper4) [(1, candidateRow johnDoe)]) ∧
  authors (createPaper paper4 seededStore).2 = authors seededStore ∧
  (updatePaper 2 paper4 seededStore).1 =
    Return (mkPaperWithAuthors 2 (paperRowOf paper4) [(1, candidateRow johnDoe)]) ∧
  authors (updatePaper 2 paper4 seededStore).2 = authors seededStore.
Proof.
  split; [discriminate|].
  repeat split; vm_compute; reflexivity.
Qed.

(** *** Listing papers and authors *)

(** The filter [getAllPapers] hands to Prisma for an [author] array. *)
Lemma getAllPapers_unpaged (author : AuthorFilter) (db : DB) :
  ∃ w,
    getAllPapers (byAuthor author) db =
      (Return (mkListing
                 (map (includeAuthors db) (List.filter (paperMatches db w) (rowsAsc (papers db))))
                 (Z.of_nat (length (List.filter (paperMatches db w) (rowsAsc (papers db)))))
                 None None), db) ∧
    w = match author with
        | AuthorArray [] => mkPaperWhere None None (Some (RelNone anyAuthor)) []
        | AuthorArray names =>
            mkPaperWhere None None None
              (map (fun name => mkPaperWhere None None (Some (RelSome (nameContains name))) [])
                 names)
        | AuthorString name => mkPaperWhere None None (Some (RelSome (nameContains name))) []
        | NoAuthorFilter => mkPaperWhere None None None []
        end.
Proof.
  eexists. split; [|reflexivity].
  unfold getAllPapers, bind, paper_findMany, slice, byAuthor; simpl.
  destruct author as [|name|[|name names]]; simpl; rewrite length_map; reflexivity.
Qed.

Lemma elem_of_listing_ids (db : DB) (w : PaperWhere) (paper : Z) :
  paper ∈ paperId <$> map (includeAuthors db) (List.filter (paperMatches db w) (rowsAsc (papers db)))
  ↔ ∃ row, papers db !! paper = Some row ∧ paperMatches db w (paper, row) = true.
Proof.
  rewrite list_elem_of_fmap. split.
  - intros (r & -> & Hr). apply list_elem_of_fmap in Hr as ([k v] & -> & Hin).
    apply list_elem_of_In, List.filter_In in Hin as [Hin Hm].
    apply list_elem_of_In, elem_of_rowsAsc in Hin. simpl. eauto.
  - intros (row & Hrow & Hm). exists (includeAuthors db (paper, row)). split; [done|].
    apply list_elem_of_fmap. exists (paper, row). split; [done|].
    apply list_elem_of_In, List.filter_In. split; [|done].
    by apply list_elem_of_In, elem_of_rowsAsc.
Qed.

Lemma some_nameContains (db : DB) (paper : Z) (value : string) :
  existsb (authorMatches (nameContains value)) (authorsOf db paper) = true
  ↔ hasAuthorNamed db paper value.
Proof.
  rewrite existsb_exists. unfold hasAuthorNamed, containsInsensitive.
  split; intros (a & Ha & Hm); exists a.
  - split; [by apply list_elem_of_In|].
    unfold authorMatches in Hm; simpl in Hm. by rewrite !andb_true_r in Hm.
  - split; [by apply list_elem_of_In|].
    unfold authorMatches; simpl. by rewrite !andb_true_r.
Qed.

Lemma every_name_matches (db : DB) (names : list string) (p : Z * PaperRow) :
  forallb
    (fun w' => paperMatches db w' p)
    (map (fun name => mkPaperWhere None None (Some (RelSome (nameContains name))) []) names)
  = true ↔ ∀ value, value ∈ names → hasAuthorNamed db p.1 value.
Proof.
  rewrite forallb_forall. split.
  - intros H value Hv. apply some_nameContains.
    specialize (H (mkPaperWhere None None (Some (RelSome (nameContains value))) [])).
    simpl in H. rewrite andb_true_r in H. apply H.
    apply in_map_iff. exists value. split; [done|]. by apply list_elem_of_In.
  - intros H w' Hw. apply in_map_iff in Hw as (value & <- & Hv).
    simpl. rewrite andb_true_r. apply some_nameContains, H. by apply list_elem_of_In.
Qed.

(** C7, as stated, fails for the empty list: every paper satisfies "for
    every value of the list" vacuously, yet paper 1 of the seeded store, which
    has authors, is not listed. *)
Lemma getAllPapers_empty_author_list_counterexample :
  is_Some (papers seededStore !! 1) ∧
  (∀ value, value ∈ [] → hasAuthorNamed seededStore 1 value) ∧
  (getAllPapers (byAuthor (AuthorArray [])) seededStore).1 = Return (mkListing [] 0 None None).
Proof.
  split; [by eexists|]. split.
  - intros value Hv. inversion Hv.
  - vm_compute. reflexivity.
Qed.

(** C7, amended. With only an [author] filter given as a non-empty list, a
    paper is listed if and only if it is in the store and, for every value of
    the list, some author linked to it has a name containing that value,
    case-insensitively (each value is searched on its own, so one author may
    serve several values); a single string gives the listing of the
    one-value list.  For the empty list the papers listed are those with no
    linked author. *)
Theorem getAllPapers_author_filter (db : DB) (names : list string) (paper : Z) :
  ∃ listing,
    getAllPapers (byAuthor (AuthorArray names)) db = (Return listing, db) ∧
    (names ≠ [] →
       (paper ∈ paperId <$> items listing ↔
        is_Some (papers db !! paper) ∧
        ∀ value, value ∈ names → hasAuthorNamed db paper value)) ∧
    (names = [] →
       (paper ∈ paperId <$> items listing ↔
        is_Some (papers db !! paper) ∧ authorsOf db paper = [])) ∧
    (∀ value, names = [value] →
       getAllPapers (byAuthor (AuthorString value)) db = (Return listing, db)).
Proof.
  destruct (getAllPapers_unpaged (AuthorArray names) db) as (w & Hrun & Hw).
  eexists. split; [exact Hrun|]. simpl.
  split; [|split].
  - intros Hne. rewrite elem_of_listing_ids.
    destruct names as [|name names]; [done|]. subst w.
    split.
    + intros (row & Hrow & Hm). split; [by eexists|].
      apply (every_name_matches db (name :: names) (paper, row)). exact Hm.
    + intros [[row Hrow] Hall]. exists row. split; [done|].
      apply (every_name_matches db (name :: names) (paper, row)). exact Hall.
  - intros ->. subst w. rewrite elem_of_listing_ids. simpl. split.
    + intros (row & Hrow & Hm). split; [by eexists|].
      rewrite andb_true_r, negb_true_iff in Hm.
      destruct (authorsOf db paper) as [|a rest]; [done|].
      simpl in Hm. unfold authorMatches in Hm. simpl in Hm. discriminate.
    + intros [[row Hrow] Hnone]. exists row. split; [done|]. by rewrite Hnone.
  - intros value ->. subst w.
    destruct (getAllPapers_unpaged (AuthorString value) db) as (w' & Hrun' & Hw').
    rewrite Hrun'. subst w'.
    assert (Hext : ∀ p, paperMatches db
                     (mkPaperWhere None None (Some (RelSome (nameContains value))) []) p
                   = paperMatches db
                       (mkPaperWhere None None None
                          (map (fun name => mkPaperWhere None None
                                              (Some (RelSome (nameContains name))) []) [value])) p).
    { intros p. simpl. by rewrite !andb_true_r. }
    by rewrite (List.filter_ext _ _ Hext).
Qed.

Lemma getAllPapers_author_filter_witness :
  ∃ listing,
    getAllPapers (byAuthor (AuthorArray ["john doe"; "charlie"])) seededStore
      = (Return listing, seededStore) ∧
    (["john doe"; "charlie"] ≠ [] →
       (3 ∈ paperId <$> items listing ↔
        is_Some (papers seededStore !! 3) ∧
        ∀ value, value ∈ ["john doe"; "charlie"] → hasAuthorNamed seededStore 3 value)) ∧
    (["john doe"; "charlie"] = [] →
       (3 ∈ paperId <$> items listing ↔
        is_Some (papers seededStore !! 3) ∧ authorsOf seededStore 3 = [])) ∧
    (∀ value, ["john doe"; "charlie"] = [value] →
       getAllPapers (byAuthor (AuthorString value)) seededStore = (Return listing, seededStore)).
Proof.
  apply (getAllPapers_author_filter seededStore ["john doe"; "charlie"] 3).
Defined.

Example getAllPapers_two_names :
  paperId <$> items
    match (getAllPapers (byAuthor (AuthorArray ["john doe"; "charlie"])) seededStore).1 with
    | Return listing => listing
    | Throw _ => mkListing [] 0 None None
    end = [3].
Proof. vm_compute. reflexivity. Qed.




(** [skip] and [take] within their validated ranges: the page, and its
    length. *)
Lemma slice_page {A} (rows : list A) (l o : Z) :
  0 <= l → 0 <= o →
  slice (Some o) (Some l) rows = Return (take (Z.to_nat l) (drop (Z.to_nat o) rows)) ∧
  Z.of_nat (length (take (Z.to_nat l) (drop (Z.to_nat o) rows)))
    = Z.min l (Z.max 0 (Z.of_nat (length rows) - o)).
Proof.
  intros Hl Ho. unfold slice; simpl.
  destruct (Z.ltb_spec o 0); [lia|]. destruct (Z.leb_spec 0 l); [|lia].
  split; [reflexivity|]. rewrite length_take, length_drop. lia.
Qed.



Lemma getAllPapers_run (filters : PaperFilters) (db : DB) :
  getAllPapers filters db =
  match slice (filterOffset filters) (filterLimit filters)
          (List.filter (paperMatches db (paperWhereOf filters)) (rowsAsc (papers db))) with
  | Return rows =>
      (Return (mkListing (map (includeAuthors db) rows) (Z.of_nat (length rows))
                 (filterLimit filters) (filterOffset filters)), db)
  | Throw e => (Throw e, db)
  end.
Proof.
  unfold getAllPapers, bind, paper_findMany. fold (paperWhereOf filters).
  destruct (slice _ _ _); [|reflexivity]. unfold ret. by rewrite length_map.
Qed.

Lemma getAllAuthors_run (filters : AuthorFilters) (db : DB) :
  getAllAuthors filters db =
  match slice (authorsOffset filters) (authorsLimit filters)
          (List.filter (authorMatches (authorWhereOf filters)) (rowsAsc (authors db))) with
  | Return rows =>
      (Return (mkListing (map (includePapers db) rows) (Z.of_nat (length rows))
                 (authorsLimit filters) (authorsOffset filters)), db)
  | Throw e => (Throw e, db)
  end.
Proof.
  unfold getAllAuthors, bind, author_findMany. fold (authorWhereOf filters).
  destruct (slice _ _ _); [|reflexivity]. unfold ret. by rewrite length_map.
Qed.



(** *** Range checks on integral numbers *)

Lemma isIntegerGreaterThan0_int (n : Z) :
  isIntegerGreaterThan0 (JsNum (JInt n)) = (0 <? n).
Proof. unfold isIntegerGreaterThan0; simpl. by rewrite !Z.mul_1_r. Qed.

Lemma isIntegerGreaterThan1900_int (n : Z) :
  isIntegerGreaterThan1900 (JsNum (JInt n)) = (1900 <? n).
Proof. unfold isIntegerGreaterThan1900; simpl. by rewrite !Z.mul_1_r. Qed.

Lemma isIntegerLeThan100_int (n : Z) :
  isIntegerLeThan100 (JsNum (JInt n)) = (n <=? 100).
Proof. unfold isIntegerLeThan100; simpl. by rewrite !Z.mul_1_r. Qed.

Lemma isIntegerNonNegative_int (n : Z) :
  isIntegerNonNegative (JsNum (JInt n)) = (0 <=? n).
Proof. unfold isIntegerNonNegative; simpl. by rewrite !Z.mul_1_r. Qed.

(** *** Path identifiers *)

Lemma decimal_digit_facts (c : ascii) :
  isDecimalDigit c = true →
  isWhiteSpace c = false ∧
  digitIn 10 c = Some (Z.of_N (N_of_ascii c) - 48) ∧
  0 <= Z.of_N (N_of_ascii c) - 48 <= 9 ∧
  Ascii.eqb c "+" = false ∧ Ascii.eqb c "-" = false ∧ Ascii.eqb c "I" = false ∧
  Ascii.eqb c "x" = false ∧ Ascii.eqb c "X" = false ∧
  Ascii.eqb c "o" = false ∧ Ascii.eqb c "O" = false ∧
  Ascii.eqb c "b" = false ∧ Ascii.eqb c "B" = false.
Proof.
  destruct c as [[] [] [] [] [] [] [] []]; vm_compute; intros H;
    first [discriminate H | repeat split; congruence].
Qed.

Lemma trimEnd_digits (s : string) (acc : Z) (v : Z) :
  digitsValue s acc = Some v → trimEnd s = s.
Proof.
  revert acc. induction s as [|c r IH]; intros acc; simpl; [done|].
  destruct (isDecimalDigit c) eqn:Hc; [|discriminate].
  intros Hv. rewrite (IH _ Hv).
  destruct (decimal_digit_facts c Hc) as (-> & _).
  by destruct r.
Qed.

Lemma trim_digits (s : string) (v : Z) :
  digitsValue s 0 = Some v → trim s = s.
Proof.
  intros Hv. unfold trim.
  assert (Hstart : trimStart s = s).
  { destruct s as [|c r]; [done|]. simpl in *.
    destruct (isDecimalDigit c) eqn:Hc; [|discriminate].
    by destruct (decimal_digit_facts c Hc) as (-> & _). }
  rewrite Hstart. by eapply trimEnd_digits.
Qed.

Lemma scanDigits_digits (s : string) (acc count v : Z) :
  digitsValue s acc = Some v →
  scanDigits 10 s acc count = (v, count + strLength s, EmptyString).
Proof.
  revert acc count. induction s as [|c r IH]; intros acc count; simpl.
  - intros [= ->]. unfold strLength; simpl. by rewrite Z.add_0_r.
  - destruct (isDecimalDigit c) eqn:Hc; [|discriminate].
    destruct (decimal_digit_facts c Hc) as (_ & -> & _).
    intros Hv. rewrite (IH _ _ Hv). unfold strLength; simpl String.length.
    f_equal. f_equal. lia.
Qed.

Lemma nonDecimalPrefix_digits (s : string) (acc v : Z) :
  digitsValue s acc = Some v → nonDecimalPrefix s = None.
Proof.
  destruct s as [|c [|x r]]; simpl; try done.
  destruct (isDecimalDigit c); [|discriminate].
  destruct (isDecimalDigit x) eqn:Hx; [|discriminate].
  destruct (decimal_digit_facts x Hx) as (_ & _ & _ & _ & _ & _ & -> & -> & -> & -> & -> & ->).
  intros _. by destruct (Ascii.eqb c "0").
Qed.

Lemma roundHalfEven_1 (n : Z) : roundHalfEven n 1 = n.
Proof.
  unfold roundHalfEven. rewrite Z.mod_1_r, Z.div_1_r. reflexivity.
Qed.

(** Integers up to [2 ^ 53] are binary64 values: rounding leaves them as
    they are. *)
Lemma roundToDouble_integer (v : Z) :
  0 < v <= 2 ^ 53 → roundToDouble v 1 = JInt v.
Proof.
  intros Hv.
  destruct (Z.eq_dec v (2 ^ 53)) as [->|Hne]; [vm_compute; reflexivity|].
  assert (Hlog : 0 <= Z.log2 v < 53).
  { split; [apply Z.log2_nonneg|]. apply Z.log2_lt_pow2; lia. }
  assert (Hpow : 2 ^ Z.log2 v <= v) by (apply Z.log2_spec; lia).
  unfold roundToDouble, floorLog2Ratio.
  change (Z.log2 1) with 0. rewrite Z.sub_0_r.
  destruct (Z.leb_spec 0 (Z.log2 v)) as [_|]; [|lia].
  destruct (Z.ltb_spec v (1 * 2 ^ Z.log2 v)) as [|_]; [lia|].
  rewrite Z.max_l by lia.
  destruct (Z.leb_spec 0 (Z.log2 v - 52)) as [Hge|Hlt].
  - assert (He : Z.log2 v - 52 = 0) by lia. rewrite He.
    change (1 * 2 ^ 0) with 1. rewrite roundHalfEven_1.
    change (971 <? 0) with false. change (971 =? 0) with false. simpl orb.
    unfold dyadic. change (0 <=? 0) with true. simpl. f_equal. lia.
  - rewrite roundHalfEven_1.
    set (k := - (Z.log2 v - 52)). assert (Hk : 0 < k <= 52) by (unfold k; lia).
    destruct (Z.ltb_spec 971 (Z.log2 v - 52)) as [|_]; [lia|].
    destruct (Z.eqb_spec 971 (Z.log2 v - 52)) as [|_]; [lia|].
    simpl orb. unfold dyadic.
    destruct (Z.leb_spec 0 (Z.log2 v - 52)) as [|_]; [lia|].
    fold k.
    assert (Hp : 0 < 2 ^ k) by (apply Z.pow_pos_nonneg; lia).
    assert (Hg : Z.gcd (v * 2 ^ k) (2 ^ k) = 2 ^ k).
    { rewrite Z.gcd_comm, Z.mul_comm. apply Z.gcd_mul_diag_l. lia. }
    rewrite Hg, Z.div_same by lia. simpl.
    f_equal. apply Z.div_mul. lia.
Qed.

Lemma StringToNumber_digits (s : string) (v : Z) :
  plainDecimal s = Some v →
  StringToNumber s = if v =? 0 then JInt 0 else roundToDouble v 1.
Proof.
  destruct s as [|c r]; [discriminate|]. unfold plainDecimal.
  intros Hv. unfold StringToNumber. rewrite (trim_digits _ _ Hv).
  rewrite (nonDecimalPrefix_digits _ _ _ Hv).
  pose proof Hv as Hv'. simpl in Hv'.
  destruct (isDecimalDigit c) eqn:Hc; [|discriminate].
  destruct (decimal_digit_facts c Hc) as (_ & _ & _ & -> & -> & HI & _).
  unfold parseUnsignedDecimal.
  assert (Hinf : String.eqb (String c r) "Infinity" = false) by (simpl; by rewrite HI).
  rewrite Hinf, (scanDigits_digits _ 0 0 v Hv).
  assert (Hlen : (0 + strLength (String c r) =? 0) = false).
  { apply Z.eqb_neq. unfold strLength; simpl String.length. lia. }
  rewrite Hlen. simpl andb. cbv iota.
  unfold decimalValue. simpl Z.opp. change (0 <=? 0) with true. cbv iota.
  change (10 ^ 0) with 1. by rewrite Z.mul_1_r.
Qed.

(** C5, as stated, fails: [" 1"] is no plain decimal numeral (a space leads
    it), and it proceeds, as identifier 1. *)
Lemma validateResourceId_claim_counterexample :
  ¬ (∀ id, (∃ n, validateResourceId id = Next n) ↔ (∃ v, plainDecimal id = Some v ∧ 0 < v)).
Proof.
  intros H. destruct (proj1 (H " 1")) as (v & Hv & _).
  - exists (JInt 1). vm_compute. reflexivity.
  - vm_compute in Hv. discriminate.
Qed.

(** C5, amended. A path identifier proceeds if and only if [Number] converts
    it to an integer greater than 0, and then proceeds as that integer;
    otherwise the answer is status 400 with the message "Invalid ID format".
    A plain decimal numeral proceeds as its value when that is positive (up
    to [2 ^ 53], past which integers are rounded) and is refused when it is
    zero; ["0"], ["-1"], ["3.14"] and ["1aaa"] are refused; but the
    conversion also lets through numerals wrapped in white space, signed
    with [+], written with an exponent, a zero fraction or a radix prefix. *)
Theorem validateResourceId_accepts_positive_integers (id : string) :
  (validateResourceId id = Respond invalidIdResponse ∨
   ∃ n, 0 < n ∧ StringToNumber id = JInt n ∧ validateResourceId id = Next (JInt n)) ∧
  (∀ n, StringToNumber id = JInt n → 0 < n → validateResourceId id = Next (JInt n)) ∧
  (∀ v, plainDecimal id = Some v →
     (0 < v <= 2 ^ 53 → validateResourceId id = Next (JInt v)) ∧
     (v = 0 → validateResourceId id = Respond invalidIdResponse)) ∧
  Forall (fun s => validateResourceId s = Respond invalidIdResponse)
    ["0"; "-1"; "3.14"; "1aaa"; "abc"; ""] ∧
  Forall (fun s => validateResourceId s = Next (JInt 1))
    ["1"; " 1"; "1 "; "+1"; "1.0"; "1e0"; "0x1"].
Proof.
  assert (Hint : ∀ s n, StringToNumber s = JInt n → 0 < n →
                   validateResourceId s = Next (JInt n)).
  { intros s n Hs Hn. unfold validateResourceId. rewrite Hs, isIntegerGreaterThan0_int.
    destruct (Z.ltb_spec 0 n); [reflexivity|lia]. }
  split; [|split; [|split; [|split]]].
  - unfold validateResourceId.
    destruct (StringToNumber id) as [|sg|n|a b] eqn:Hs; try (by left).
    rewrite isIntegerGreaterThan0_int.
    destruct (Z.ltb_spec 0 n); simpl; [right|by left].
    exists n. split; [lia|done].
  - apply Hint.
  - intros v Hv. pose proof (StringToNumber_digits _ _ Hv) as Hs. split.
    + intros Hrange. apply Hint; [|lia].
      destruct (Z.eqb_spec v 0); [lia|]. rewrite Hs. by apply roundToDouble_integer.
    + intros ->. simpl in Hs. unfold validateResourceId. rewrite Hs. reflexivity.
  - repeat constructor.
  - repeat constructor.
Qed.

Lemma validateResourceId_witness :
  validateResourceId "42" = Next (JInt 42).
Proof.
  apply (proj1 (proj2 (validateResourceId_accepts_positive_integers "42")) 42).
  - vm_compute. reflexivity.
  - lia.
Defined.

(** *** Limit and offset *)

Lemma validateLimit_rule (query : Query) (limit : option QueryValue) :
  validateLimit query limit =
  match limitByRule limit with
  | Some n => (true, <["limit" := QNumber (JInt n)]> query)
  | None => (false, query)
  end.
Proof.
  unfold validateLimit, limitByRule. destruct limit as [l|]; [|reflexivity].
  destruct (Number l) as [|sg|n|a b]; try reflexivity.
  rewrite isIntegerGreaterThan0_int, isIntegerLeThan100_int.
  destruct (Z.ltb_spec 0 n), (Z.leb_spec 1 n); try lia; simpl; try reflexivity.
  by destruct (n <=? 100).
Qed.

Lemma validateOffset_rule (query : Query) (offset : option QueryValue) :
  validateOffset query offset =
  match offsetByRule offset with
  | Some n => (true, <["offset" := QNumber (JInt n)]> query)
  | None => (false, query)
  end.
Proof.
  unfold validateOffset, offsetByRule. destruct offset as [o|]; [|reflexivity].
  destruct (Number o) as [|sg|n|a b]; try reflexivity.
  rewrite isIntegerNonNegative_int. by destruct (0 <=? n).
Qed.

Lemma validatePaging_rule (query : Query) (limit offset : option QueryValue) :
  validatePaging query limit offset =
  match limitByRule limit, offsetByRule offset with
  | Some l, Some o => Next (withPaging query l o)
  | _, _ => Respond invalidQueryResponse
  end.
Proof.
  unfold validatePaging. rewrite validateLimit_rule.
  destruct (limitByRule limit) as [l|]; [|reflexivity]. simpl.
  rewrite validateOffset_rule.
  destruct (offsetByRule offset) as [o|]; reflexivity.
Qed.

Lemma withPaging_lookup (query : Query) (l o : Z) :
  withPaging query l o !! "limit" = Some (QNumber (JInt l)) ∧
  withPaging query l o !! "offset" = Some (QNumber (JInt o)).
Proof.
  unfold withPaging. split.
  - rewrite lookup_insert_ne by done. apply lookup_insert_eq.
  - apply lookup_insert_eq.
Qed.

(** Whatever comes before it, a validator that ends in [validatePaging] on
    the request's own limit and offset follows the rules. *)
Lemma paging_rules_of_tail (validate : Query → MiddlewareResult Query) (query : Query) :
  (validate query = Respond invalidQueryResponse ∨
   ∃ query', validate query = validatePaging query' (query !! "limit") (query !! "offset")) →
  followsPagingRules validate query.
Proof.
  intros Htail. unfold followsPagingRules.
  destruct Htail as [Hrej|(query' & Hrun)].
  - rewrite Hrej. split; [|split]; [discriminate|done|by intros r [= <-]].
  - rewrite Hrun, validatePaging_rule.
    destruct (limitByRule (query !! "limit")) as [l|],
             (offsetByRule (query !! "offset")) as [o|].
    + split; [|split]; [|intros [|]; discriminate|discriminate].
      intros validated [= <-]. exists l, o.
      destruct (withPaging_lookup query' l o). done.
    + split; [|split]; [discriminate|done|by intros r [= <-]].
    + split; [|split]; [discriminate|done|by intros r [= <-]].
    + split; [|split]; [discriminate|done|by intros r [= <-]].
Qed.

Lemma validatePaperQueryParams_tail (query : Query) :
  validatePaperQueryParams query = Respond invalidQueryResponse ∨
  ∃ query', validatePaperQueryParams query =
              validatePaging query' (query !! "limit") (query !! "offset").
Proof.
  unfold validatePaperQueryParams.
  destruct (query !! "year") as [y|].
  - destruct (negb (isIntegerGreaterThan1900 _)); [by left|].
    destruct (negb _); [by left|]. destruct (negb _); [by left|]. right; eauto.
  - destruct (negb _); [by left|]. destruct (negb _); [by left|]. right; eauto.
Qed.

Lemma validateAuthorQueryParams_tail (query : Query) :
  validateAuthorQueryParams query = Respond invalidQueryResponse ∨
  ∃ query', validateAuthorQueryParams query =
              validatePaging query' (query !! "limit") (query !! "offset").
Proof.
  unfold validateAuthorQueryParams.
  destruct (negb _); [by left|]. destruct (negb _); [by left|]. right; eauto.
Qed.

(** C9. For every query string, both query validators follow the rules for
    [limit] and [offset]: the validated limit is the integer in [1, 100] the
    parameter converts to when it is present and 10 when it is absent, the
    validated offset the non-negative integer the parameter converts to when
    present and 0 when absent; a present value outside these rules is
    answered with status 400 and the single message "Invalid query parameter
    format", the request not being handed on; and a request with no other
    parameter whose limit and offset follow the rules is handed on with
    them. *)
Theorem query_limit_and_offset_rules (query : Query) :
  followsPagingRules validatePaperQueryParams query ∧
  followsPagingRules validateAuthorQueryParams query ∧
  (∀ l o, limitByRule (query !! "limit") = Some l →
          offsetByRule (query !! "offset") = Some o →
     (query !! "year" = None → query !! "publishedIn" = None → query !! "author" = None →
        validatePaperQueryParams query = Next (withPaging query l o)) ∧
     (query !! "name" = None → query !! "affiliation" = None →
        validateAuthorQueryParams query = Next (withPaging query l o))).
Proof.
  split; [|split].
  - apply paging_rules_of_tail, validatePaperQueryParams_tail.
  - apply paging_rules_of_tail, validateAuthorQueryParams_tail.
  - intros l o Hl Ho. split.
    + intros Hy Hp Ha. unfold validatePaperQueryParams. rewrite Hy, Hp, Ha. simpl.
      by rewrite validatePaging_rule, Hl, Ho.
    + intros Hn Ha. unfold validateAuthorQueryParams. rewrite Hn, Ha. simpl.
      by rewrite validatePaging_rule, Hl, Ho.
Qed.

Lemma query_limit_and_offset_witness :
  validatePaperQueryParams secondPage = Next (withPaging secondPage 5 20) ∧
  validateAuthorQueryParams secondPage = Next (withPaging secondPage 5 20).
Proof.
  assert (Hl : limitByRule (secondPage !! "limit") = Some 5) by (vm_compute; reflexivity).
  assert (Ho : offsetByRule (secondPage !! "offset") = Some 20) by (vm_compute; reflexivity).
  split.
  - apply (proj1 (proj2 (proj2 (query_limit_and_offset_rules secondPage)) 5 20 Hl Ho));
      reflexivity.
  - apply (proj2 (proj2 (proj2 (query_limit_and_offset_rules secondPage)) 5 20 Hl Ho));
      reflexivity.
Defined.

Example limit_and_offset_samples :
  limitByRule (Some (Raw (QString "100"))) = Some 100 ∧
  limitByRule (Some (Raw (QString "101"))) = None ∧
  limitByRule (Some (Raw (QString "0"))) = None ∧
  limitByRule (Some (Raw (QString "abc"))) = None ∧
  limitByRule (Some (Raw (QString "2.5"))) = None ∧
  offsetByRule (Some (Raw (QString "0"))) = Some 0 ∧
  offsetByRule (Some (Raw (QString "-5"))) = None.
Proof. repeat split; vm_compute; reflexivity. Qed.

(** *** Paper bodies *)

(** C6, at the failing input.  A paper body whose [authors] array holds
    [null] makes [validatePaperInput] throw a [TypeError] (destructuring
    [name] from [null]) instead of returning messages, whereas an author
    object without a name gives the one message of that check. *)
Theorem validatePaperInput_throws_on_null_author :
  validatePaperInput (bodyWithAuthor JsNull) = Throw TypeError ∧
  validatePaperInput (JsObj [("authors", JsArr [JsNull])]) = Throw TypeError ∧
  validatePaperInput (bodyWithAuthor (JsObj [])) = Return ["Author name is required"] ∧
  validatePaperInput (JsObj [("authors", JsArr [JsObj []; JsNull])]) =
    Return ["Title is required"; "Published venue is required";
            "Published year is required"; "Author name is required"].
Proof. repeat split; vm_compute; reflexivity. Qed.

Lemma isNonEmptyStringAfterTrim_true (v : JsValue) :
  isNonEmptyStringAfterTrim v = true ↔ nonBlankString v.
Proof.
  unfold nonBlankString. destruct v; simpl; try (split; [discriminate|by intros (? & ? & _)]).
  unfold strLength. split.
  - intros H. exists s. split; [done|]. intros Hs. rewrite Hs in H. discriminate.
  - intros (t & [= <-] & Ht). destruct (trim s); [done|]. apply Z.ltb_lt. simpl String.length. lia.
Qed.

Lemma isIntegerGreaterThan1900_true (v : JsValue) :
  isIntegerGreaterThan1900 v = true ↔ integerAfter1900 v.
Proof.
  unfold integerAfter1900.
  destruct v as [| |b|[|sg|n|a c]|s|l|o];
    try (split; [discriminate|by intros (? & ? & _)]).
  rewrite isIntegerGreaterThan1900_int, Z.ltb_lt. split.
  - intros H. by exists n.
  - by intros (m & [= <-] & H).
Qed.

Lemma destructure_value (v : JsValue) (key : string) :
  notNullish v → destructure v key = Return (getProperty v key).
Proof. intros [Hnull Hundef]. by destruct v. Qed.

Lemma authorNameErrors_values (authors : list JsValue) :
  Forall notNullish authors →
  authorNameErrors authors =
  Return (if existsb (fun a => negb (isNonEmptyStringAfterTrim (getProperty a "name"))) authors
          then ["Author name is required"] else []).
Proof.
  induction 1 as [|a rest Ha _ IH]; [reflexivity|].
  simpl. rewrite (destructure_value _ _ Ha), IH. by destruct (negb _).
Qed.

(** X3. The author loop stops at the first name that fails: what follows is not
    looked at, be it [null]. *)
Lemma authorNameErrors_stops (before after : list JsValue) (bad : JsValue) :
  Forall (fun a => notNullish a ∧ nonBlankString (getProperty a "name")) before →
  notNullish bad → ¬ nonBlankString (getProperty bad "name") →
  authorNameErrors (before ++ bad :: after) = Return ["Author name is required"].
Proof.
  intros Hbefore Hvalue Hbad.
  induction Hbefore as [|a rest [Ha Hname] _ IH]; simpl.
  - rewrite (destructure_value _ _ Hvalue).
    destruct (isNonEmptyStringAfterTrim (getProperty bad "name")) eqn:Hb; [|done].
    exfalso. by apply Hbad, isNonEmptyStringAfterTrim_true.
  - apply isNonEmptyStringAfterTrim_true in Hname.
    by rewrite (destructure_value _ _ Ha), Hname.
Qed.

Lemma negb_true_not (b : bool) : negb b = true ↔ ¬ (b = true).
Proof. destruct b; naive_solver. Qed.

Lemma required_string_check (v : JsValue) :
  isNull v || negb (isNonEmptyStringAfterTrim v) = true ↔ ¬ nonBlankString v.
Proof.
  rewrite <- isNonEmptyStringAfterTrim_true.
  destruct v; simpl; try naive_solver. apply negb_true_not.
Qed.

(** The messages of each of the four checks of [validatePaperInput]. *)
Lemma validatePaperInput_shape (paper : JsValue) :
  notNullish paper → authorsAreValues paper →
  validatePaperInput paper =
  Return
    ((if isNull (getProperty paper "title")
         || negb (isNonEmptyStringAfterTrim (getProperty paper "title"))
      then ["Title is required"] else []) ++
     (if isNull (getProperty paper "publishedIn")
         || negb (isNonEmptyStringAfterTrim (getProperty paper "publishedIn"))
      then ["Published venue is required"] else []) ++
     (if isNull (getProperty paper "year") || isUndefined (getProperty paper "year")
      then ["Published year is required"]
      else if negb (isIntegerGreaterThan1900 (getProperty paper "year"))
      then ["Valid year after 1900 is required"] else []) ++
     match getProperty paper "authors" with
     | JsArr (a :: rest) =>
         if existsb (fun a => negb (isNonEmptyStringAfterTrim (getProperty a "name")))
              (a :: rest)
         then ["Author name is required"] else []
     | _ => ["At least one author is required"]
     end).
Proof.
  intros [Hnull Hundef] Hvalues. unfold authorsAreValues in Hvalues.
  unfold validatePaperInput.
  destruct paper as [| |b|n|str|l|props]; try done;
    simpl getProperty in *;
    try (destruct (lookupProp props "authors") as [| |b'|n'|s'|[|a rest]|o'] eqn:Hauthors);
    try rewrite (authorNameErrors_values _ Hvalues);
    repeat match goal with |- context [if ?b then _ else _] => destruct b end;
    reflexivity.
Qed.

Lemma elem_of_when (b : bool) (m message : string) :
  m ∈ (if b then [message] else []) ↔ b = true ∧ m = message.
Proof.
  destruct b.
  - rewrite list_elem_of_singleton. naive_solver.
  - split; [intros H; inversion H|intros [H _]; discriminate H].
Qed.

Lemma elem_of_year_messages (year : JsValue) (m : string) :
  m ∈ (if isNull year || isUndefined year then ["Published year is required"]
       else if negb (isIntegerGreaterThan1900 year)
       then ["Valid year after 1900 is required"] else [])
  ↔ (m = "Published year is required" ∧ ¬ notNullish year) ∨
    (m = "Valid year after 1900 is required" ∧ notNullish year ∧ ¬ integerAfter1900 year).
Proof.
  assert (Hnullish : isNull year || isUndefined year = true ↔ ¬ notNullish year).
  { unfold notNullish. destruct year; simpl; split; try done; try tauto;
      intros H; exfalso; apply H; done. }
  assert (Hrange : negb (isIntegerGreaterThan1900 year) = true ↔ ¬ integerAfter1900 year).
  { rewrite <- isIntegerGreaterThan1900_true. apply negb_true_not. }
  destruct (isNull year || isUndefined year) eqn:Hb.
  - rewrite list_elem_of_singleton. split.
    + intros ->. left. split; [done|]. by apply Hnullish.
    + intros [[-> _]|(_ & Hv & _)]; [done|]. exfalso. by apply Hnullish.
  - assert (Hv : notNullish year)
      by (destruct year; simpl in Hb; try discriminate Hb; split; discriminate).
    rewrite elem_of_when, Hrange. split.
    + intros [Hr ->]. right. done.
    + intros [[_ Hn]|(-> & _ & Hr)]; [done|done].
Qed.

Lemma elem_of_author_messages (authors : JsValue) (m : string) :
  m ∈ match authors with
      | JsArr (a :: rest) =>
          if existsb (fun a => negb (isNonEmptyStringAfterTrim (getProperty a "name")))
               (a :: rest)
          then ["Author name is required"] else []
      | _ => ["At least one author is required"]
      end
  ↔ (m = "At least one author is required" ∧
     ¬ ∃ a rest, authors = JsArr (a :: rest)) ∨
    (m = "Author name is required" ∧
     ∃ a rest, authors = JsArr (a :: rest) ∧
       Exists (fun x => ¬ nonBlankString (getProperty x "name")) (a :: rest)).
Proof.
  assert (Hnames : ∀ l,
            existsb (fun a => negb (isNonEmptyStringAfterTrim (getProperty a "name"))) l = true
            ↔ Exists (fun x => ¬ nonBlankString (getProperty x "name")) l).
  { intros l. rewrite existsb_exists, Exists_exists.
    split; intros (x & Hx & Hb); exists x; (split; [by apply list_elem_of_In|]).
    - rewrite <- isNonEmptyStringAfterTrim_true. by apply negb_true_not.
    - apply negb_true_not. by rewrite isNonEmptyStringAfterTrim_true. }
  assert (Hnone : ∀ v : JsValue, (∀ a rest, v ≠ JsArr (a :: rest)) →
            (m ∈ ["At least one author is required"] ↔
             (m = "At least one author is required" ∧ ¬ ∃ a rest, v = JsArr (a :: rest)) ∨
             (m = "Author name is required" ∧
              ∃ a rest, v = JsArr (a :: rest) ∧
                Exists (fun x => ¬ nonBlankString (getProperty x "name")) (a :: rest)))).
  { intros v Hv. rewrite list_elem_of_singleton. split.
    - intros ->. left. split; [done|]. intros (a & rest & H). by apply (Hv a rest).
    - intros [[-> _]|(_ & a & rest & H & _)]; [done|]. exfalso. by apply (Hv a rest). }
  destruct authors as [| |b|n|s|[|a rest]|o]; try (apply Hnone; done).
  rewrite elem_of_when, Hnames. split.
  - intros [He ->]. right. split; [done|]. by exists a, rest.
  - intros [[_ Hno]|(-> & a' & rest' & [= <- <-] & He)]; [|done].
    exfalso. apply Hno. by exists a, rest.
Qed.

(** X1. The messages of a paper body none of whose authors is [null] or
    [undefined]: they come in the order of the checks, each at most once,
    and each exactly when its own field is at fault; in particular the two
    year messages never come together. *)
Theorem validatePaperInput_collects (paper : JsValue) :
  notNullish paper → authorsAreValues paper →
  ∃ errors,
    validatePaperInput paper = Return errors ∧
    sublist errors paperMessages ∧
    ("Title is required" ∈ errors ↔ ¬ nonBlankString (getProperty paper "title")) ∧
    ("Published venue is required" ∈ errors ↔
       ¬ nonBlankString (getProperty paper "publishedIn")) ∧
    ("Published year is required" ∈ errors ↔ ¬ notNullish (getProperty paper "year")) ∧
    ("Valid year after 1900 is required" ∈ errors ↔
       notNullish (getProperty paper "year") ∧
       ¬ integerAfter1900 (getProperty paper "year")) ∧
    ("At least one author is required" ∈ errors ↔
       ¬ ∃ a rest, getProperty paper "authors" = JsArr (a :: rest)) ∧
    ("Author name is required" ∈ errors ↔
       ∃ a rest, getProperty paper "authors" = JsArr (a :: rest) ∧
         Exists (fun x => ¬ nonBlankString (getProperty x "name")) (a :: rest)).
Proof.
  intros Hpaper Hvalues. eexists. split; [by apply validatePaperInput_shape|].
  split.
  { change paperMessages with
      (["Title is required"] ++ ["Published venue is required"] ++
       ["Published year is required"; "Valid year after 1900 is required"] ++
       ["At least one author is required"; "Author name is required"]).
    repeat apply sublist_app.
    - destruct (_ || _); [done|apply sublist_nil_l].
    - destruct (_ || _); [done|apply sublist_nil_l].
    - destruct (_ || _); [by apply sublist_skip, sublist_nil_l|].
      destruct (negb _); [by apply sublist_cons|apply sublist_nil_l].
    - destruct (getProperty paper "authors") as [| |b|n|s|[|a rest]|o];
        try (by apply sublist_skip, sublist_nil_l).
      destruct (existsb _ _); [by apply sublist_cons|apply sublist_nil_l]. }
  split; [|split; [|split; [|split; [|split]]]];
    rewrite !elem_of_app, !elem_of_when, elem_of_year_messages, elem_of_author_messages,
      !required_string_check;
    naive_solver.
Qed.

Lemma validatePaperInput_collects_witness :
  ∃ errors,
    validatePaperInput (bodyOfYear (JsNum (JInt 1900))) = Return errors ∧
    sublist errors paperMessages ∧
    ("Title is required" ∈ errors ↔
       ¬ nonBlankString (getProperty (bodyOfYear (JsNum (JInt 1900))) "title")) ∧
    ("Published venue is required" ∈ errors ↔
       ¬ nonBlankString (getProperty (bodyOfYear (JsNum (JInt 1900))) "publishedIn")) ∧
    ("Published year is required" ∈ errors ↔
       ¬ notNullish (getProperty (bodyOfYear (JsNum (JInt 1900))) "year")) ∧
    ("Valid year after 1900 is required" ∈ errors ↔
       notNullish (getProperty (bodyOfYear (JsNum (JInt 1900))) "year") ∧
       ¬ integerAfter1900 (getProperty (bodyOfYear (JsNum (JInt 1900))) "year")) ∧
    ("At least one author is required" ∈ errors ↔
       ¬ ∃ a rest, getProperty (bodyOfYear (JsNum (JInt 1900))) "authors" = JsArr (a :: rest)) ∧
    ("Author name is required" ∈ errors ↔
       ∃ a rest, getProperty (bodyOfYear (JsNum (JInt 1900))) "authors" = JsArr (a :: rest) ∧
         Exists (fun x => ¬ nonBlankString (getProperty x "name")) (a :: rest)).
Proof.
  apply (validatePaperInput_collects (bodyOfYear (JsNum (JInt 1900)))).
  - split; discriminate.
  - simpl. repeat constructor; discriminate.
Defined.

Example validatePaperInput_year_boundary :
  validatePaperInput (bodyOfYear (JsNum (JInt 1900))) =
    Return ["Valid year after 1900 is required"] ∧
  validatePaperInput (bodyOfYear (JsNum (JInt 1901))) = Return [] ∧
  validatePaperInput (bodyOfYear JsNull) = Return ["Published year is required"] ∧
  validatePaperInput (bodyOfYear (JsStr "2024")) =
    Return ["Valid year after 1900 is required"] ∧
  validatePaperInput (JsObj []) =
    Return ["Title is required"; "Published venue is required";
            "Published year is required"; "At least one author is required"].
Proof. repeat split; vm_compute; reflexivity. Qed.

Lemma authorNameErrors_stops_witness :
  authorNameErrors ([JsObj [("name", JsStr "John Doe")]] ++ JsObj [("name", JsStr " ")]
                      :: [JsNull; JsObj []])
  = Return ["Author name is required"].
Proof.
  apply (authorNameErrors_stops [JsObj [("name", JsStr "John Doe")]] [JsNull; JsObj []]
           (JsObj [("name", JsStr " ")])).
  - repeat constructor; try discriminate. exists "John Doe". split; [reflexivity|discriminate].
  - split; discriminate.
  - intros (s & Hs & Hne). vm_compute in Hs. injection Hs as <-. by apply Hne.
Defined.

(** *** Resolving the same authors again *)

(** The row of least identifier that passes a test is the first that the
    filtered, sorted table gives. *)
Lemma head_filter_is_least {A} (test : Z * A → bool) (table : gmap Z A) k v :
  table !! k = Some v → test (k, v) = true →
  (∀ j w, table !! j = Some w → test (j, w) = true → k <= j) →
  head (List.filter test (rowsAsc table)) = Some (k, v).
Proof.
  intros Hk Ht Hmin.
  destruct (head (List.filter test (rowsAsc table))) as [[k' v']|] eqn:Hhead.
  - apply head_filter_least in Hhead as (Hin & Ht' & Hmin'); [|apply rowsAsc_sorted].
    apply elem_of_rowsAsc in Hin.
    assert (k' = k) as ->.
    { specialize (Hmin k' v' Hin Ht').
      specialize (Hmin' (k, v) (proj2 (elem_of_rowsAsc table k v) Hk) Ht).
      simpl in Hmin'. lia. }
    rewrite Hk in Hin. by injection Hin as ->.
  - apply head_filter_None with (y := (k, v)) in Hhead; [congruence|].
    by apply elem_of_rowsAsc.
Qed.

(** The resolution loop, in a store whose author sequence is ahead of the
    identifiers in use: it returns, it only adds authors, at identifiers not
    below the sequence it started from, and in any store that holds the
    authors it leaves behind and nothing else below that sequence it returns
    the same identifiers without writing. *)
Lemma createPaper_authors_settles (inputs : list AuthorInput) acc (db : DB) :
  authorIdsBelowSeq db →
  ∃ ids db',
    createPaper_authors inputs acc db = (Return (acc ++ ids), db') ∧
    authorIdsBelowSeq db' ∧
    authors db ⊆ authors db' ∧
    papers db' = papers db ∧
    authorToPaper db' = authorToPaper db ∧
    paperSeq db' = paperSeq db ∧
    Forall2 (resolvedAs db') inputs ids ∧
    (∀ i, authors db !! i = None → is_Some (authors db' !! i) → authorSeq db <= i) ∧
    (∀ acc' d, authors db' ⊆ authors d →
       (∀ i, authors db !! i = None → is_Some (authors d !! i) → authorSeq db <= i) →
       createPaper_authors inputs acc' d = (Return (acc' ++ ids), d)).
Proof.
  revert acc db. induction inputs as [|a rest IH]; intros acc db Hwf.
  - exists [], db. rewrite app_nil_r.
    split; [done|]. split; [done|]. split; [done|]. split; [done|]. split; [done|].
    split; [done|]. split; [constructor|]. split.
    + intros i Hnone [row Hrow]. congruence.
    + intros acc' d _ _. simpl. by rewrite app_nil_r.
  - rewrite createPaper_authors_step.
    destruct (head (List.filter (authorMatches (candidateWhere a)) (rowsAsc (authors db))))
      as [[i row]|] eqn:Hhead.
    + pose proof Hhead as Hleast.
      apply head_filter_least in Hleast as (Hin & Hm & Hmin); [|apply rowsAsc_sorted].
      apply elem_of_rowsAsc in Hin. simpl in Hin.
      destruct (IH (acc ++ [i]) db Hwf)
        as (ids & db' & Hrun & Hwf' & Hsub & Hp & Hl & Hs & Hres & Hnew & Hstable).
      exists (i :: ids), db'. simpl in Hrun. rewrite <- app_assoc in Hrun.
      split; [done|]. split; [done|]. split; [done|]. split; [done|]. split; [done|].
      split; [done|]. split; [|split; [done|]].
      * constructor; [|done]. apply (resolvedAs_weaken db); [done|].
        exists row. split; [done|]. by apply authorMatches_candidate in Hm.
      * intros acc' d Hd Hext. rewrite createPaper_authors_step.
        assert (Hfirst : head (List.filter (authorMatches (candidateWhere a))
                                 (rowsAsc (authors d))) = Some (i, row)).
        { apply head_filter_is_least; [|done|].
          - eapply lookup_weaken; [exact Hin|]. by transitivity (authors db').
          - intros j w Hj Hjm. destruct (authors db !! j) as [w'|] eqn:Hdbj.
            + assert (authors d !! j = Some w') as Hw.
              { eapply lookup_weaken; [exact Hdbj|]. by transitivity (authors db'). }
              assert (w' = w) as -> by congruence.
              apply (Hmin (j, w)); [by apply elem_of_rowsAsc|done].
            + specialize (Hext j Hdbj (mk_is_Some _ _ Hj)).
              apply Hwf in Hin. simpl in Hin. lia. }
        rewrite Hfirst. simpl. rewrite (Hstable (acc' ++ [i]) d Hd Hext).
        by rewrite <- app_assoc.
    + assert (Hfree : authors db !! authorSeq db = None).
      { destruct (authors db !! authorSeq db) as [row|] eqn:Hrow; [|done].
        apply Hwf in Hrow. simpl in Hrow. lia. }
      rewrite Hfree.
      set (db1 := mkDB (<[authorSeq db := candidateRow a]> (authors db)) (papers db)
                    (authorToPaper db) (authorSeq db + 1) (paperSeq db)).
      assert (Hwf1 : authorIdsBelowSeq db1).
      { intros i row Hrow. simpl in *. apply lookup_insert_Some in Hrow as [[<- _]|[_ Hrow]].
        - lia.
        - apply Hwf in Hrow. simpl in Hrow. lia. }
      destruct (IH (acc ++ [authorSeq db]) db1 Hwf1)
        as (ids & db' & Hrun & Hwf' & Hsub & Hp & Hl & Hs & Hres & Hnew & Hstable).
      exists (authorSeq db :: ids), db'. rewrite <- app_assoc in Hrun.
      assert (Hsub1 : authors db ⊆ authors db1) by (by apply insert_subseteq).
      assert (Hrow1 : authors db1 !! authorSeq db = Some (candidateRow a))
        by apply lookup_insert_eq.
      split; [done|]. split; [done|]. split; [by transitivity (authors db1)|].
      split; [done|]. split; [done|]. split; [done|]. split; [|split].
      * constructor; [|done]. apply (resolvedAs_weaken db1); [done|].
        exists (candidateRow a). split; [done|].
        apply (authorMatches_candidate a (authorSeq db)), candidateRow_matches.
      * intros i Hnone Hsome. destruct (decide (i = authorSeq db)) as [->|Hne]; [lia|].
        assert (authorSeq db1 <= i); [|simpl in *; lia].
        apply Hnew; [|done]. simpl. by rewrite lookup_insert_ne.
      * intros acc' d Hd Hext. rewrite createPaper_authors_step.
        assert (Hfirst : head (List.filter (authorMatches (candidateWhere a))
                                 (rowsAsc (authors d)))
                         = Some (authorSeq db, candidateRow a)).
        { apply head_filter_is_least.
          - eapply lookup_weaken; [exact Hrow1|]. by transitivity (authors db').
          - apply candidateRow_matches.
          - intros j w Hj Hjm. destruct (authors db !! j) as [w'|] eqn:Hdbj.
            + exfalso.
              assert (authors d !! j = Some w') as Hw.
              { eapply lookup_weaken; [exact Hdbj|].
                transitivity (authors db1); [done|]. by transitivity (authors db'). }
              assert (w' = w) as -> by congruence.
              apply head_filter_None with (y := (j, w)) in Hhead; [congruence|].
              by apply elem_of_rowsAsc.
            + apply Hext; [done|by eexists]. }
        rewrite Hfirst. simpl.
        rewrite (Hstable (acc' ++ [authorSeq db]) d Hd); [by rewrite <- app_assoc|].
        intros i Hnone Hsome. simpl in Hnone.
        destruct (decide (i = authorSeq db)) as [->|Hne].
        -- by rewrite lookup_insert_eq in Hnone.
        -- rewrite lookup_insert_ne in Hnone by done.
           specialize (Hext i Hnone Hsome). simpl. lia.
Qed.

(** *** Writing a paper *)

(** [createPaper] in a store whose sequences are ahead of the identifiers in
    use: the authors are resolved, then the paper is stored under the next
    identifier and linked to them. *)
Lemma createPaper_run (db : DB) (paperData : PaperData) :
  authorIdsBelowSeq db → papers db !! paperSeq db = None →
  ∃ ids db1,
    createPaper_authors (dataAuthors paperData) [] db = (Return ids, db1) ∧
    authorIdsBelowSeq db1 ∧
    authors db ⊆ authors db1 ∧
    Forall2 (resolvedAs db1) (dataAuthors paperData) ids ∧
    (∀ i, authors db !! i = None → is_Some (authors db1 !! i) → authorSeq db <= i) ∧
    (∀ acc' d, authors db1 ⊆ authors d →
       (∀ i, authors db !! i = None → is_Some (authors d !! i) → authorSeq db <= i) →
       createPaper_authors (dataAuthors paperData) acc' d = (Return (acc' ++ ids), d)) ∧
    createPaper paperData db =
      (Return (includeAuthors
                 (mkDB (authors db1) (<[paperSeq db := paperRowOf paperData]> (papers db))
                    (authorToPaper db ∪ connectLinks (paperSeq db) ids)
                    (authorSeq db1) (paperSeq db + 1))
                 (paperSeq db, paperRowOf paperData)),
       mkDB (authors db1) (<[paperSeq db := paperRowOf paperData]> (papers db))
         (authorToPaper db ∪ connectLinks (paperSeq db) ids)
         (authorSeq db1) (paperSeq db + 1)).
Proof.
  intros Hwf Hfree.
  destruct (createPaper_authors_settles (dataAuthors paperData) [] db Hwf)
    as (ids & db1 & Hrun & Hwf1 & Hsub & Hp & Hl & Hs & Hres & Hnew & Hstable).
  simpl in Hrun. exists ids, db1.
  split; [done|]. split; [done|]. split; [done|]. split; [done|]. split; [done|].
  split; [done|].
  unfold createPaper, tryCatch, bind. rewrite Hrun.
  unfold paper_create. rewrite Hs, Hp, Hfree, (allExist_resolved _ _ _ Hres), Hl.
  reflexivity.
Qed.

(** [updatePaper] of a paper of the store, likewise. *)
Lemma updatePaper_run (db : DB) (id : Z) (paperData : PaperData) :
  authorIdsBelowSeq db → is_Some (papers db !! id) →
  ∃ ids db1,
    createPaper_authors (dataAuthors paperData) [] db = (Return ids, db1) ∧
    authorIdsBelowSeq db1 ∧
    authors db ⊆ authors db1 ∧
    Forall2 (resolvedAs db1) (dataAuthors paperData) ids ∧
    (∀ i, authors db !! i = None → is_Some (authors db1 !! i) → authorSeq db <= i) ∧
    (∀ acc' d, authors db1 ⊆ authors d →
       (∀ i, authors db !! i = None → is_Some (authors d !! i) → authorSeq db <= i) →
       createPaper_authors (dataAuthors paperData) acc' d = (Return (acc' ++ ids), d)) ∧
    updatePaper id paperData db =
      (Return (includeAuthors
                 (mkDB (authors db1) (<[id := paperRowOf paperData]> (papers db))
                    (filter (λ l : Z * Z, l.2 ≠ id) (authorToPaper db)
                       ∪ connectLinks id [] ∪ connectLinks id ids)
                    (authorSeq db1) (paperSeq db))
                 (id, paperRowOf paperData)),
       mkDB (authors db1) (<[id := paperRowOf paperData]> (papers db))
         (filter (λ l : Z * Z, l.2 ≠ id) (authorToPaper db)
            ∪ connectLinks id [] ∪ connectLinks id ids)
         (authorSeq db1) (paperSeq db)).
Proof.
  intros Hwf [old Hold].
  destruct (createPaper_authors_settles (dataAuthors paperData) [] db Hwf)
    as (ids & db1 & Hrun & Hwf1 & Hsub & Hp & Hl & Hs & Hres & Hnew & Hstable).
  simpl in Hrun. exists ids, db1.
  split; [done|]. split; [done|]. split; [done|]. split; [done|]. split; [done|].
  split; [done|].
  unfold updatePaper, bind. rewrite updatePaper_authors_eq, Hrun.
  unfold paper_update. rewrite Hp, Hold, (allExist_resolved _ _ _ Hres), Hl, Hs.
  reflexivity.
Qed.

(** [updatePaper] of a paper that the store does not hold: the authors are
    resolved all the same, then the update fails. *)
Lemma updatePaper_missing_run (db : DB) (id : Z) (paperData : PaperData) :
  authorIdsBelowSeq db → papers db !! id = None →
  ∃ ids db1,
    createPaper_authors (dataAuthors paperData) [] db = (Return ids, db1) ∧
    authorIdsBelowSeq db1 ∧
    authors db ⊆ authors db1 ∧
    papers db1 = papers db ∧
    authorToPaper db1 = authorToPaper db ∧
    paperSeq db1 = paperSeq db ∧
    Forall2 (resolvedAs db1) (dataAuthors paperData) ids ∧
    updatePaper id paperData db = (Throw (recordNotFound RECORD_TO_UPDATE), db1).
Proof.
  intros Hwf Hnone.
  destruct (createPaper_authors_settles (dataAuthors paperData) [] db Hwf)
    as (ids & db1 & Hrun & Hwf1 & Hsub & Hp & Hl & Hs & Hres & _).
  simpl in Hrun. exists ids, db1.
  split; [done|]. split; [done|]. split; [done|]. split; [done|]. split; [done|].
  split; [done|]. split; [done|].
  unfold updatePaper, bind. rewrite updatePaper_authors_eq, Hrun.
  unfold paper_update. by rewrite Hp, Hnone.
Qed.

Lemma paperSeq_free (db : DB) : paperIdsBelowSeq db → papers db !! paperSeq db = None.
Proof.
  intros Hwf. destruct (papers db !! paperSeq db) as [row|] eqn:Hrow; [|done].
  apply Hwf in Hrow. simpl in Hrow. lia.
Qed.

Lemma authorSeq_free (db : DB) : authorIdsBelowSeq db → authors db !! authorSeq db = None.
Proof.
  intros Hwf. destruct (authors db !! authorSeq db) as [row|] eqn:Hrow; [|done].
  apply Hwf in Hrow. simpl in Hrow. lia.
Qed.

Lemma no_link_to_missing_paper (db : DB) a p :
  linksResolve db → papers db !! p = None → (a, p) ∉ authorToPaper db.
Proof.
  intros Hlinks Hnone Hin. apply Hlinks in Hin as [_ [row Hrow]]. simpl in Hrow. congruence.
Qed.

Lemma no_link_of_missing_author (db : DB) a p :
  linksResolve db → authors db !! a = None → (a, p) ∉ authorToPaper db.
Proof.
  intros Hlinks Hnone Hin. apply Hlinks in Hin as [[row Hrow] _]. simpl in Hrow. congruence.
Qed.

Lemma resolved_exist (d : DB) (inputs : list AuthorInput) (ids : list Z) :
  Forall2 (resolvedAs d) inputs ids → ∀ a, a ∈ ids → is_Some (authors d !! a).
Proof.
  induction 1 as [|x i xs is' (r & Hr & _) _ IH]; intros a Ha; [inversion Ha|].
  apply elem_of_cons in Ha as [->|Ha]; [by eexists|by apply IH].
Qed.

Lemma resolved_in (d d' : DB) (inputs : list AuthorInput) (ids : list Z) :
  authors d ⊆ authors d' →
  Forall2 (resolvedAs d) inputs ids → Forall2 (resolvedAs d') inputs ids.
Proof.
  intros Hsub. induction 1; constructor; [|done]. by eapply resolvedAs_weaken.
Qed.


(** A paper that is stored with the data and linked to the authors the data
    resolve to is left as it is by [updatePaper]. *)
Lemma updatePaper_settled (d : DB) (id : Z) (paperData : PaperData) (ids : list Z) :
  createPaper_authors (dataAuthors paperData) [] d = (Return ids, d) →
  allExist d ids = true →
  papers d !! id = Some (paperRowOf paperData) →
  (∀ a, (a, id) ∈ authorToPaper d ↔ a ∈ ids) →
  updatePaper id paperData d = (Return (includeAuthors d (id, paperRowOf paperData)), d).
Proof.
  intros Hrun Hexist Hrow Hlinks.
  unfold updatePaper, bind. rewrite updatePaper_authors_eq, Hrun.
  unfold paper_update. rewrite Hrow, Hexist. simpl.
  assert (Hsame : mkDB (authors d)
                    (<[id := mkPaper (dataTitle paperData) (dataPublishedIn paperData)
                               (dataYear paperData)]> (papers d))
                    (filter (λ l : Z * Z, l.2 ≠ id) (authorToPaper d)
                       ∪ connectLinks id [] ∪ connectLinks id ids)
                    (authorSeq d) (paperSeq d) = d).
  { destruct d as [au pa li sa sp]; simpl in *. f_equal.
    - by apply insert_id.
    - apply set_eq. intros [a p].
      rewrite !elem_of_union, elem_of_filter, !elem_of_connectLinks. simpl. split.
      + intros [[[_ H]|[_ H]]|[-> H]]; [done|inversion H|by apply Hlinks].
      + intros H. destruct (decide (p = id)) as [->|Hne].
        * right. split; [done|]. by apply Hlinks.
        * left. left. done. }
  by rewrite Hsame.
Qed.



(** X5. Writing the same data again.  In a consistent store, updating the paper
    that [createPaper] has just returned with the data it was created from,
    and updating a paper a second time with the same data, return the same
    paper and leave the store as it is (the time stamps, which are not
    modelled, apart): the candidates resolve to the same authors and no
    author is created. *)
Theorem updatePaper_with_same_data (db : DB) (paperData : PaperData) :
  consistent db →
  (∃ created db',
     createPaper paperData db = (Return created, db') ∧
     updatePaper (paperId created) paperData db' = (Return created, db')) ∧
  (∀ id, is_Some (papers db !! id) →
     ∃ updated db',
       updatePaper id paperData db = (Return updated, db') ∧
       updatePaper id paperData db' = (Return updated, db')).
Proof.
  intros (Hwa & Hwp & Hlinks). split.
  - pose proof (paperSeq_free db Hwp) as Hfree.
    destruct (createPaper_run db paperData Hwa Hfree)
      as (ids & db1 & _ & _ & Hsub & Hres & Hnew & Hstable & Hrun).
    set (db2 := mkDB (authors db1) (<[paperSeq db := paperRowOf paperData]> (papers db))
                  (authorToPaper db ∪ connectLinks (paperSeq db) ids)
                  (authorSeq db1) (paperSeq db + 1)) in *.
    exists (includeAuthors db2 (paperSeq db, paperRowOf paperData)), db2.
    split; [done|].
    apply (updatePaper_settled db2 (paperSeq db) paperData ids).
    + apply (Hstable [] db2); done.
    + by apply (allExist_resolved db2 (dataAuthors paperData)).
    + apply lookup_insert_eq.
    + intros a. simpl. rewrite elem_of_union, elem_of_connectLinks. split.
      * intros [Hin|[_ Hin]]; [|done]. by apply no_link_to_missing_paper in Hin.
      * intros Hin. by right.
  - intros id Hid.
    destruct (updatePaper_run db id paperData Hwa Hid)
      as (ids & db1 & _ & _ & Hsub & Hres & Hnew & Hstable & Hrun).
    set (db2 := mkDB (authors db1) (<[id := paperRowOf paperData]> (papers db))
                  (filter (λ l : Z * Z, l.2 ≠ id) (authorToPaper db)
                     ∪ connectLinks id [] ∪ connectLinks id ids)
                  (authorSeq db1) (paperSeq db)) in *.
    exists (includeAuthors db2 (id, paperRowOf paperData)), db2.
    split; [done|].
    apply (updatePaper_settled db2 id paperData ids).
    + apply (Hstable [] db2); done.
    + by apply (allExist_resolved db2 (dataAuthors paperData)).
    + apply lookup_insert_eq.
    + intros a. simpl. rewrite !elem_of_union, elem_of_filter, !elem_of_connectLinks.
      simpl. split.
      * intros [[[Hne _]|[_ Hin]]|[_ Hin]]; [done|inversion Hin|done].
      * intros Hin. by right.
Qed.

Lemma updatePaper_with_same_data_witness :
  (∃ created db',
     createPaper paper1Revised seededStore = (Return created, db') ∧
     updatePaper (paperId created) paper1Revised db' = (Return created, db')) ∧
  (∀ id, is_Some (papers seededStore !! id) →
     ∃ updated db',
       updatePaper id paper1Revised seededStore = (Return updated, db') ∧
       updatePaper id paper1Revised db' = (Return updated, db')).
Proof.
  apply (updatePaper_with_same_data seededStore paper1Revised).
  by_evaluation (consistent seededStore).
Defined.

(** X6. Updating a paper that does not exist.  In a store whose author sequence
    is ahead of the identifiers in use, [updatePaper] with an identifier
    that no paper has fails with the client's record-not-found error (code
    P2025), after the loop over the authors has run: papers and links are
    as before, but every candidate of the data now resolves to a stored
    author, those that matched none having been created. *)
Theorem updatePaper_missing_creates_authors (db : DB) (id : Z) (paperData : PaperData) :
  authorIdsBelowSeq db → papers db !! id = None →
  ∃ message ids db',
    updatePaper id paperData db = (Throw (recordNotFound message), db') ∧
    papers db' = papers db ∧
    authorToPaper db' = authorToPaper db ∧
    authors db ⊆ authors db' ∧
    Forall2 (resolvedAs db') (dataAuthors paperData) ids ∧
    (∀ a, a ∈ dataAuthors paperData → (∀ j, ¬ resolvedAs db a j) →
       authors db' ≠ authors db).
Proof.
  intros Hwf Hnone.
  destruct (updatePaper_missing_run db id paperData Hwf Hnone)
    as (ids & db1 & _ & _ & Hsub & Hp & Hl & _ & Hres & Hrun).
  exists RECORD_TO_UPDATE, ids, db1.
  split; [done|]. split; [done|]. split; [done|]. split; [done|]. split; [done|].
  intros a Ha Hno Heq.
  assert (∃ i, resolvedAs db1 a i) as (i & row & Hrow & Hm).
  { clear -Hres Ha. induction Hres as [|x i xs is' Hx _ IH]; [inversion Ha|].
    apply elem_of_cons in Ha as [->|Ha]; [by exists i|by apply IH]. }
  apply (Hno i). exists row. by rewrite <- Heq.
Qed.

Lemma updatePaper_missing_creates_authors_witness :
  ∃ message ids db',
    updatePaper 9 paper1Revised seededStore = (Throw (recordNotFound message), db') ∧
    papers db' = papers seededStore ∧
    authorToPaper db' = authorToPaper seededStore ∧
    authors seededStore ⊆ authors db' ∧
    Forall2 (resolvedAs db') (dataAuthors paper1Revised) ids ∧
    (∀ a, a ∈ dataAuthors paper1Revised → (∀ j, ¬ resolvedAs seededStore a j) →
       authors db' ≠ authors seededStore).
Proof.
  apply (updatePaper_missing_creates_authors seededStore 9 paper1Revised).
  - by_evaluation (authorIdsBelowSeq seededStore).
  - reflexivity.
Defined.

Example updatePaper_missing_sample :
  authors (updatePaper 9 paper1Revised seededStore).2 !! 6 = Some (candidateRow danaWhite) ∧
  authors seededStore !! 6 = None ∧
  papers (updatePaper 9 paper1Revised seededStore).2 = papers seededStore.
Proof. repeat split; vm_compute; reflexivity. Qed.

(** *** What the operations keep *)

Lemma getAllPapers_store (filters : PaperFilters) (db : DB) :
  (getAllPapers filters db).2 = db.
Proof. rewrite getAllPapers_run. by destruct (slice _ _ _). Qed.

Lemma getAllAuthors_store (filters : AuthorFilters) (db : DB) :
  (getAllAuthors filters db).2 = db.
Proof. rewrite getAllAuthors_run. by destruct (slice _ _ _). Qed.

Lemma createPaper_consistent (db : DB) (paperData : PaperData) :
  consistent db → consistent (createPaper paperData db).2.
Proof.
  intros (Hwa & Hwp & Hlinks).
  destruct (createPaper_run db paperData Hwa (paperSeq_free db Hwp))
    as (ids & db1 & _ & Hwa1 & Hsub & Hres & _ & _ & ->).
  simpl. split; [exact Hwa1|]. split.
  - intros i row Hrow. simpl in *. apply lookup_insert_Some in Hrow as [[<- _]|[_ Hrow]].
    + lia.
    + apply Hwp in Hrow. simpl in Hrow. lia.
  - intros [a p] Hin. simpl in *. apply elem_of_union in Hin as [Hin|Hin].
    + apply Hlinks in Hin as [[r Hr] Hp]. simpl in *. split.
      * exists r. by eapply lookup_weaken.
      * apply lookup_insert_is_Some. destruct (decide (paperSeq db = p)); auto.
    + apply elem_of_connectLinks in Hin as [-> Hin]. split.
      * exact (resolved_exist db1 (dataAuthors paperData) ids Hres a Hin).
      * rewrite lookup_insert_eq. by eexists.
Qed.

Lemma updatePaper_consistent (db : DB) (id : Z) (paperData : PaperData) :
  consistent db → consistent (updatePaper id paperData db).2.
Proof.
  intros (Hwa & Hwp & Hlinks).
  destruct (papers db !! id) as [old|] eqn:Hold.
  - destruct (updatePaper_run db id paperData Hwa (mk_is_Some _ _ Hold))
      as (ids & db1 & _ & Hwa1 & Hsub & Hres & _ & _ & ->).
    simpl. split; [exact Hwa1|]. split.
    + intros i row Hrow. simpl in *. apply lookup_insert_Some in Hrow as [[<- _]|[_ Hrow]].
      * apply Hwp in Hold. done.
      * apply Hwp in Hrow. done.
    + intros [a p] Hin. simpl in *.
      rewrite !elem_of_union, elem_of_filter, !elem_of_connectLinks in Hin.
      destruct Hin as [[[_ Hin]|[_ Hin]]|[-> Hin]]; [|inversion Hin|].
      * apply Hlinks in Hin as [[r Hr] Hp]. simpl in *. split.
        -- exists r. by eapply lookup_weaken.
        -- apply lookup_insert_is_Some. destruct (decide (id = p)); auto.
      * split.
        -- exact (resolved_exist db1 (dataAuthors paperData) ids Hres a Hin).
        -- rewrite lookup_insert_eq. by eexists.
  - destruct (updatePaper_missing_run db id paperData Hwa Hold)
      as (ids & db1 & _ & Hwa1 & Hsub & Hp & Hl & Hs & _ & ->).
    simpl. split; [exact Hwa1|]. split.
    + unfold paperIdsBelowSeq. by rewrite Hp, Hs.
    + intros [a p] Hin. rewrite Hl in Hin. apply Hlinks in Hin as [[r Hr] Hpa]. simpl in *.
      split; [|by rewrite Hp]. exists r. by eapply lookup_weaken.
Qed.

Lemma deletePaper_consistent (db : DB) (id : Z) :
  consistent db → consistent (deletePaper id db).2.
Proof.
  intros (Hwa & Hwp & Hlinks). unfold deletePaper, paper_delete.
  destruct (papers db !! id) as [row|] eqn:Hrow; [|done].
  simpl. split; [exact Hwa|]. split.
  - intros i r Hr. simpl in *. apply lookup_delete_Some in Hr as [_ Hr]. by apply Hwp in Hr.
  - intros [a p] Hin. simpl in *. apply elem_of_filter in Hin as [Hne Hin]. simpl in Hne.
    apply Hlinks in Hin as [Ha Hp]. simpl in *. split; [done|].
    by rewrite lookup_delete_ne.
Qed.

Lemma author_delete_consistent (db : DB) (id : Z) :
  consistent db → consistent (author_delete id db).2.
Proof.
  intros (Hwa & Hwp & Hlinks). unfold author_delete.
  destruct (authors db !! id) as [row|] eqn:Hrow; [|done].
  simpl. split; [|split; [exact Hwp|]].
  - intros i r Hr. simpl in *. apply lookup_delete_Some in Hr as [_ Hr]. by apply Hwa in Hr.
  - intros [a p] Hin. simpl in *. apply elem_of_filter in Hin as [Hne Hin]. simpl in Hne.
    apply Hlinks in Hin as [Ha Hp]. simpl in *. split; [|done].
    by rewrite lookup_delete_ne.
Qed.

Lemma deleteAuthor_consistent (db : DB) (id : Z) :
  consistent db → consistent (deleteAuthor id db).2.
Proof.
  intros Hc. rewrite deleteAuthor_unfold.
  destruct (List.filter _ _); [by apply author_delete_consistent|done].
Qed.

Lemma createAuthor_run (db : DB) (authorData : AuthorInput) :
  authorIdsBelowSeq db →
  createAuthor authorData db =
    (Return (includePapers
               (mkDB (<[authorSeq db := candidateRow authorData]> (authors db)) (papers db)
                  (authorToPaper db) (authorSeq db + 1) (paperSeq db))
               (authorSeq db, candidateRow authorData)),
     mkDB (<[authorSeq db := candidateRow authorData]> (authors db)) (papers db)
       (authorToPaper db) (authorSeq db + 1) (paperSeq db)).
Proof.
  intros Hwa. unfold createAuthor, author_createIncluding, author_create.
  by rewrite (authorSeq_free db Hwa).
Qed.

Lemma createAuthor_consistent (db : DB) (authorData : AuthorInput) :
  consistent db → consistent (createAuthor authorData db).2.
Proof.
  intros (Hwa & Hwp & Hlinks). rewrite (createAuthor_run db authorData Hwa).
  simpl. split; [|split; [exact Hwp|]].
  - intros i row Hrow. simpl in *. apply lookup_insert_Some in Hrow as [[<- _]|[_ Hrow]].
    + lia.
    + apply Hwa in Hrow. simpl in Hrow. lia.
  - intros [a p] Hin. simpl in *. apply Hlinks in Hin as [Ha Hp]. simpl in *.
    split; [|done]. apply lookup_insert_is_Some. destruct (decide (authorSeq db = a)); auto.
Qed.

Lemma updateAuthor_consistent (db : DB) (id : Z) (authorData : AuthorInput) :
  consistent db → consistent (updateAuthor id authorData db).2.
Proof.
  intros (Hwa & Hwp & Hlinks). unfold updateAuthor, author_update.
  destruct (authors db !! id) as [row|] eqn:Hrow; [|done].
  simpl. split; [|split; [exact Hwp|]].
  - intros i r Hr. simpl in *. apply lookup_insert_Some in Hr as [[<- _]|[_ Hr]].
    + by apply Hwa in Hrow.
    + by apply Hwa in Hr.
  - intros [a p] Hin. simpl in *. apply Hlinks in Hin as [Ha Hp]. simpl in *.
    split; [|done]. apply lookup_insert_is_Some. destruct (decide (id = a)); auto.
Qed.

Lemma storeAfter_consistent (call : Call) (db : DB) :
  consistent db → consistent (storeAfter call db).
Proof.
  intros Hc. destruct call; simpl.
  - by apply createPaper_consistent.
  - by rewrite getAllPapers_store.
  - done.
  - by apply updatePaper_consistent.
  - by apply deletePaper_consistent.
  - by apply createAuthor_consistent.
  - by rewrite getAllAuthors_store.
  - done.
  - by apply updateAuthor_consistent.
  - by apply deleteAuthor_consistent.
Qed.

Lemma has_author_intro (db : DB) (paper a : Z) (row : AuthorRow) :
  authors db !! a = Some row → (a, paper) ∈ authorToPaper db → authorsOf db paper ≠ [].
Proof.
  intros Hrow Hlink Hnil.
  assert (Hin : (a, row) ∈ authorsOf db paper) by (by apply authorsOf_elem).
  rewrite Hnil in Hin. inversion Hin.
Qed.

Lemma has_author_elim (db : DB) (paper : Z) :
  authorsOf db paper ≠ [] →
  ∃ a row, authors db !! a = Some row ∧ (a, paper) ∈ authorToPaper db.
Proof.
  destruct (authorsOf db paper) as [|[a row] rest] eqn:Hl; [done|]. intros _.
  assert (Hin : (a, row) ∈ authorsOf db paper) by (rewrite Hl; left).
  apply authorsOf_elem in Hin as [Hrow Hlink]. eauto.
Qed.

(** A deletion that [deleteAuthor] lets through leaves no paper without an
    author: every paper had a linked author other than the one deleted. *)
Lemma deleteAuthor_leaves_authors (db db' : DB) (id : Z) :
  deleteAuthor id db = (Return tt, db') → everyPaperHasAnAuthor db'.
Proof.
  rewrite deleteAuthor_unfold.
  destruct (List.filter (paperMatches db (everyAuthorIs id)) (rowsAsc (papers db)))
    as [|x rest] eqn:Hf; [|discriminate].
  unfold author_delete. destruct (authors db !! id) as [row|] eqn:Hrow; [|discriminate].
  intros [= <-]. intros paper prow Hp. simpl in Hp.
  assert (Hm : paperMatches db (everyAuthorIs id) (paper, prow) = false).
  { destruct (paperMatches db (everyAuthorIs id) (paper, prow)) eqn:Hm; [|done].
    assert (Hin : (paper, prow) ∈ List.filter (paperMatches db (everyAuthorIs id))
                                   (rowsAsc (papers db))).
    { apply list_elem_of_In, List.filter_In. split; [|done].
      by apply list_elem_of_In, elem_of_rowsAsc. }
    rewrite Hf in Hin. inversion Hin. }
  destruct (decide (Forall (λ a : Z * AuthorRow, a.1 = id) (authorsOf db paper)))
    as [Hall|Hsome].
  - exfalso. assert (paperMatches db (everyAuthorIs id) (paper, prow) = true); [|congruence].
    apply everyAuthorIs_matches. intros a Ha. simpl in Ha.
    rewrite Forall_forall in Hall. by apply Hall.
  - apply not_Forall_Exists in Hsome; [|apply _].
    apply Exists_exists in Hsome as ([a arow] & Ha & Hne). simpl in Hne.
    apply authorsOf_elem in Ha as [Harow Hlink]. simpl in *.
    apply (has_author_intro _ paper a arow); simpl.
    + by rewrite lookup_delete_ne.
    + apply elem_of_filter. done.
Qed.

Lemma createPaper_keeps_authored (db : DB) (paperData : PaperData) :
  consistent db → dataAuthors paperData ≠ [] →
  everyPaperHasAnAuthor db → everyPaperHasAnAuthor (createPaper paperData db).2.
Proof.
  intros (Hwa & Hwp & Hlinks) Hne Hall.
  destruct (createPaper_run db paperData Hwa (paperSeq_free db Hwp))
    as (ids & db1 & _ & _ & Hsub & Hres & _ & _ & ->).
  intros paper prow Hp. simpl in *.
  apply lookup_insert_Some in Hp as [[<- _]|[_ Hp]].
  - destruct Hres as [|x i xs is' (r & Hr & _) _]; [done|].
    apply (has_author_intro _ _ i r); simpl; [done|].
    apply elem_of_union. right. apply elem_of_connectLinks. split; [done|left].
  - apply Hall, has_author_elim in Hp as (a & r & Hr & Hlink).
    apply (has_author_intro _ _ a r); simpl.
    + by eapply lookup_weaken.
    + apply elem_of_union. by left.
Qed.

Lemma updatePaper_keeps_authored (db : DB) (id : Z) (paperData : PaperData) :
  authorIdsBelowSeq db → dataAuthors paperData ≠ [] →
  everyPaperHasAnAuthor db → everyPaperHasAnAuthor (updatePaper id paperData db).2.
Proof.
  intros Hwa Hne Hall.
  destruct (papers db !! id) as [old|] eqn:Hold.
  - destruct (updatePaper_run db id paperData Hwa (mk_is_Some _ _ Hold))
      as (ids & db1 & _ & _ & Hsub & Hres & _ & _ & ->).
    intros paper prow Hp. simpl in *.
    destruct (decide (paper = id)) as [->|Hother].
    + destruct Hres as [|x i xs is' (r & Hr & _) _]; [done|].
      apply (has_author_intro _ _ i r); simpl; [done|].
      apply elem_of_union. right. apply elem_of_connectLinks. split; [done|left].
    + rewrite lookup_insert_ne in Hp by done.
      apply Hall, has_author_elim in Hp as (a & r & Hr & Hlink).
      apply (has_author_intro _ _ a r); simpl.
      * by eapply lookup_weaken.
      * apply elem_of_union. left. apply elem_of_union. left.
        apply elem_of_filter. done.
  - destruct (updatePaper_missing_run db id paperData Hwa Hold)
      as (ids & db1 & _ & _ & Hsub & Hp & Hl & _ & _ & ->).
    intros paper prow Hrow. simpl in *. rewrite Hp in Hrow.
    apply Hall, has_author_elim in Hrow as (a & r & Hr & Hlink).
    apply (has_author_intro _ _ a r); [by eapply lookup_weaken|by rewrite Hl].
Qed.

Lemma deletePaper_keeps_authored (db : DB) (id : Z) :
  everyPaperHasAnAuthor db → everyPaperHasAnAuthor (deletePaper id db).2.
Proof.
  intros Hall. unfold deletePaper, paper_delete.
  destruct (papers db !! id) as [row|] eqn:Hrow; [|done].
  intros paper prow Hp. simpl in *. apply lookup_delete_Some in Hp as [Hne Hp].
  apply Hall, has_author_elim in Hp as (a & r & Hr & Hlink).
  apply (has_author_intro _ _ a r); simpl; [done|].
  apply elem_of_filter. done.
Qed.

Lemma deleteAuthor_keeps_authored (db : DB) (id : Z) :
  everyPaperHasAnAuthor db → everyPaperHasAnAuthor (deleteAuthor id db).2.
Proof.
  intros Hall. destruct (deleteAuthor id db) as [[[]|e] db'] eqn:Hrun.
  - by apply (deleteAuthor_leaves_authors db db' id).
  - rewrite deleteAuthor_unfold in Hrun.
    destruct (List.filter _ _); [|by injection Hrun as _ <-].
    unfold author_delete in Hrun. destruct (authors db !! id); [discriminate|].
    by injection Hrun as _ <-.
Qed.

Lemma createAuthor_keeps_authored (db : DB) (authorData : AuthorInput) :
  authorIdsBelowSeq db →
  everyPaperHasAnAuthor db → everyPaperHasAnAuthor (createAuthor authorData db).2.
Proof.
  intros Hwa Hall. rewrite (createAuthor_run db authorData Hwa).
  intros paper prow Hp. simpl in *.
  apply Hall, has_author_elim in Hp as (a & r & Hr & Hlink).
  apply (has_author_intro _ _ a r); simpl; [|done].
  assert (a ≠ authorSeq db).
  { intros ->. rewrite (authorSeq_free db Hwa) in Hr. discriminate. }
  by rewrite lookup_insert_ne.
Qed.

Lemma updateAuthor_keeps_authored (db : DB) (id : Z) (authorData : AuthorInput) :
  everyPaperHasAnAuthor db → everyPaperHasAnAuthor (updateAuthor id authorData db).2.
Proof.
  intros Hall. unfold updateAuthor, author_update.
  destruct (authors db !! id) as [row|] eqn:Hrow; [|done].
  intros paper prow Hp. simpl in *.
  apply Hall, has_author_elim in Hp as (a & r & Hr & Hlink).
  destruct (decide (a = id)) as [->|Hne].
  - eapply (has_author_intro _ _ id); simpl; [apply lookup_insert_eq|done].
  - apply (has_author_intro _ _ a r); simpl; [by rewrite lookup_insert_ne|done].
Qed.

Lemma storeAfter_keeps_authored (call : Call) (db : DB) :
  asValidated call → consistent db →
  everyPaperHasAnAuthor db → everyPaperHasAnAuthor (storeAfter call db).
Proof.
  intros Hv Hc Hall. pose proof Hc as (Hwa & _ & _). destruct call; simpl in *.
  - by apply createPaper_keeps_authored.
  - by rewrite getAllPapers_store.
  - done.
  - by apply updatePaper_keeps_authored.
  - by apply deletePaper_keeps_authored.
  - by apply createAuthor_keeps_authored.
  - by rewrite getAllAuthors_store.
  - done.
  - by apply updateAuthor_keeps_authored.
  - by apply deleteAuthor_keeps_authored.
Qed.

(** X7. The stores the operations build.  Whatever sequence of calls of the
    operations of [database.js] is run from the empty store, each returning
    or throwing, the store stays consistent: both sequences are ahead of the
    identifiers in use and every link joins an author of the store to a
    paper of the store.  If moreover every paper is written with at least
    one author, as the routes do, every paper of the store has at least one
    linked author. *)
Theorem stores_stay_consistent (calls : list Call) :
  consistent (storeAfterAll calls emptyStore) ∧
  (Forall asValidated calls → everyPaperHasAnAuthor (storeAfterAll calls emptyStore)).
Proof.
  assert (Hgen : ∀ db, consistent db →
            consistent (storeAfterAll calls db) ∧
            (Forall asValidated calls → everyPaperHasAnAuthor db →
               everyPaperHasAnAuthor (storeAfterAll calls db))).
  { induction calls as [|call rest IH]; intros db Hc; [done|].
    simpl. destruct (IH (storeAfter call db) (storeAfter_consistent call db Hc)) as [H1 H2].
    split; [done|]. intros Hv Hall. apply Forall_cons in Hv as [Hcall Hrest].
    apply H2; [done|]. by apply storeAfter_keeps_authored. }
  destruct (Hgen emptyStore) as [H1 H2].
  - by_evaluation (consistent emptyStore).
  - split; [done|]. intros Hv. apply H2; [done|].
    by_evaluation (everyPaperHasAnAuthor emptyStore).
Qed.

Example seededStore_reached :
  storeAfterAll [CreatePaper paper1; CreatePaper paper2; CreatePaper paper3] emptyStore
  = seededStore.
Proof. vm_compute. reflexivity. Qed.

(** X8. Deleting an author never orphans a paper.  Whatever the store, when
    [deleteAuthor] returns, every paper of the store it leaves has at least
    one linked author: the guard lets the deletion through only if every
    paper has a linked author other than the one deleted. *)
Theorem deleteAuthor_never_orphans (db db' : DB) (id : Z) :
  deleteAuthor id db = (Return tt, db') →
  everyPaperHasAnAuthor db' ∧
  (∀ paper, is_Some (papers db !! paper) →
     ∃ a, a ∈ authorsOf db paper ∧ a.1 ≠ id ∧ a ∈ authorsOf db' paper).
Proof.
  intros Hrun. split; [by apply (deleteAuthor_leaves_authors db db' id)|].
  intros paper [prow Hp].
  pose proof Hrun as Hrun'. rewrite deleteAuthor_unfold in Hrun'.
  destruct (List.filter (paperMatches db (everyAuthorIs id)) (rowsAsc (papers db)))
    as [|x rest] eqn:Hf; [|discriminate].
  unfold author_delete in Hrun'.
  destruct (authors db !! id) as [row|] eqn:Hrow; [|discriminate].
  injection Hrun' as <-.
  destruct (decide (Forall (λ a : Z * AuthorRow, a.1 = id) (authorsOf db paper)))
    as [Hall|Hsome].
  - exfalso.
    assert (Hin : (paper, prow) ∈ List.filter (paperMatches db (everyAuthorIs id))
                                   (rowsAsc (papers db))).
    { apply list_elem_of_In, List.filter_In. split.
      - by apply list_elem_of_In, elem_of_rowsAsc.
      - apply everyAuthorIs_matches. intros a Ha. rewrite Forall_forall in Hall.
        by apply Hall. }
    rewrite Hf in Hin. inversion Hin.
  - apply not_Forall_Exists in Hsome; [|apply _].
    apply Exists_exists in Hsome as (a & Ha & Hne).
    exists a. split; [done|]. split; [done|].
    apply authorsOf_elem in Ha as [Harow Hlink].
    apply authorsOf_elem. simpl. split.
    + by rewrite lookup_delete_ne.
    + apply elem_of_filter. done.
Qed.

Lemma deleteAuthor_never_orphans_witness :
  everyPaperHasAnAuthor (withoutAuthor soleAuthorStore 2) ∧
  (∀ paper, is_Some (papers soleAuthorStore !! paper) →
     ∃ a, a ∈ authorsOf soleAuthorStore paper ∧ a.1 ≠ 2 ∧
          a ∈ authorsOf (withoutAuthor soleAuthorStore 2) paper).
Proof.
  apply (deleteAuthor_never_orphans soleAuthorStore (withoutAuthor soleAuthorStore 2) 2).
  vm_compute. reflexivity.
Defined.

(** *** Reading back what was written *)

(** X9. Papers.  Whatever the store: the paper [createPaper] returns is the one
    [getPaperById] then gives for its identifier; the paper [updatePaper]
    returns carries the identifier asked for and is the one [getPaperById]
    then gives; after a [deletePaper] that returned, [getPaperById] gives
    [null] for the identifier and a second [deletePaper] fails with the
    record-not-found error, the store staying as it is. *)
Theorem getPaperById_after_writing (db : DB) :
  (∀ paperData created db',
     createPaper paperData db = (Return created, db') →
     getPaperById (paperId created) db' = (Return (Some created), db')) ∧
  (∀ id paperData updated db',
     updatePaper id paperData db = (Return updated, db') →
     paperId updated = id ∧ getPaperById id db' = (Return (Some updated), db')) ∧
  (∀ id db',
     deletePaper id db = (Return tt, db') →
     getPaperById id db' = (Return None, db') ∧
     deletePaper id db' = (Throw (recordNotFound RECORD_TO_DELETE), db')).
Proof.
  split; [|split].
  - intros paperData created db'. unfold createPaper, tryCatch, bind.
    destruct (createPaper_authors (dataAuthors paperData) [] db) as [[ids|e] db1];
      [|discriminate].
    unfold paper_create.
    destruct (papers db1 !! paperSeq db1); [discriminate|].
    destruct (negb (allExist db1 ids)); [discriminate|].
    intros [= <- <-]. unfold getPaperById, paper_findUnique. simpl.
    by rewrite lookup_insert_eq.
  - intros id paperData updated db'. unfold updatePaper, bind.
    destruct (updatePaper_authors (dataAuthors paperData) [] db) as [[ids|e] db1];
      [|discriminate].
    unfold paper_update.
    destruct (papers db1 !! id); [|discriminate].
    destruct (negb (allExist db1 [] && allExist db1 ids)); [discriminate|].
    intros [= <- <-]. split; [done|]. unfold getPaperById, paper_findUnique. simpl.
    by rewrite lookup_insert_eq.
  - intros id db'. unfold deletePaper, paper_delete.
    destruct (papers db !! id); [|discriminate].
    intros [= <-]. unfold getPaperById, paper_findUnique. simpl.
    by rewrite lookup_delete_eq.
Qed.

Lemma getPaperById_after_writing_witness :
  getPaperById 4 (createPaper paper4 seededStore).2
  = (Return (Some (mkPaperWithAuthors 4 (paperRowOf paper4) [(1, candidateRow johnDoe)])),
     (createPaper paper4 seededStore).2).
Proof.
  apply (proj1 (getPaperById_after_writing seededStore) paper4
           (mkPaperWithAuthors 4 (paperRowOf paper4) [(1, candidateRow johnDoe)])).
  vm_compute. reflexivity.
Defined.

(** *** Authors *)

Lemma filter_none {A} (test : A → bool) (l : list A) :
  (∀ x, x ∈ l → test x = false) → List.filter test l = [].
Proof.
  induction l as [|x l IH]; intros H; [done|]. simpl.
  rewrite (H x) by left. apply IH. intros y Hy. apply H. by right.
Qed.

Lemma papersOf_unlinked (db : DB) (author : Z) :
  (∀ p, (author, p) ∉ authorToPaper db) → papersOf db author = [].
Proof.
  intros Hno. apply filter_none. intros p _. apply bool_decide_eq_false, Hno.
Qed.

(** X10. Creating an author.  In a consistent store, [createAuthor] stores a new
    record under the next identifier of the author sequence, which no
    author had, with the name given and the email and affiliation given
    (nothing for a field that is [null] or absent), and returns it with no
    paper; papers, links and the other authors are untouched.  Unlike the
    resolution of a paper's authors it never reuses a record: called again
    with the same data it stores a second record, equal in all three
    fields, under another identifier. *)
Theorem createAuthor_adds_a_record (db : DB) (authorData : AuthorInput) :
  consistent db →
  ∃ created db',
    createAuthor authorData db = (Return created, db') ∧
    authorId created = authorSeq db ∧
    authors db !! authorSeq db = None ∧
    authorRow created = candidateRow authorData ∧
    authorPapers created = [] ∧
    authors db' = <[authorSeq db := candidateRow authorData]> (authors db) ∧
    papers db' = papers db ∧
    authorToPaper db' = authorToPaper db ∧
    ∃ again db'',
      createAuthor authorData db' = (Return again, db'') ∧
      authorId again ≠ authorId created ∧
      authorRow again = authorRow created ∧
      authors db'' !! authorId created = Some (candidateRow authorData) ∧
      authors db'' !! authorId again = Some (candidateRow authorData).
Proof.
  intros Hc. pose proof Hc as (Hwa & Hwp & Hlinks).
  pose proof (authorSeq_free db Hwa) as Hfree.
  pose proof (createAuthor_consistent db authorData Hc) as Hc'.
  rewrite (createAuthor_run db authorData Hwa) in Hc'. simpl in Hc'.
  destruct Hc' as (Hwa' & _ & _).
  eexists _, _. split; [by apply createAuthor_run|]. simpl.
  split; [done|]. split; [done|]. split; [done|]. split.
  { apply papersOf_unlinked. intros p. simpl. by apply no_link_of_missing_author. }
  split; [done|]. split; [done|]. split; [done|].
  eexists _, _. split; [by apply createAuthor_run|]. simpl.
  split; [lia|]. split; [done|]. split.
  - rewrite lookup_insert_ne by lia. apply lookup_insert_eq.
  - apply lookup_insert_eq.
Qed.

Lemma createAuthor_adds_a_record_witness :
  ∃ created db',
    createAuthor johnDoe seededStore = (Return created, db') ∧
    authorId created = authorSeq seededStore ∧
    authors seededStore !! authorSeq seededStore = None ∧
    authorRow created = candidateRow johnDoe ∧
    authorPapers created = [] ∧
    authors db' = <[authorSeq seededStore := candidateRow johnDoe]> (authors seededStore) ∧
    papers db' = papers seededStore ∧
    authorToPaper db' = authorToPaper seededStore ∧
    ∃ again db'',
      createAuthor johnDoe db' = (Return again, db'') ∧
      authorId again ≠ authorId created ∧
      authorRow again = authorRow created ∧
      authors db'' !! authorId created = Some (candidateRow johnDoe) ∧
      authors db'' !! authorId again = Some (candidateRow johnDoe).
Proof.
  apply (createAuthor_adds_a_record seededStore johnDoe).
  by_evaluation (consistent seededStore).
Defined.

(** X11. Updating an author.  [updateAuthor] of an author of the store sets the
    name, and each of email and affiliation as the data give it: a field
    that is absent keeps what is stored, [null] empties it, a string
    replaces it.  The identifier, the papers of the author and every link
    are as before, and so are all other authors; the author is returned
    with its papers.  For an identifier that no author has, it fails with
    the record-not-found error and the store is as it was. *)
Theorem updateAuthor_changes_fields_only (db : DB) (id : Z) (authorData : AuthorInput) :
  (∀ row, authors db !! id = Some row →
     ∃ updated db',
       updateAuthor id authorData db = (Return updated, db') ∧
       authorId updated = id ∧
       authorName (authorRow updated) = inputName authorData ∧
       keptOrSet (inputEmail authorData) (authorEmail row)
         (authorEmail (authorRow updated)) ∧
       keptOrSet (inputAffiliation authorData) (authorAffiliation row)
         (authorAffiliation (authorRow updated)) ∧
       authors db' = <[id := authorRow updated]> (authors db) ∧
       papers db' = papers db ∧
       authorToPaper db' = authorToPaper db ∧
       authorPapers updated = papersOf db id ∧
       (∀ paper a, a ∈ (authorsOf db' paper).*1 ↔ a ∈ (authorsOf db paper).*1)) ∧
  (authors db !! id = None →
     updateAuthor id authorData db = (Throw (recordNotFound RECORD_TO_UPDATE), db)).
Proof.
  split.
  - intros row Hrow. unfold updateAuthor, author_update. rewrite Hrow.
    eexists _, _. split; [reflexivity|]. simpl.
    split; [done|]. split; [done|].
    split; [by destruct (inputEmail authorData)|].
    split; [by destruct (inputAffiliation authorData)|].
    split; [done|]. split; [done|]. split; [done|]. split; [done|].
    intros paper a. rewrite !list_elem_of_fmap. split.
    + intros ([k v] & -> & Hin). apply authorsOf_elem in Hin as [Hv Hlink]. simpl in *.
      destruct (decide (k = id)) as [->|Hne].
      * exists (id, row). split; [done|]. by apply authorsOf_elem.
      * rewrite lookup_insert_ne in Hv by done. exists (k, v). split; [done|].
        by apply authorsOf_elem.
    + intros ([k v] & -> & Hin). apply authorsOf_elem in Hin as [Hv Hlink]. simpl in *.
      destruct (decide (k = id)) as [->|Hne].
      * eexists (id, _). split; [done|]. apply authorsOf_elem. simpl.
        split; [apply lookup_insert_eq|done].
      * exists (k, v). split; [done|]. apply authorsOf_elem. simpl.
        split; [by rewrite lookup_insert_ne|done].
  - intros Hnone. unfold updateAuthor, author_update. by rewrite Hnone.
Qed.

Lemma updateAuthor_changes_fields_only_witness :
  ∃ updated db',
    updateAuthor 1 (mkAuthorInput "John P. Doe" Absent (Value "University B")) seededStore
      = (Return updated, db') ∧
    authorId updated = 1 ∧
    authorName (authorRow updated) = "John P. Doe" ∧
    keptOrSet Absent (Some "john@example.com") (authorEmail (authorRow updated)) ∧
    keptOrSet (Value "University B") (Some "University X")
      (authorAffiliation (authorRow updated)) ∧
    authors db' = <[1 := authorRow updated]> (authors seededStore) ∧
    papers db' = papers seededStore ∧
    authorToPaper db' = authorToPaper seededStore ∧
    authorPapers updated = papersOf seededStore 1 ∧
    (∀ paper a, a ∈ (authorsOf db' paper).*1 ↔ a ∈ (authorsOf seededStore paper).*1).
Proof.
  apply (proj1 (updateAuthor_changes_fields_only seededStore 1
                  (mkAuthorInput "John P. Doe" Absent (Value "University B")))
           (candidateRow johnDoe)).
  reflexivity.
Defined.

(** X12. Authors, read back.  Whatever the store: the author [createAuthor]
    returns, and the author [updateAuthor] returns, is the one
    [getAuthorById] then gives for its identifier; after a [deleteAuthor]
    that returned, [getAuthorById] gives [null] for the identifier and a
    second [deleteAuthor] fails with the record-not-found error, the store
    staying as it is. *)
Theorem getAuthorById_after_writing (db : DB) :
  (∀ authorData created db',
     createAuthor authorData db = (Return created, db') →
     getAuthorById (authorId created) db' = (Return (Some created), db')) ∧
  (∀ id authorData updated db',
     updateAuthor id authorData db = (Return updated, db') →
     authorId updated = id ∧ getAuthorById id db' = (Return (Some updated), db')) ∧
  (∀ id db',
     deleteAuthor id db = (Return tt, db') →
     getAuthorById id db' = (Return None, db') ∧
     deleteAuthor id db' = (Throw (recordNotFound RECORD_TO_DELETE), db')).
Proof.
  split; [|split].
  - intros authorData created db'. unfold createAuthor, author_createIncluding, author_create.
    destruct (authors db !! authorSeq db); [discriminate|].
    intros [= <- <-]. unfold getAuthorById, author_findUnique. simpl.
    by rewrite lookup_insert_eq.
  - intros id authorData updated db'. unfold updateAuthor, author_update.
    destruct (authors db !! id); [|discriminate].
    intros [= <- <-]. split; [done|]. unfold getAuthorById, author_findUnique. simpl.
    by rewrite lookup_insert_eq.
  - intros id db' Hrun.
    pose proof (deleteAuthor_leaves_authors db db' id Hrun) as Hall.
    rewrite deleteAuthor_unfold in Hrun.
    destruct (List.filter (paperMatches db (everyAuthorIs id)) (rowsAsc (papers db)));
      [|discriminate].
    unfold author_delete in Hrun.
    destruct (authors db !! id) as [row|] eqn:Hrow; [|discriminate].
    injection Hrun as <-.
    assert (Hgone : authors (withoutAuthor db id) !! id = None) by apply lookup_delete_eq.
    fold (withoutAuthor db id) in Hall |- *.
    split.
    + unfold getAuthorById, author_findUnique. by rewrite Hgone.
    + rewrite deleteAuthor_proceeds.
      * unfold author_delete. by rewrite Hgone.
      * intros paper prow Hp. apply Hall, has_author_elim in Hp as (a & r & Hr & Hlink).
        exists (a, r). split; [by apply authorsOf_elem|]. simpl.
        simpl in Hlink. apply elem_of_filter in Hlink as [Hne _]. done.
Qed.

Lemma getAuthorById_after_writing_witness :
  getAuthorById 2 (withoutAuthor soleAuthorStore 2)
    = (Return None, withoutAuthor soleAuthorStore 2) ∧
  deleteAuthor 2 (withoutAuthor soleAuthorStore 2)
    = (Throw (recordNotFound RECORD_TO_DELETE), withoutAuthor soleAuthorStore 2).
Proof.
  apply (proj2 (proj2 (getAuthorById_after_writing soleAuthorStore)) 2).
  vm_compute. reflexivity.
Defined.

(** *** What a listing selects *)

Lemma year_filter_holds (year : option Z) (row : PaperRow) :
  holds (truthyNumber year) (fun y => paperYear row =? y) = true ↔
  ∀ y, year = Some y → y ≠ 0 → paperYear row = y.
Proof.
  destruct year as [y|]; simpl; [|by split].
  destruct (Z.eqb_spec y 0) as [->|Hne]; simpl.
  - split; [|done]. by intros _ y [= <-].
  - rewrite Z.eqb_eq. split; [by intros -> z [= <-]|]. intros H. by apply H.
Qed.

Lemma text_filter_holds (text : option string) (stored : string) :
  holds (option_map (fun v => Contains v true) (truthyString text))
    (fun f => stringMatches f stored) = true ↔
  ∀ v, text = Some v → v ≠ "" → containsInsensitive stored v = true.
Proof.
  destruct text as [v|]; [|by split].
  destruct (decide (v = "")) as [->|Hne].
  - simpl. split; [|done]. by intros _ v [= <-].
  - assert (truthyString (Some v) = Some v) as -> by (by destruct v).
    unfold containsInsensitive. simpl.
    split; [by intros H w [= <-]|]. intros H. by apply H.
Qed.

Lemma nullable_text_filter_holds (text : option string) (stored : option string) :
  holds (option_map (fun v => Is (Contains v true)) (truthyString text))
    (fun f => nullableMatches f stored) = true ↔
  ∀ v, text = Some v → v ≠ "" →
    ∃ s, stored = Some s ∧ containsInsensitive s v = true.
Proof.
  destruct text as [v|]; [|by split].
  destruct (decide (v = "")) as [->|Hne].
  - simpl. split; [|done]. by intros _ v [= <-].
  - assert (truthyString (Some v) = Some v) as -> by (by destruct v).
    unfold containsInsensitive. destruct stored as [s|]; simpl.
    + split.
      * intros H w [= <-] _. eauto.
      * intros H. destruct (H v) as (s' & [= <-] & Hs); done.
    + split; [discriminate|]. intros H. destruct (H v) as (s' & Hs' & _); done.
Qed.

Lemma author_filter_holds (db : DB) (author : AuthorFilter) (p : Z * PaperRow) :
  paperMatches db (paperWhereOf (byAuthor author)) p = true ↔
  authorFilterHolds db p.1 author.
Proof.
  destruct author as [|value|[|name names]]; simpl.
  - done.
  - rewrite !andb_true_r. apply some_nameContains.
  - rewrite andb_true_r, negb_true_iff. split.
    + destruct (authorsOf db p.1) as [|a rest]; [done|]. simpl.
      unfold authorMatches. simpl. discriminate.
    + by intros ->.
  - apply (every_name_matches db (name :: names) p).
Qed.

Lemma paperMatches_selected (db : DB) (filters : PaperFilters) (paper : Z) (row : PaperRow) :
  paperMatches db (paperWhereOf filters) (paper, row) = true ↔
  paperSelected db filters paper row.
Proof.
  unfold paperSelected.
  rewrite <- year_filter_holds, <- text_filter_holds,
    <- (author_filter_holds db (filterAuthor filters) (paper, row)).
  unfold paperWhereOf, byAuthor. simpl.
  destruct (filterAuthor filters) as [|value|[|name names]]; simpl;
    rewrite ?andb_true_r, !andb_true_iff; tauto.
Qed.

Lemma authorMatches_selected (filters : AuthorFilters) (i : Z) (row : AuthorRow) :
  authorMatches (authorWhereOf filters) (i, row) = true ↔ authorSelected filters row.
Proof.
  unfold authorSelected.
  rewrite <- text_filter_holds, <- nullable_text_filter_holds.
  unfold authorMatches, authorWhereOf. simpl. rewrite !andb_true_iff. tauto.
Qed.

(** X13. What the filters of [getAllPapers] select.  Without limit and offset,
    the papers listed are exactly the papers of the store that pass every
    filter given: the year is the one asked for, the venue contains the
    text asked for whatever the letter case, and the authors are as the
    [author] filter asks; a year of 0 and an empty text filter nothing.
    Each paper comes with its stored fields and the authors linked to it,
    and the store is not changed. *)
Theorem getAllPapers_selects (db : DB) (filters : PaperFilters) :
  ∃ listing,
    getAllPapers (unpaged filters) db = (Return listing, db) ∧
    (∀ paper, paper ∈ paperId <$> items listing ↔
       ∃ row, papers db !! paper = Some row ∧ paperSelected db filters paper row) ∧
    (∀ p, p ∈ items listing →
       papers db !! paperId p = Some (paperRow p) ∧
       paperAuthors p = authorsOf db (paperId p)).
Proof.
  exists (mkListing
            (map (includeAuthors db)
               (List.filter (paperMatches db (paperWhereOf filters)) (rowsAsc (papers db))))
            (Z.of_nat (length (List.filter (paperMatches db (paperWhereOf filters))
                                 (rowsAsc (papers db)))))
            None None).
  split; [by rewrite getAllPapers_run|]. cbn [items]. split.
  - intros paper. rewrite elem_of_listing_ids.
    split; intros (row & Hrow & H); exists row; (split; [done|]);
      by apply paperMatches_selected.
  - intros p Hp. apply list_elem_of_fmap in Hp as ([k row] & -> & Hin).
    apply list_elem_of_In, List.filter_In in Hin as [Hin _].
    apply list_elem_of_In, elem_of_rowsAsc in Hin. done.
Qed.

(** X14. What the filters of [getAllAuthors] select.  Without limit and offset,
    the authors listed are exactly the authors of the store whose name
    contains the text asked for and who have an affiliation that contains
    the text asked for, whatever the letter case: an author without
    affiliation passes no affiliation filter; an empty text filters
    nothing.  Each author comes with its stored fields and its papers, and
    the store is not changed. *)
Theorem getAllAuthors_selects (db : DB) (filters : AuthorFilters) :
  ∃ listing,
    getAllAuthors (unpagedAuthors filters) db = (Return listing, db) ∧
    (∀ author, author ∈ authorId <$> items listing ↔
       ∃ row, authors db !! author = Some row ∧ authorSelected filters row) ∧
    (∀ a, a ∈ items listing →
       authors db !! authorId a = Some (authorRow a) ∧
       authorPapers a = papersOf db (authorId a)).
Proof.
  exists (mkListing
            (map (includePapers db)
               (List.filter (authorMatches (authorWhereOf filters)) (rowsAsc (authors db))))
            (Z.of_nat (length (List.filter (authorMatches (authorWhereOf filters))
                                 (rowsAsc (authors db)))))
            None None).
  split; [by rewrite getAllAuthors_run|]. cbn [items]. split.
  - intros author. rewrite list_elem_of_fmap. split.
    + intros (r & -> & Hr). apply list_elem_of_fmap in Hr as ([k v] & -> & Hin).
      apply list_elem_of_In, List.filter_In in Hin as [Hin Hm].
      apply list_elem_of_In, elem_of_rowsAsc in Hin. simpl. exists v.
      split; [done|]. by apply (authorMatches_selected filters k).
    + intros (row & Hrow & Hm). exists (includePapers db (author, row)). split; [done|].
      apply list_elem_of_fmap. exists (author, row). split; [done|].
      apply list_elem_of_In, List.filter_In. split.
      * by apply list_elem_of_In, elem_of_rowsAsc.
      * by apply authorMatches_selected.
  - intros a Ha. apply list_elem_of_fmap in Ha as ([k row] & -> & Hin).
    apply list_elem_of_In, List.filter_In in Hin as [Hin _].
    apply list_elem_of_In, elem_of_rowsAsc in Hin. done.
Qed.

(** *** Pages of a listing *)

Lemma pages_tile {A} (rows : list A) (l1 l2 o : Z) :
  0 <= l1 → 0 <= l2 → 0 <= o →
  take (Z.to_nat l1) (drop (Z.to_nat o) rows)
    ++ take (Z.to_nat l2) (drop (Z.to_nat (o + l1)) rows)
  = take (Z.to_nat (l1 + l2)) (drop (Z.to_nat o) rows) ∧
  (Z.of_nat (length (take (Z.to_nat l1) (drop (Z.to_nat o) rows))) < l1 →
   take (Z.to_nat l2) (drop (Z.to_nat (o + l1)) rows) = []).
Proof.
  intros H1 H2 Ho. rewrite !Z2Nat.inj_add by lia. split.
  - rewrite <- take_take_drop. f_equal. f_equal. rewrite drop_drop. f_equal.
  - rewrite length_take, length_drop. intros Hshort.
    rewrite drop_ge; [by rewrite take_nil|]. lia.
Qed.

(** X15. Consecutive pages.  For every filter set and for limits and an offset
    that are not negative, the page of [l1] rows at offset [o] followed by
    the page of [l2] rows at offset [o + l1] is the page of [l1 + l2] rows
    at offset [o]: between two consecutive pages of a store that does not
    change no row is repeated and none is left out, and their totals add
    up; when a page comes back shorter than its limit, the next one is
    empty.  For papers and for authors alike. *)
Theorem consecutive_pages_tile (db : DB) (l1 l2 o : Z) :
  0 <= l1 → 0 <= l2 → 0 <= o →
  (∀ filters, ∃ first next both,
     getAllPapers (pageOf filters l1 o) db = (Return first, db) ∧
     getAllPapers (pageOf filters l2 (o + l1)) db = (Return next, db) ∧
     getAllPapers (pageOf filters (l1 + l2) o) db = (Return both, db) ∧
     items first ++ items next = items both ∧
     total first + total next = total both ∧
     (total first < l1 → items next = [])) ∧
  (∀ filters, ∃ first next both,
     getAllAuthors (authorsPageOf filters l1 o) db = (Return first, db) ∧
     getAllAuthors (authorsPageOf filters l2 (o + l1)) db = (Return next, db) ∧
     getAllAuthors (authorsPageOf filters (l1 + l2) o) db = (Return both, db) ∧
     items first ++ items next = items both ∧
     total first + total next = total both ∧
     (total first < l1 → items next = [])).
Proof.
  intros H1 H2 Ho. split.
  - intros filters.
    set (rows := List.filter (paperMatches db (paperWhereOf filters)) (rowsAsc (papers db))).
    destruct (pages_tile rows l1 l2 o H1 H2 Ho) as [Htile Hshort].
    assert (Hpage : ∀ l o', 0 <= l → 0 <= o' →
              getAllPapers (pageOf filters l o') db =
              (Return (mkListing
                         (map (includeAuthors db)
                            (take (Z.to_nat l) (drop (Z.to_nat o') rows)))
                         (Z.of_nat (length (take (Z.to_nat l) (drop (Z.to_nat o') rows))))
                         (Some l) (Some o')), db)).
    { intros l o' Hl Ho'. rewrite getAllPapers_run.
      change (paperWhereOf (pageOf filters l o')) with (paperWhereOf filters).
      fold rows. cbn [pageOf filterLimit filterOffset].
      by rewrite (proj1 (slice_page rows l o' Hl Ho')). }
    eexists _, _, _.
    split; [by apply Hpage|]. split; [apply Hpage; lia|]. split; [apply Hpage; lia|].
    cbn [items total]. split; [by rewrite <- map_app, Htile|].
    split; [by rewrite <- Htile, length_app; lia|].
    intros Hlt. by rewrite (Hshort Hlt).
  - intros filters.
    set (rows := List.filter (authorMatches (authorWhereOf filters)) (rowsAsc (authors db))).
    destruct (pages_tile rows l1 l2 o H1 H2 Ho) as [Htile Hshort].
    assert (Hpage : ∀ l o', 0 <= l → 0 <= o' →
              getAllAuthors (authorsPageOf filters l o') db =
              (Return (mkListing
                         (map (includePapers db)
                            (take (Z.to_nat l) (drop (Z.to_nat o') rows)))
                         (Z.of_nat (length (take (Z.to_nat l) (drop (Z.to_nat o') rows))))
                         (Some l) (Some o')), db)).
    { intros l o' Hl Ho'. rewrite getAllAuthors_run.
      change (authorWhereOf (authorsPageOf filters l o')) with (authorWhereOf filters).
      fold rows. cbn [authorsPageOf authorsLimit authorsOffset].
      by rewrite (proj1 (slice_page rows l o' Hl Ho')). }
    eexists _, _, _.
    split; [by apply Hpage|]. split; [apply Hpage; lia|]. split; [apply Hpage; lia|].
    cbn [items total]. split; [by rewrite <- map_app, Htile|].
    split; [by rewrite <- Htile, length_app; lia|].
    intros Hlt. by rewrite (Hshort Hlt).
Qed.

Lemma consecutive_pages_tile_witness :
  ∃ first next both,
    getAllPapers (pageOf noPaperFilters 2 0) seededStore = (Return first, seededStore) ∧
    getAllPapers (pageOf noPaperFilters 2 (0 + 2)) seededStore = (Return next, seededStore) ∧
    getAllPapers (pageOf noPaperFilters (2 + 2) 0) seededStore = (Return both, seededStore) ∧
    items first ++ items next = items both ∧
    total first + total next = total both ∧
    (total first < 2 → items next = []).
Proof.
  apply (proj1 (consecutive_pages_tile seededStore 2 2 0 ltac:(lia) ltac:(lia) ltac:(lia))
           noPaperFilters).
Defined.

(** *** Query strings *)

Lemma nonEmptyText_check (v : QueryValue) :
  isNonEmptyStringWithoutTrim (queryAsValue v) = true ↔ nonEmptyText v.
Proof.
  unfold nonEmptyText. destruct v as [[s|l|o]|n]; simpl;
    try (split; [discriminate|by intros (? & ? & _)]).
  unfold strLength. split.
  - intros H. exists s. split; [done|]. intros ->. discriminate.
  - intros (t & [= <-] & Ht). destruct s; [done|]. apply Z.ltb_lt. simpl String.length. lia.
Qed.

Lemma nonBlankText_check (v : QueryValue) :
  isNonEmptyStringAfterTrim (queryAsValue v) = true ↔ nonBlankText v.
Proof.
  unfold nonBlankText. destruct v as [[s|l|o]|n]; simpl;
    try (split; [discriminate|by intros (? & ? & _)]).
  unfold strLength. split.
  - intros H. exists s. split; [done|]. intros Hs. rewrite Hs in H. discriminate.
  - intros (t & [= <-] & Ht). destruct (trim s); [done|].
    apply Z.ltb_lt. simpl String.length. lia.
Qed.

Lemma acceptedYear_check (y : QueryValue) :
  isIntegerGreaterThan1900 (JsNum (Number y)) = true ↔ acceptedYear y.
Proof.
  rewrite isIntegerGreaterThan1900_true. unfold integerAfter1900, acceptedYear.
  split; intros (n & Hn & Hlt); exists n; (split; [congruence|done]).
Qed.

(** The check of the [author] parameter, as the validator makes it. *)
Lemma acceptedAuthor_check (a : QueryValue) :
  match a with
  | Raw (QArray names) =>
      forallb (fun authorName => isNonEmptyStringAfterTrim (parsedAsValue authorName)) names
  | _ => isNonEmptyStringAfterTrim (queryAsValue a)
  end = true ↔ acceptedAuthor a.
Proof.
  unfold acceptedAuthor.
  destruct a as [[s|names|o]|n].
  - rewrite nonBlankText_check. split; [by left|]. by intros [H|(l & [=] & _)].
  - rewrite forallb_forall. split.
    + intros H. right. exists names. split; [done|]. apply Forall_forall. intros e He.
      apply (nonBlankText_check (Raw e)). simpl. by apply H, list_elem_of_In.
    + intros [(s & [=] & _)|(l & [= <-] & H)] e He. rewrite Forall_forall in H.
      apply (nonBlankText_check (Raw e)), H. by apply list_elem_of_In.
  - rewrite nonBlankText_check. split; [by left|]. by intros [H|(l & [=] & _)].
  - rewrite nonBlankText_check. split; [by left|]. by intros [H|(l & [=] & _)].
Qed.

(** [validatePaperQueryParams] as one test followed by the paging tail. *)
Lemma validatePaperQueryParams_checks (query : Query) :
  validatePaperQueryParams query =
  if match query !! "year" with
     | Some y => isIntegerGreaterThan1900 (JsNum (Number y))
     | None => true
     end
     && match query !! "publishedIn" with
        | Some p => isNonEmptyStringWithoutTrim (queryAsValue p)
        | None => true
        end
     && match query !! "author" with
        | Some (Raw (QArray names)) =>
            forallb (fun authorName => isNonEmptyStringAfterTrim (parsedAsValue authorName))
              names
        | Some a => isNonEmptyStringAfterTrim (queryAsValue a)
        | None => true
        end
  then validatePaging (withYear query) (query !! "limit") (query !! "offset")
  else Respond invalidQueryResponse.
Proof.
  unfold validatePaperQueryParams, withYear.
  destruct (query !! "year") as [y|].
  - destruct (isIntegerGreaterThan1900 (JsNum (Number y))); [|reflexivity]. simpl.
    destruct (match query !! "publishedIn" with Some _ => _ | None => _ end); [|reflexivity].
    simpl.
    destruct (match query !! "author" with Some _ => _ | None => _ end); reflexivity.
  - simpl.
    destruct (match query !! "publishedIn" with Some _ => _ | None => _ end); [|reflexivity].
    simpl.
    destruct (match query !! "author" with Some _ => _ | None => _ end); reflexivity.
Qed.

Lemma validateAuthorQueryParams_checks (query : Query) :
  validateAuthorQueryParams query =
  if match query !! "name" with
     | Some n => isNonEmptyStringAfterTrim (queryAsValue n)
     | None => true
     end
     && match query !! "affiliation" with
        | Some a => isNonEmptyStringAfterTrim (queryAsValue a)
        | None => true
        end
  then validatePaging query (query !! "limit") (query !! "offset")
  else Respond invalidQueryResponse.
Proof.
  unfold validateAuthorQueryParams.
  destruct (match query !! "name" with Some _ => _ | None => _ end); [|reflexivity].
  simpl.
  destruct (match query !! "affiliation" with Some _ => _ | None => _ end); reflexivity.
Qed.

Lemma whenPresent_check {A} (v : option A) (test : A → bool) (P : A → Prop) :
  (∀ x, test x = true ↔ P x) →
  (match v with Some x => test x | None => true end = true ↔ whenPresent v P).
Proof.
  intros H. unfold whenPresent. destruct v as [x|].
  - rewrite H. split; [by intros Hx y [= <-]|]. intros Hx. by apply Hx.
  - split; [by intros _ y|done].
Qed.

Lemma author_present_check (v : option QueryValue) :
  match v with
  | Some (Raw (QArray names)) =>
      forallb (fun authorName => isNonEmptyStringAfterTrim (parsedAsValue authorName)) names
  | Some a => isNonEmptyStringAfterTrim (queryAsValue a)
  | None => true
  end = true ↔ whenPresent v acceptedAuthor.
Proof.
  unfold whenPresent. destruct v as [a|].
  - split.
    + intros H y [= <-]. apply acceptedAuthor_check. by destruct a as [[| |]|].
    + intros H. specialize (H a eq_refl). apply acceptedAuthor_check in H.
      by destruct a as [[| |]|].
  - split; [by intros _ y|done].
Qed.

Lemma withPaging_others (query : Query) (l o : Z) (key : string) :
  key ≠ "limit" → key ≠ "offset" → withPaging query l o !! key = query !! key.
Proof. intros Hl Ho. unfold withPaging. by rewrite !lookup_insert_ne. Qed.

(** Either every parameter of the query is well formed and the query is
    handed on with [year], [limit] and [offset] as numbers, or it is
    refused. *)
Lemma validatePaperQueryParams_cases (query : Query) :
  (acceptablePaperQuery query ∧
   ∃ l o, limitByRule (query !! "limit") = Some l ∧
          offsetByRule (query !! "offset") = Some o ∧
          validatePaperQueryParams query = Next (withPaging (withYear query) l o)) ∨
  (¬ acceptablePaperQuery query ∧
   validatePaperQueryParams query = Respond invalidQueryResponse).
Proof.
  rewrite validatePaperQueryParams_checks, validatePaging_rule.
  pose proof (whenPresent_check (query !! "year") _ _ acceptedYear_check) as Hy.
  pose proof (whenPresent_check (query !! "publishedIn") _ _ nonEmptyText_check) as Hp.
  pose proof (author_present_check (query !! "author")) as Ha.
  unfold acceptablePaperQuery.
  destruct (match query !! "year" with Some _ => _ | None => _ end);
    [|right; split; [intros (H & _); by apply Hy in H|done]].
  destruct (match query !! "publishedIn" with Some _ => _ | None => _ end);
    [|right; split; [intros (_ & H & _); by apply Hp in H|done]].
  destruct (match query !! "author" with Some _ => _ | None => _ end);
    [|right; split; [intros (_ & _ & H & _); by apply Ha in H|done]].
  simpl.
  destruct (limitByRule (query !! "limit")) as [l|];
    [|right; split; [by intros (_ & _ & _ & [? ?] & _)|done]].
  destruct (offsetByRule (query !! "offset")) as [o|];
    [|right; split; [by intros (_ & _ & _ & _ & [? ?])|done]].
  left. split.
  - split; [by apply Hy|]. split; [by apply Hp|]. split; [by apply Ha|]. by split.
  - by exists l, o.
Qed.

Lemma withYear_others (query : Query) (key : string) :
  key ≠ "year" → withYear query !! key = query !! key.
Proof.
  intros Hk. unfold withYear. destruct (query !! "year"); [|done].
  by rewrite lookup_insert_ne.
Qed.

Lemma withYear_year (query : Query) :
  withYear query !! "year" = (fun y => QNumber (Number y)) <$> query !! "year".
Proof.
  unfold withYear. destruct (query !! "year") as [y|] eqn:Hyear; simpl.
  - apply lookup_insert_eq.
  - done.
Qed.

(** X16. The query validator of the paper listing.  A query is handed on exactly
    when each parameter that is present is well formed: [year] converts to
    an integer greater than 1900, [publishedIn] is one text that is not
    empty (a blank one passes), [author] is one text that is not blank or
    several such, [limit] and [offset] follow their rules.  The query handed
    on has [year] replaced by its number and [limit] and [offset] set; every
    other parameter is as it came.  Any other query is answered with status
    400 and the message "Invalid query parameter format". *)
Theorem validatePaperQueryParams_accepts (query : Query) :
  (acceptablePaperQuery query →
     ∃ l o, limitByRule (query !! "limit") = Some l ∧
            offsetByRule (query !! "offset") = Some o ∧
            validatePaperQueryParams query = Next (withPaging (withYear query) l o)) ∧
  (¬ acceptablePaperQuery query →
     validatePaperQueryParams query = Respond invalidQueryResponse) ∧
  (∀ validated, validatePaperQueryParams query = Next validated →
     validated !! "year" = (fun y => QNumber (Number y)) <$> query !! "year" ∧
     ∀ key, key ≠ "year" → key ≠ "limit" → key ≠ "offset" →
       validated !! key = query !! key).
Proof.
  destruct (validatePaperQueryParams_cases query)
    as [(Hok & l & o & Hl & Ho & ->)|(Hno & ->)].
  - split; [|split].
    + intros _. by exists l, o.
    + done.
    + intros validated [= <-]. split.
      * rewrite withPaging_others by done. apply withYear_year.
      * intros key Hk Hkl Hko. rewrite withPaging_others by done.
        by apply withYear_others.
  - split; [done|]. split; [done|]. discriminate.
Qed.

Lemma validatePaperQueryParams_accepts_witness :
  ∃ l o, limitByRule (filteredQuery !! "limit") = Some l ∧
         offsetByRule (filteredQuery !! "offset") = Some o ∧
         validatePaperQueryParams filteredQuery
           = Next (withPaging (withYear filteredQuery) l o).
Proof.
  apply (proj1 (validatePaperQueryParams_accepts filteredQuery)).
  split; [|split; [|split; [|split]]].
  - intros y [= <-]. exists 2023. split; [vm_compute; reflexivity|lia].
  - intros p [= <-]. by exists " ".
  - intros a [= <-]. right. eexists. split; [reflexivity|].
    repeat constructor; eexists; (split; [reflexivity|discriminate]).
  - vm_compute. by eexists.
  - vm_compute. by eexists.
Defined.

Lemma validateAuthorQueryParams_cases (query : Query) :
  (acceptableAuthorQuery query ∧
   ∃ l o, limitByRule (query !! "limit") = Some l ∧
          offsetByRule (query !! "offset") = Some o ∧
          validateAuthorQueryParams query = Next (withPaging query l o)) ∨
  (¬ acceptableAuthorQuery query ∧
   validateAuthorQueryParams query = Respond invalidQueryResponse).
Proof.
  rewrite validateAuthorQueryParams_checks, validatePaging_rule.
  pose proof (whenPresent_check (query !! "name") _ _ nonBlankText_check) as Hn.
  pose proof (whenPresent_check (query !! "affiliation") _ _ nonBlankText_check) as Ha.
  unfold acceptableAuthorQuery.
  destruct (match query !! "name" with Some _ => _ | None => _ end);
    [|right; split; [intros (H & _); by apply Hn in H|done]].
  destruct (match query !! "affiliation" with Some _ => _ | None => _ end);
    [|right; split; [intros (_ & H & _); by apply Ha in H|done]].
  simpl.
  destruct (limitByRule (query !! "limit")) as [l|];
    [|right; split; [by intros (_ & _ & [? ?] & _)|done]].
  destruct (offsetByRule (query !! "offset")) as [o|];
    [|right; split; [by intros (_ & _ & _ & [? ?])|done]].
  left. split.
  - split; [by apply Hn|]. split; [by apply Ha|]. by split.
  - by exists l, o.
Qed.

(** X17. The query validator of the author listing.  A query is handed on
    exactly when [name] and [affiliation], if present, are each one text
    that is not blank, and [limit] and [offset] follow their rules; the
    query handed on is the one that came with [limit] and [offset] set.
    Any other query is answered with status 400 and the message "Invalid
    query parameter format". *)
Theorem validateAuthorQueryParams_accepts (query : Query) :
  (acceptableAuthorQuery query →
     ∃ l o, limitByRule (query !! "limit") = Some l ∧
            offsetByRule (query !! "offset") = Some o ∧
            validateAuthorQueryParams query = Next (withPaging query l o)) ∧
  (¬ acceptableAuthorQuery query →
     validateAuthorQueryParams query = Respond invalidQueryResponse) ∧
  (∀ validated, validateAuthorQueryParams query = Next validated →
     ∀ key, key ≠ "limit" → key ≠ "offset" → validated !! key = query !! key).
Proof.
  destruct (validateAuthorQueryParams_cases query)
    as [(Hok & l & o & Hl & Ho & ->)|(Hno & ->)].
  - split; [|split].
    + intros _. by exists l, o.
    + done.
    + intros validated [= <-] key Hkl Hko. by rewrite withPaging_others.
  - split; [done|]. split; [done|]. discriminate.
Qed.

Lemma validateAuthorQueryParams_accepts_witness :
  ∃ l o, limitByRule (authorQuery !! "limit") = Some l ∧
         offsetByRule (authorQuery !! "offset") = Some o ∧
         validateAuthorQueryParams authorQuery = Next (withPaging authorQuery l o).
Proof.
  apply (proj1 (validateAuthorQueryParams_accepts authorQuery)).
  split; [|split; [|split]].
  - intros n [= <-]. by exists "doe".
  - intros a Ha. vm_compute in Ha. discriminate.
  - vm_compute. by eexists.
  - vm_compute. by eexists.
Defined.

Lemma limitByRule_number (limit : option QueryValue) (l : Z) :
  limitByRule limit = Some l → limitByRule (Some (QNumber (JInt l))) = Some l.
Proof.
  unfold limitByRule. destruct limit as [v|]; [|by intros [= <-]].
  simpl. destruct (Number v) as [| |n|]; try discriminate.
  destruct ((1 <=? n) && (n <=? 100)) eqn:Hn; [|discriminate].
  intros [= <-]. by rewrite Hn.
Qed.

Lemma offsetByRule_number (offset : option QueryValue) (o : Z) :
  offsetByRule offset = Some o → offsetByRule (Some (QNumber (JInt o))) = Some o.
Proof.
  unfold offsetByRule. destruct offset as [v|]; [|by intros [= <-]].
  simpl. destruct (Number v) as [| |n|]; try discriminate.
  destruct (0 <=? n) eqn:Hn; [|discriminate].
  intros [= <-]. by rewrite Hn.
Qed.

Lemma withPaging_again (query : Query) (l o : Z) :
  withPaging (withPaging query l o) l o = withPaging query l o.
Proof.
  destruct (withPaging_lookup query l o) as [Hl Ho].
  unfold withPaging at 1. rewrite (insert_id _ "limit") by done. by apply insert_id.
Qed.

(** X18. Validating twice.  A query that a query validator has handed on is
    handed on unchanged when the same validator is given it again: the
    numbers it has put in place of [year], [limit] and [offset] convert to
    themselves and are within the rules. *)
Theorem query_validators_idempotent (query validated : Query) :
  (validatePaperQueryParams query = Next validated →
     validatePaperQueryParams validated = Next validated) ∧
  (validateAuthorQueryParams query = Next validated →
     validateAuthorQueryParams validated = Next validated).
Proof.
  split.
  - rewrite !validatePaperQueryParams_checks, !validatePaging_rule.
    destruct (match query !! "year" with Some _ => _ | None => _ end) eqn:Hy;
      [|discriminate].
    destruct (match query !! "publishedIn" with Some _ => _ | None => _ end) eqn:Hp;
      [|discriminate].
    destruct (match query !! "author" with Some _ => _ | None => _ end) eqn:Ha;
      [|discriminate].
    simpl.
    destruct (limitByRule (query !! "limit")) as [l|] eqn:Hl; [|discriminate].
    destruct (offsetByRule (query !! "offset")) as [o|] eqn:Ho; [|discriminate].
    intros [= <-].
    destruct (withPaging_lookup (withYear query) l o) as [Hlimit Hoffset].
    rewrite Hlimit, Hoffset, (limitByRule_number _ _ Hl), (offsetByRule_number _ _ Ho).
    rewrite !withPaging_others by done.
    assert (Hyear : withYear (withPaging (withYear query) l o) = withPaging (withYear query) l o
                    ∧ match withYear query !! "year" with
                      | Some y => isIntegerGreaterThan1900 (JsNum (Number y))
                      | None => true
                      end = true).
    { unfold withYear at 1. rewrite withPaging_others by done. unfold withYear.
      destruct (query !! "year") as [y|] eqn:Hyear.
      - rewrite lookup_insert_eq. simpl. split; [|done]. apply insert_id.
        rewrite withPaging_others by done. apply lookup_insert_eq.
      - by rewrite Hyear. }
    destruct Hyear as [-> ->].
    assert (Hother : ∀ key, key ≠ "year" → withYear query !! key = query !! key).
    { intros key Hk. unfold withYear. destruct (query !! "year"); [|done].
      by rewrite lookup_insert_ne. }
    rewrite !Hother by done. rewrite Hp, Ha. simpl.
    by rewrite withPaging_again.
  - rewrite !validateAuthorQueryParams_checks, !validatePaging_rule.
    destruct (match query !! "name" with Some _ => _ | None => _ end) eqn:Hn;
      [|discriminate].
    destruct (match query !! "affiliation" with Some _ => _ | None => _ end) eqn:Ha;
      [|discriminate].
    simpl.
    destruct (limitByRule (query !! "limit")) as [l|] eqn:Hl; [|discriminate].
    destruct (offsetByRule (query !! "offset")) as [o|] eqn:Ho; [|discriminate].
    intros [= <-].
    destruct (withPaging_lookup query l o) as [Hlimit Hoffset].
    rewrite Hlimit, Hoffset, (limitByRule_number _ _ Hl), (offsetByRule_number _ _ Ho).
    rewrite !withPaging_others by done. rewrite Hn, Ha. simpl.
    by rewrite withPaging_again.
Qed.

(** *** The form of the front end *)

Lemma form_text_check (v : JsValue) :
  strictEquals (JsStr "") v || negb (PaperForm.isNonEmptyStringAfterTrim v) = true
  ↔ ¬ nonBlankString v.
Proof.
  change (PaperForm.isNonEmptyStringAfterTrim v) with (isNonEmptyStringAfterTrim v).
  rewrite <- isNonEmptyStringAfterTrim_true.
  destruct v as [| |b|n|s|l|o]; simpl; try (split; [discriminate|done]).
  destruct s as [|c r]; [by split|]. simpl. apply negb_true_not.
Qed.

Lemma zeroNumber_check (v : JsValue) :
  strictEquals (JsNum (JInt 0)) v = true ↔ zeroNumber v.
Proof.
  unfold zeroNumber.
  destruct v as [| |b|n|s|l|o];
    try (simpl; split; [discriminate|by intros (? & ? & ? & _)]).
  destruct n as [|sg|z|a d].
  - simpl. split; [discriminate|]. by intros (n & d & [= <-] & Hf).
  - simpl. split; [discriminate|]. by intros (n & d & [= <-] & Hf).
  - change (strictEquals (JsNum (JInt 0)) (JsNum (JInt z))) with (0 * 1 =? z * 1).
    rewrite Z.eqb_eq. split.
    + intros H. exists (JInt z), 1. split; [done|]. simpl. f_equal. f_equal. lia.
    + intros (n & d & [= <-] & [= -> _]). lia.
  - change (strictEquals (JsNum (JInt 0)) (JsNum (JFrac a d))) with (0 * d =? a * 1).
    rewrite Z.eqb_eq. split.
    + intros H. exists (JFrac a d), d. split; [done|]. simpl. f_equal. f_equal. lia.
    + intros (n & d' & [= <-] & [= -> _]). lia.
Qed.

Lemma no_element_check (ids : list JsValue) :
  strictEquals (JsNum (JInt 0)) (JsNum (JInt (Z.of_nat (length ids)))) = true ↔ ids = [].
Proof.
  change (strictEquals _ _) with (0 * 1 =? Z.of_nat (length ids) * 1).
  rewrite Z.eqb_eq. destruct ids; simpl length; split; try done; lia.
Qed.

Lemma integerAfter1900_not_zero (v : JsValue) : integerAfter1900 v → ¬ zeroNumber v.
Proof. intros (n & -> & Hn) (m & d & [= <-] & [= -> _]). lia. Qed.

(** X19. The validation of the form, on a form state whose [authorIds] is an
    array.  It reports the first check that fails, in the order title,
    venue, year, authors, and nothing when none fails: a title, then a
    venue, that is not a string with something else than white space; a
    year that is the number 0 (an emptied field); a year that is not an
    integer greater than 1900; no author selected. *)
Theorem form_reports_first_error (paper : JsValue) (ids : list JsValue) :
  notNullish paper →
  getProperty paper "authorIds" = JsArr ids →
  ∃ result,
    PaperForm.validatePaperInput paper = Return result ∧
    (result = None ↔
       nonBlankString (getProperty paper "title") ∧
       nonBlankString (getProperty paper "publishedIn") ∧
       integerAfter1900 (getProperty paper "year") ∧ ids ≠ []) ∧
    (result = Some "Title is required" ↔ ¬ nonBlankString (getProperty paper "title")) ∧
    (result = Some "Published venue is required" ↔
       nonBlankString (getProperty paper "title") ∧
       ¬ nonBlankString (getProperty paper "publishedIn")) ∧
    (result = Some "Publication year is required" ↔
       nonBlankString (getProperty paper "title") ∧
       nonBlankString (getProperty paper "publishedIn") ∧
       zeroNumber (getProperty paper "year")) ∧
    (result = Some "Valid year after 1900 is required" ↔
       nonBlankString (getProperty paper "title") ∧
       nonBlankString (getProperty paper "publishedIn") ∧
       ¬ zeroNumber (getProperty paper "year") ∧
       ¬ integerAfter1900 (getProperty paper "year")) ∧
    (result = Some "Please select at least one author" ↔
       nonBlankString (getProperty paper "title") ∧
       nonBlankString (getProperty paper "publishedIn") ∧
       integerAfter1900 (getProperty paper "year") ∧ ids = []).
Proof.
  intros [Hnull Hundef] Hids.
  pose proof (form_text_check (getProperty paper "title")) as Ht.
  pose proof (form_text_check (getProperty paper "publishedIn")) as Hp.
  pose proof (zeroNumber_check (getProperty paper "year")) as Hz.
  pose proof (isIntegerGreaterThan1900_true (getProperty paper "year")) as Hy.
  pose proof (integerAfter1900_not_zero (getProperty paper "year")) as Hyz.
  pose proof (no_element_check ids) as Hn.
  assert (Hrun : PaperForm.validatePaperInput paper =
            if strictEquals (JsStr "") (getProperty paper "title")
               || negb (PaperForm.isNonEmptyStringAfterTrim (getProperty paper "title"))
            then Return (Some "Title is required")
            else if strictEquals (JsStr "") (getProperty paper "publishedIn")
                    || negb (PaperForm.isNonEmptyStringAfterTrim
                               (getProperty paper "publishedIn"))
            then Return (Some "Published venue is required")
            else if strictEquals (JsNum (JInt 0)) (getProperty paper "year")
            then Return (Some "Publication year is required")
            else if negb (isIntegerGreaterThan1900 (getProperty paper "year"))
            then Return (Some "Valid year after 1900 is required")
            else if strictEquals (JsNum (JInt 0)) (JsNum (JInt (Z.of_nat (length ids))))
            then Return (Some "Please select at least one author")
            else Return None).
  { unfold PaperForm.validatePaperInput. rewrite Hids.
    destruct paper; try done. }
  rewrite Hrun. clear Hrun.
  destruct (strictEquals (JsStr "") (getProperty paper "title")
            || negb (PaperForm.isNonEmptyStringAfterTrim (getProperty paper "title"))).
  { eexists. split; [reflexivity|]. naive_solver. }
  destruct (strictEquals (JsStr "") (getProperty paper "publishedIn")
            || negb (PaperForm.isNonEmptyStringAfterTrim (getProperty paper "publishedIn"))).
  { eexists. split; [reflexivity|].
    assert (nonBlankString (getProperty paper "title")).
    { destruct (isNonEmptyStringAfterTrim (getProperty paper "title")) eqn:Hb.
      - by apply isNonEmptyStringAfterTrim_true.
      - exfalso. destruct Ht as [_ Ht]. assert (false = true); [|done]. apply Ht.
        intros Hnb. apply isNonEmptyStringAfterTrim_true in Hnb. congruence. }
    naive_solver. }
  assert (Htitle : nonBlankString (getProperty paper "title")).
  { destruct (isNonEmptyStringAfterTrim (getProperty paper "title")) eqn:Hb.
    - by apply isNonEmptyStringAfterTrim_true.
    - exfalso. destruct Ht as [_ Ht]. assert (false = true); [|done]. apply Ht.
      intros Hnb. apply isNonEmptyStringAfterTrim_true in Hnb. congruence. }
  assert (Hvenue : nonBlankString (getProperty paper "publishedIn")).
  { destruct (isNonEmptyStringAfterTrim (getProperty paper "publishedIn")) eqn:Hb.
    - by apply isNonEmptyStringAfterTrim_true.
    - exfalso. destruct Hp as [_ Hp]. assert (false = true); [|done]. apply Hp.
      intros Hnb. apply isNonEmptyStringAfterTrim_true in Hnb. congruence. }
  destruct (strictEquals (JsNum (JInt 0)) (getProperty paper "year")).
  { eexists. split; [reflexivity|]. naive_solver. }
  assert (Hnz : ¬ zeroNumber (getProperty paper "year")) by (intros H; by apply Hz in H).
  destruct (isIntegerGreaterThan1900 (getProperty paper "year")); cbn [negb].
  - assert (Hyear : integerAfter1900 (getProperty paper "year")) by (by apply Hy).
    destruct (strictEquals (JsNum (JInt 0)) (JsNum (JInt (Z.of_nat (length ids))))).
    + eexists. split; [reflexivity|]. naive_solver.
    + eexists. split; [reflexivity|].
      assert (ids ≠ []) by (intros H; by apply Hn in H). naive_solver.
  - eexists. split; [reflexivity|].
    assert (¬ integerAfter1900 (getProperty paper "year")) by (intros H; by apply Hy in H).
    naive_solver.
Qed.

Lemma form_reports_first_error_witness :
  ∃ result,
    PaperForm.validatePaperInput emptiedYearForm = Return result ∧
    (result = None ↔
       nonBlankString (getProperty emptiedYearForm "title") ∧
       nonBlankString (getProperty emptiedYearForm "publishedIn") ∧
       integerAfter1900 (getProperty emptiedYearForm "year") ∧ [JsNum (JInt 3)] ≠ []) ∧
    (result = Some "Title is required" ↔
       ¬ nonBlankString (getProperty emptiedYearForm "title")) ∧
    (result = Some "Published venue is required" ↔
       nonBlankString (getProperty emptiedYearForm "title") ∧
       ¬ nonBlankString (getProperty emptiedYearForm "publishedIn")) ∧
    (result = Some "Publication year is required" ↔
       nonBlankString (getProperty emptiedYearForm "title") ∧
       nonBlankString (getProperty emptiedYearForm "publishedIn") ∧
       zeroNumber (getProperty emptiedYearForm "year")) ∧
    (result = Some "Valid year after 1900 is required" ↔
       nonBlankString (getProperty emptiedYearForm "title") ∧
       nonBlankString (getProperty emptiedYearForm "publishedIn") ∧
       ¬ zeroNumber (getProperty emptiedYearForm "year") ∧
       ¬ integerAfter1900 (getProperty emptiedYearForm "year")) ∧
    (result = Some "Please select at least one author" ↔
       nonBlankString (getProperty emptiedYearForm "title") ∧
       nonBlankString (getProperty emptiedYearForm "publishedIn") ∧
       integerAfter1900 (getProperty emptiedYearForm "year") ∧ [JsNum (JInt 3)] = []).
Proof.
  apply (form_reports_first_error emptiedYearForm [JsNum (JInt 3)]).
  - split; discriminate.
  - reflexivity.
Defined.

Lemma lookupProp_setProp (props : list (string * JsValue)) (key : string) (v : JsValue) :
  lookupProp (setProp props key v) key = v.
Proof.
  induction props as [|[k w] rest IH]; simpl.
  - by rewrite String.eqb_refl.
  - destruct (String.eqb k key) eqn:Hk; simpl; by rewrite Hk.
Qed.

Lemma lookupProp_setProp_ne (props : list (string * JsValue)) (key other : string)
    (v : JsValue) :
  other ≠ key → lookupProp (setProp props key v) other = lookupProp props other.
Proof.
  intros Hne. induction props as [|[k w] rest IH]; simpl.
  - destruct (String.eqb_spec key other); [congruence|done].
  - destruct (String.eqb_spec k key) as [->|Hk]; simpl.
    + destruct (String.eqb_spec key other); [congruence|done].
    + by rewrite IH.
Qed.

Lemma form_text_passes (v : JsValue) :
  nonBlankString v →
  strictEquals (JsStr "") v || negb (PaperForm.isNonEmptyStringAfterTrim v) = false.
Proof.
  intros Hv. destruct (strictEquals _ _ || _) eqn:Hb; [|done].
  by apply form_text_check in Hb.
Qed.

(** What submitting gives once the year field holds [text], title and venue
    being filled in. *)
Lemma form_year_run (formData : PaperForm.FormData) (text : string) :
  nonBlankString (lookupProp formData "title") →
  nonBlankString (lookupProp formData "publishedIn") →
  PaperForm.handleSubmit (PaperForm.handleChange "year" text formData) =
  if strictEquals (JsNum (JInt 0)) (JsNum (StringToNumber text))
  then Return (PaperForm.ShowError "Publication year is required")
  else if negb (isIntegerGreaterThan1900 (JsNum (StringToNumber text)))
  then Return (PaperForm.ShowError "Valid year after 1900 is required")
  else
    match getLength (lookupProp formData "authorIds") with
    | Throw e => Throw e
    | Return len =>
        if strictEquals (JsNum (JInt 0)) len
        then Return (PaperForm.ShowError "Please select at least one author")
        else Return (PaperForm.Submit
                       (JsObj [("title", lookupProp formData "title");
                               ("publishedIn", lookupProp formData "publishedIn");
                               ("year", JsNum (StringToNumber text));
                               ("authorIds", lookupProp formData "authorIds")]))
    end.
Proof.
  intros Ht Hp. unfold PaperForm.handleSubmit, PaperForm.handleChange.
  change (String.eqb "year" "year") with true. cbv iota.
  rewrite lookupProp_setProp, !lookupProp_setProp_ne by done.
  unfold PaperForm.validatePaperInput.
  cbn [getProperty lookupProp String.eqb Ascii.eqb Bool.eqb PaperForm.EMPTY_PAPER_INPUTS].
  rewrite (form_text_passes _ Ht), (form_text_passes _ Hp).
  destruct (strictEquals (JsNum (JInt 0)) (JsNum (StringToNumber text))); [done|].
  change (PaperForm.isIntegerGreaterThan1900 (JsNum (StringToNumber text)))
    with (isIntegerGreaterThan1900 (JsNum (StringToNumber text))).
  destruct (negb (isIntegerGreaterThan1900 (JsNum (StringToNumber text)))); [done|].
  destruct (getLength (lookupProp formData "authorIds")) as [len|e]; [|done].
  by destruct (strictEquals (JsNum (JInt 0)) len).
Qed.

(** X20. The year field of the form.  With title and venue filled in, after the
    year field has been set to a text, submitting shows "Publication year
    is required" exactly when the text converts to the number 0, which an
    emptied or blank field does; and when the text is a plain numeral above
    1900 and an author is selected, the paper is submitted with that year
    as a number. *)
Theorem form_year_field (formData : PaperForm.FormData) (text : string) :
  nonBlankString (lookupProp formData "title") →
  nonBlankString (lookupProp formData "publishedIn") →
  (PaperForm.handleSubmit (PaperForm.handleChange "year" text formData)
     = Return (PaperForm.ShowError "Publication year is required")
   ↔ zeroNumber (JsNum (StringToNumber text))) ∧
  (trim text = "" →
     PaperForm.handleSubmit (PaperForm.handleChange "year" text formData)
       = Return (PaperForm.ShowError "Publication year is required")) ∧
  (∀ n ids, plainDecimal text = Some n → 1900 < n <= 2 ^ 53 →
     lookupProp formData "authorIds" = JsArr ids → ids ≠ [] →
     PaperForm.handleSubmit (PaperForm.handleChange "year" text formData)
       = Return (PaperForm.Submit
                   (JsObj [("title", lookupProp formData "title");
                           ("publishedIn", lookupProp formData "publishedIn");
                           ("year", JsNum (JInt n));
                           ("authorIds", JsArr ids)]))).
Proof.
  intros Ht Hp. rewrite (form_year_run formData text Ht Hp).
  pose proof (zeroNumber_check (JsNum (StringToNumber text))) as Hz.
  split; [|split].
  - destruct (strictEquals (JsNum (JInt 0)) (JsNum (StringToNumber text))).
    + split; [intros _; by apply Hz|done].
    + split; [|intros H; apply Hz in H; discriminate].
      destruct (negb _); [discriminate|].
      destruct (getLength _) as [len|e]; [|discriminate].
      destruct (strictEquals _ len); discriminate.
  - intros Hblank. unfold StringToNumber. rewrite Hblank. reflexivity.
  - intros n ids Hn Hrange Hids Hne.
    rewrite (StringToNumber_digits _ _ Hn).
    destruct (Z.eqb_spec n 0) as [|_]; [lia|].
    rewrite roundToDouble_integer by lia.
    assert (strictEquals (JsNum (JInt 0)) (JsNum (JInt n)) = false) as ->.
    { change (strictEquals _ _) with (0 * 1 =? n * 1). apply Z.eqb_neq. lia. }
    rewrite isIntegerGreaterThan1900_int.
    destruct (Z.ltb_spec 1900 n) as [_|]; [|lia]. cbn [negb].
    rewrite Hids. cbn [getLength].
    assert (strictEquals (JsNum (JInt 0)) (JsNum (JInt (Z.of_nat (length ids)))) = false)
      as ->; [|done].
    destruct (strictEquals (JsNum (JInt 0)) (JsNum (JInt (Z.of_nat (length ids))))) eqn:Hb;
      [|done].
    by apply no_element_check in Hb.
Qed.

Lemma form_year_field_witness :
  PaperForm.handleSubmit (PaperForm.handleChange "year" "" filledForm)
  = Return (PaperForm.ShowError "Publication year is required").
Proof.
  apply (proj1 (proj2 (form_year_field filledForm ""
                         ltac:(by exists "Deep Learning Advances")
                         ltac:(by exists "NeurIPS 2024")))).
  reflexivity.
Defined.

Lemma required_string_passes (v : JsValue) :
  nonBlankString v → isNull v || negb (isNonEmptyStringAfterTrim v) = false.
Proof.
  intros Hv. destruct (isNull v || negb (isNonEmptyStringAfterTrim v)) eqn:Hb; [|done].
  by apply required_string_check in Hb.
Qed.

(** X21. The form and the API.  When the validation of the form lets a paper
    through, the validation of the API finds no fault with its title, venue
    and year: whatever it reports about the body made of the same title,
    venue and year is about the authors, and it reports nothing when the
    body carries at least one author and every author is an object with a
    name that is not blank. *)
Theorem form_passes_api_validation (title publishedIn year authorIds authors : JsValue) :
  PaperForm.validatePaperInput
    (JsObj [("title", title); ("publishedIn", publishedIn); ("year", year);
            ("authorIds", authorIds)]) = Return None →
  (∀ errors,
     validatePaperInput
       (JsObj [("title", title); ("publishedIn", publishedIn); ("year", year);
               ("authors", authors)]) = Return errors →
     ∀ m, m ∈ errors →
       m = "At least one author is required" ∨ m = "Author name is required") ∧
  (∀ a rest, authors = JsArr (a :: rest) →
     Forall (fun x => notNullish x ∧ nonBlankString (getProperty x "name")) (a :: rest) →
     validatePaperInput
       (JsObj [("title", title); ("publishedIn", publishedIn); ("year", year);
               ("authors", authors)]) = Return []).
Proof.
  intros Hform.
  assert (Hfacts : nonBlankString title ∧ nonBlankString publishedIn ∧
                   integerAfter1900 year).
  { unfold PaperForm.validatePaperInput in Hform.
    cbn [getProperty lookupProp String.eqb Ascii.eqb Bool.eqb PaperForm.EMPTY_PAPER_INPUTS]
      in Hform.
    destruct (strictEquals (JsStr "") title
              || negb (PaperForm.isNonEmptyStringAfterTrim title)) eqn:Ht; [discriminate|].
    destruct (strictEquals (JsStr "") publishedIn
              || negb (PaperForm.isNonEmptyStringAfterTrim publishedIn)) eqn:Hp;
      [discriminate|].
    destruct (strictEquals (JsNum (JInt 0)) year); [discriminate|].
    destruct (PaperForm.isIntegerGreaterThan1900 year) eqn:Hy; [|discriminate].
    apply orb_false_iff in Ht as [_ Ht]. apply orb_false_iff in Hp as [_ Hp].
    apply negb_false_iff in Ht, Hp.
    split; [by apply isNonEmptyStringAfterTrim_true|].
    split; [by apply isNonEmptyStringAfterTrim_true|].
    by apply isIntegerGreaterThan1900_true. }
  destruct Hfacts as (Ht & Hp & Hy).
  assert (Hrun : validatePaperInput
                   (JsObj [("title", title); ("publishedIn", publishedIn); ("year", year);
                           ("authors", authors)]) =
                 match authors with
                 | JsArr (a :: rest) =>
                     match authorNameErrors (a :: rest) with
                     | Throw e => Throw e
                     | Return found => Return found
                     end
                 | _ => Return ["At least one author is required"]
                 end).
  { unfold validatePaperInput.
    cbn [getProperty lookupProp String.eqb Ascii.eqb Bool.eqb].
    rewrite (required_string_passes _ Ht), (required_string_passes _ Hp).
    destruct Hy as (n & -> & Hn).
    rewrite isIntegerGreaterThan1900_int. destruct (Z.ltb_spec 1900 n); [|lia].
    reflexivity. }
  rewrite Hrun. split.
  - intros errors Herrors m Hm.
    destruct authors as [| |b|n|s|[|a rest]|o];
      try (injection Herrors as <-; apply list_elem_of_singleton in Hm; by left).
    right.
    assert (Hgen : ∀ l found, authorNameErrors l = Return found →
              ∀ x, x ∈ found → x = "Author name is required").
    { clear. induction l as [|a l IH]; simpl; intros found Hf x Hx.
      - injection Hf as <-. inversion Hx.
      - destruct (destructure a "name") as [name|e]; [|discriminate].
        destruct (negb (isNonEmptyStringAfterTrim name)).
        + injection Hf as <-. by apply list_elem_of_singleton in Hx.
        + by eapply IH. }
    destruct (authorNameErrors (a :: rest)) as [found|e] eqn:Hfound; [|discriminate].
    injection Herrors as <-. by eapply Hgen.
  - intros a rest -> Hall.
    rewrite authorNameErrors_values.
    + assert (existsb (λ x, negb (isNonEmptyStringAfterTrim (getProperty x "name")))
                (a :: rest) = false) as ->; [|done].
      apply not_true_is_false. intros Hex. apply existsb_exists in Hex as (x & Hx & Hb).
      rewrite Forall_forall in Hall. apply list_elem_of_In, Hall in Hx as [_ Hname].
      apply isNonEmptyStringAfterTrim_true in Hname. by rewrite Hname in Hb.
    + eapply Forall_impl; [exact Hall|]. by intros x [Hx _].
Qed.

Lemma form_passes_api_validation_witness :
  validatePaperInput
    (JsObj [("title", JsStr "Deep Learning Advances"); ("publishedIn", JsStr "NeurIPS 2024");
            ("year", JsNum (JInt 2025));
            ("authors", JsArr [JsObj [("id", JsNum (JInt 3));
                                      ("name", JsStr "Alice Johnson");
                                      ("email", JsNull)]])]) = Return [].
Proof.
  apply (proj2 (form_passes_api_validation (JsStr "Deep Learning Advances")
                  (JsStr "NeurIPS 2024") (JsNum (JInt 2025)) (JsArr [JsNum (JInt 3)])
                  (JsArr [JsObj [("id", JsNum (JInt 3)); ("name", JsStr "Alice Johnson");
                                 ("email", JsNull)]])
                  ltac:(vm_compute; reflexivity))
           (JsObj [("id", JsNum (JInt 3)); ("name", JsStr "Alice Johnson");
                   ("email", JsNull)]) []).
  - reflexivity.
  - repeat constructor; try discriminate.
    exists "Alice Johnson". split; [reflexivity|discriminate].
Defined.

(** *** Routes *)

Lemma validateResourceId_pathId (id : string) :
  validateResourceId id =
  match pathId id with
  | Some n => Next (JInt n)
  | None => Respond invalidIdResponse
  end.
Proof.
  unfold validateResourceId, pathId.
  destruct (StringToNumber id) as [|sg|n|a b]; try reflexivity.
  rewrite isIntegerGreaterThan0_int. by destruct (0 <? n).
Qed.

(** X22. [DELETE /api/authors/:id], every case.  A path identifier that does not
    convert to a positive integer is answered 400 "Invalid ID format".
    Otherwise: if some paper of the store has no linked author other than
    the one named (a paper without any author included), the answer is 400
    "Constraint Error"; if not, it is 404 "Author not found" when the store
    has no such author and 204 when it has, the author and its links being
    removed.  For an identifier within the range of the column the route
    never answers 500, and the store is changed only when the answer is
    204. *)
Theorem deleteAuthorRoute_answers (id : string) (db : DB) :
  (pathId id = None → deleteAuthorRoute id db = (invalidIdResponse, db)) ∧
  (∀ n, pathId id = Some n → withinInt n →
     ((∃ paper, is_Some (papers db !! paper) ∧ hasNoOtherAuthor db n paper) →
        deleteAuthorRoute id db = (constraintResponse, db)) ∧
     ((∀ paper, is_Some (papers db !! paper) → ¬ hasNoOtherAuthor db n paper) →
        (authors db !! n = None →
           deleteAuthorRoute id db = (missing "Author", db)) ∧
        (is_Some (authors db !! n) →
           deleteAuthorRoute id db = (noContent, withoutAuthor db n)))) ∧
  ((∀ n, pathId id = Some n → withinInt n) →
   ∀ response db', deleteAuthorRoute id db = (response, db') →
     status response ∈ [400; 404; 204] ∧ (status response ≠ 204 → db' = db)).
Proof.
  unfold deleteAuthorRoute. rewrite validateResourceId_pathId.
  destruct (pathId id) as [n|]; [|split; [done|split; [done|]]].
  2: { intros _ response db' [= <- <-]. split; [left|done]. }
  split; [done|].
  assert (Hrefuse : (∃ paper, is_Some (papers db !! paper) ∧ hasNoOtherAuthor db n paper) →
            deleteAuthorHandler (JInt n) db = (constraintResponse, db)).
  { intros (paper & [row Hrow] & Hall). unfold deleteAuthorHandler.
    by rewrite (deleteAuthor_refuses db n paper row Hrow Hall). }
  assert (Hproceed : (∀ paper, is_Some (papers db !! paper) → ¬ hasNoOtherAuthor db n paper) →
            deleteAuthor n db = author_delete n db).
  { intros Hother. apply deleteAuthor_proceeds. intros paper row Hrow.
    destruct (decide (Forall (λ a : Z * AuthorRow, a.1 = n) (authorsOf db paper)))
      as [Hall|Hsome].
    - exfalso. apply (Hother paper (mk_is_Some _ _ Hrow)). intros a Ha.
      rewrite Forall_forall in Hall. by apply Hall.
    - apply not_Forall_Exists in Hsome; [|apply _].
      apply Exists_exists in Hsome as (a & Ha & Hne). eauto. }
  split.
  - intros m [= <-] _. split; [done|]. intros Hother. unfold deleteAuthorHandler.
    rewrite (Hproceed Hother). unfold author_delete. split.
    + intros ->. reflexivity.
    + intros [row ->]. reflexivity.
  - intros _ response db'. unfold deleteAuthorHandler. rewrite deleteAuthor_unfold.
    destruct (List.filter _ _).
    + unfold author_delete. destruct (authors db !! n).
      * intros [= <- <-]. split; [|done]. simpl. set_solver.
      * intros [= <- <-]. split; [|done]. simpl. set_solver.
    + intros [= <- <-]. split; [|done]. simpl. set_solver.
Qed.

Lemma deleteAuthorRoute_answers_witness :
  deleteAuthorRoute "2" soleAuthorStore = (noContent, withoutAuthor soleAuthorStore 2).
Proof.
  apply (proj1 (proj2 (deleteAuthorRoute_answers "2" soleAuthorStore)) 2).
  - vm_compute. reflexivity.
  - unfold withinInt. lia.
  - intros paper [row Hrow] Hall.
    assert (Hguard : paperMatches soleAuthorStore (everyAuthorIs 2) (paper, row) = true)
      by (by apply everyAuthorIs_matches).
    assert (Hin : (paper, row) ∈ List.filter (paperMatches soleAuthorStore (everyAuthorIs 2))
                                   (rowsAsc (papers soleAuthorStore))).
    { apply list_elem_of_In, List.filter_In. split; [|done].
      by apply list_elem_of_In, elem_of_rowsAsc. }
    vm_compute in Hin. inversion Hin.
  - vm_compute. eexists. reflexivity.
Defined.

(** X23. [DELETE /api/papers/:id], every case.  A path identifier that does not
    convert to a positive integer is answered 400 "Invalid ID format", one
    that no paper has (within the range of the column) 404 "Paper not
    found", the store staying as it is in both cases; the identifier of a
    paper is answered 204, the paper and its links being removed and
    nothing else. *)
Theorem deletePaperRoute_answers (id : string) (db : DB) :
  (pathId id = None → deletePaperRoute id db = (invalidIdResponse, db)) ∧
  (∀ n, pathId id = Some n → withinInt n →
     (papers db !! n = None → deletePaperRoute id db = (missing "Paper", db)) ∧
     (is_Some (papers db !! n) →
        deletePaperRoute id db = (noContent, withoutPaper db n))).
Proof.
  unfold deletePaperRoute. rewrite validateResourceId_pathId.
  destruct (pathId id) as [n|]; [|done].
  split; [done|]. intros m [= <-] _.
  unfold deletePaperHandler, deletePaper, paper_delete. split.
  - intros ->. vm_compute. reflexivity.
  - intros [row ->]. reflexivity.
Qed.

Lemma deletePaperRoute_answers_witness :
  deletePaperRoute "3" seededStore = (noContent, withoutPaper seededStore 3).
Proof.
  apply (proj2 (proj2 (deletePaperRoute_answers "3" seededStore) 3
                  ltac:(vm_compute; reflexivity) ltac:(unfold withinInt; lia))).
  vm_compute. eexists. reflexivity.
Defined.

(** X24. [GET /api/papers/:id] and [GET /api/authors/:id], every case.  A path
    identifier that does not convert to a positive integer is answered 400
    "Invalid ID format"; one that names nothing in the store (within the
    range of the column) 404 with "Paper not found" or "Author not found";
    otherwise the answer is 200
    with the paper and its linked authors, or the author and its papers.
    The store is never changed. *)
Theorem get_by_id_routes_answer (id : string) (db : DB) :
  (pathId id = None →
     getPaperRoute id db = (Plain invalidIdResponse, db) ∧
     getAuthorRoute id db = (Plain invalidIdResponse, db)) ∧
  (∀ n, pathId id = Some n → withinInt n →
     (papers db !! n = None → getPaperRoute id db = (Plain (missing "Paper"), db)) ∧
     (∀ row, papers db !! n = Some row →
        getPaperRoute id db
          = (Payload 200 (mkPaperWithAuthors n row (authorsOf db n)), db)) ∧
     (authors db !! n = None → getAuthorRoute id db = (Plain (missing "Author"), db)) ∧
     (∀ row, authors db !! n = Some row →
        getAuthorRoute id db
          = (Payload 200 (mkAuthorWithPapers n row (papersOf db n)), db))).
Proof.
  unfold getPaperRoute, getAuthorRoute. rewrite validateResourceId_pathId.
  destruct (pathId id) as [n|]; [|done].
  split; [done|]. intros m [= <-] _.
  unfold getPaperHandler, getAuthorHandler, getPaperById, getAuthorById,
    paper_findUnique, author_findUnique.
  split; [by intros ->|]. split; [by intros row ->|].
  split; [by intros ->|]. by intros row ->.
Qed.

Lemma get_by_id_routes_answer_witness :
  getPaperRoute "3" seededStore
    = (Payload 200 (mkPaperWithAuthors 3 (paperRowOf paper3) (authorsOf seededStore 3)),
       seededStore).
Proof.
  apply (proj1 (proj2 (proj2 (get_by_id_routes_answer "3" seededStore) 3
                         ltac:(vm_compute; reflexivity) ltac:(unfold withinInt; lia)))).
  reflexivity.
Defined.

Lemma query_validators_idempotent_witness :
  validatePaperQueryParams (withPaging (withYear filteredQuery) 5 0)
  = Next (withPaging (withYear filteredQuery) 5 0).
Proof.
  apply (proj1 (query_validators_idempotent filteredQuery
                  (withPaging (withYear filteredQuery) 5 0))).
  vm_compute. reflexivity.
Defined.

Lemma limitByRule_range (limit : option QueryValue) (l : Z) :
  limitByRule limit = Some l → 1 <= l <= 100.
Proof.
  unfold limitByRule. destruct limit as [v|]; [|intros [= <-]; lia].
  destruct (Number v) as [| |n|]; try discriminate.
  destruct (Z.leb_spec 1 n), (Z.leb_spec n 100); simpl; try discriminate.
  intros [= <-]. lia.
Qed.

Lemma offsetByRule_range (offset : option QueryValue) (o : Z) :
  offsetByRule offset = Some o → 0 <= o.
Proof.
  unfold offsetByRule. destruct offset as [v|]; [|intros [= <-]; lia].
  destruct (Number v) as [| |n|]; try discriminate.
  destruct (Z.leb_spec 0 n); [|discriminate]. intros [= <-]. lia.
Qed.

Lemma integerParam_paging (query : Query) (l o : Z) :
  integerParam (withPaging query l o) "limit" = Some l ∧
  integerParam (withPaging query l o) "offset" = Some o.
Proof.
  unfold integerParam. destruct (withPaging_lookup query l o) as [-> ->]. done.
Qed.

Lemma integerParam_year (query : Query) :
  whenPresent (query !! "year") acceptedYear →
  integerParam (withYear query) "year" = requestedYear query.
Proof.
  intros Hy. unfold integerParam, requestedYear. rewrite withYear_year.
  destruct (query !! "year") as [y|]; [|done]. simpl.
  destruct (Hy y eq_refl) as (n & -> & _). done.
Qed.

Lemma all_texts (names : list ParsedQs) :
  Forall (fun name => nonBlankText (Raw name)) names →
  ∃ texts, names = QString <$> texts.
Proof.
  induction 1 as [|name names (s & [= ->] & _) _ (texts & ->)].
  - by exists [].
  - by exists (s :: texts).
Qed.

(** What a query holds once its validator has handed it on: a number under
    [year], [limit] and [offset], one string under the text filters, one
    string or an array of strings under [author]. *)
Lemma validated_paper_query_typed (query validated : Query) :
  validatePaperQueryParams query = Next validated →
  (∀ v, validated !! "year" = Some v → ∃ n, v = QNumber (JInt n)) ∧
  (∀ v, validated !! "publishedIn" = Some v → ∃ s, v = Raw (QString s)) ∧
  (∀ v, validated !! "author" = Some v →
     (∃ s, v = Raw (QString s)) ∨ ∃ texts, v = Raw (QArray (QString <$> texts))) ∧
  (∃ l, validated !! "limit" = Some (QNumber (JInt l))) ∧
  (∃ o, validated !! "offset" = Some (QNumber (JInt o))).
Proof.
  destruct (validatePaperQueryParams_cases query)
    as [((Hy & Hp & Ha & _) & l & o & Hl & Ho & ->)|(_ & ->)]; [|discriminate].
  intros [= <-]. destruct (withPaging_lookup (withYear query) l o) as [Hlimit Hoffset].
  split; [|split; [|split; [|split; [by exists l|by exists o]]]].
  - intros v. rewrite withPaging_others, withYear_year by done.
    destruct (query !! "year") as [y|]; [|discriminate]. intros [= <-].
    destruct (Hy y eq_refl) as (n & -> & _). by exists n.
  - intros v. rewrite withPaging_others, withYear_others by done. intros Hv.
    destruct (Hp v Hv) as (s & -> & _). by exists s.
  - intros v. rewrite withPaging_others, withYear_others by done. intros Hv.
    destruct (Ha v Hv) as [(s & -> & _)|(names & -> & Hall)]; [left; by exists s|].
    right. destruct (all_texts names Hall) as (texts & ->). by exists texts.
Qed.

Lemma validated_author_query_typed (query validated : Query) :
  validateAuthorQueryParams query = Next validated →
  (∀ v, validated !! "name" = Some v → ∃ s, v = Raw (QString s)) ∧
  (∀ v, validated !! "affiliation" = Some v → ∃ s, v = Raw (QString s)) ∧
  (∃ l, validated !! "limit" = Some (QNumber (JInt l))) ∧
  (∃ o, validated !! "offset" = Some (QNumber (JInt o))).
Proof.
  destruct (validateAuthorQueryParams_cases query)
    as [((Hn & Ha & _) & l & o & Hl & Ho & ->)|(_ & ->)]; [|discriminate].
  intros [= <-]. destruct (withPaging_lookup query l o) as [Hlimit Hoffset].
  split; [|split; [|split; [by exists l|by exists o]]].
  - intros v. rewrite withPaging_others by done. intros Hv.
    destruct (Hn v Hv) as (s & -> & _). by exists s.
  - intros v. rewrite withPaging_others by done. intros Hv.
    destruct (Ha v Hv) as (s & -> & _). by exists s.
Qed.

(** X25. [GET /api/papers], every case.  A query with a parameter that is not
    well formed is answered 400 "Invalid query parameter format" and the
    store is not read.  Any other query (its year and offset within the
    range of the client's integers) is answered 200 with the listing
    [getAllPapers] gives for the year the query's [year] converts to, its
    [publishedIn] and [author] as they came, and the limit and offset of
    the rules (10 and 0 when absent): the answer repeats that limit and
    offset, its [total] is the number of papers in it and is at most the
    limit, hence at most 100.  The store is never changed. *)
Theorem getPapersRoute_answers (query : Query) (db : DB) :
  (¬ acceptablePaperQuery query →
     getPapersRoute query db = (Plain invalidQueryResponse, db)) ∧
  (acceptablePaperQuery query →
   (∀ y, requestedYear query = Some y → withinInt y) →
   (∀ o, offsetByRule (query !! "offset") = Some o → withinInt o) →
     ∃ l o found,
       limitByRule (query !! "limit") = Some l ∧
       offsetByRule (query !! "offset") = Some o ∧
       getAllPapers
         (mkPaperFilters (requestedYear query) (stringParam query "publishedIn")
            (authorParam query) (Some l) (Some o)) db = (Return found, db) ∧
       getPapersRoute query db = (Payload 200 found, db) ∧
       limit found = Some l ∧ offset found = Some o ∧
       total found = Z.of_nat (length (items found)) ∧
       total found <= l <= 100).
Proof.
  unfold getPapersRoute.
  destruct (validatePaperQueryParams_cases query)
    as [(Hok & l & o & Hl & Ho & ->)|(Hno & ->)]; [|done].
  split; [done|]. intros _ _ _.
  pose proof (limitByRule_range _ _ Hl) as Hlr.
  pose proof (offsetByRule_range _ _ Ho) as Hor.
  set (filters := mkPaperFilters (requestedYear query) (stringParam query "publishedIn")
                    (authorParam query) (Some l) (Some o)).
  set (rows := List.filter (paperMatches db (paperWhereOf filters)) (rowsAsc (papers db))).
  destruct (slice_page rows l o ltac:(lia) Hor) as [Hslice Hlen].
  assert (Hrun : getAllPapers filters db =
            (Return (mkListing
                       (map (includeAuthors db) (take (Z.to_nat l) (drop (Z.to_nat o) rows)))
                       (Z.of_nat (length (take (Z.to_nat l) (drop (Z.to_nat o) rows))))
                       (Some l) (Some o)), db)).
  { rewrite getAllPapers_run. fold rows. cbn [filters filterLimit filterOffset].
    by rewrite Hslice. }
  exists l, o. eexists. split; [done|]. split; [done|]. split; [exact Hrun|].
  split.
  - unfold getPapersHandler.
    destruct (integerParam_paging (withYear query) l o) as [-> ->].
    assert (integerParam (withPaging (withYear query) l o) "year" = requestedYear query)
      as ->.
    { unfold integerParam. rewrite withPaging_others by done.
      apply (integerParam_year query), Hok. }
    assert (stringParam (withPaging (withYear query) l o) "publishedIn"
            = stringParam query "publishedIn") as ->.
    { unfold stringParam. by rewrite withPaging_others, withYear_others. }
    assert (authorParam (withPaging (withYear query) l o) = authorParam query) as ->.
    { unfold authorParam. by rewrite withPaging_others, withYear_others. }
    fold filters. rewrite Hrun. reflexivity.
  - cbn [limit offset total items]. split; [done|]. split; [done|].
    split; [by rewrite length_map|]. lia.
Qed.

Lemma getPapersRoute_answers_witness :
  ∃ l o found,
    limitByRule (filteredQuery !! "limit") = Some l ∧
    offsetByRule (filteredQuery !! "offset") = Some o ∧
    getAllPapers
      (mkPaperFilters (requestedYear filteredQuery) (stringParam filteredQuery "publishedIn")
         (authorParam filteredQuery) (Some l) (Some o)) seededStore
      = (Return found, seededStore) ∧
    getPapersRoute filteredQuery seededStore = (Payload 200 found, seededStore) ∧
    limit found = Some l ∧ offset found = Some o ∧
    total found = Z.of_nat (length (items found)) ∧
    total found <= l <= 100.
Proof.
  apply (proj2 (getPapersRoute_answers filteredQuery seededStore)).
  - split; [|split; [|split; [|split]]].
    + intros y [= <-]. exists 2023. split; [vm_compute; reflexivity|lia].
    + intros p [= <-]. by exists " ".
    + intros a [= <-]. right. eexists. split; [reflexivity|].
      repeat constructor; eexists; (split; [reflexivity|discriminate]).
    + vm_compute. by eexists.
    + vm_compute. by eexists.
  - intros y Hy. vm_compute in Hy. injection Hy as <-. unfold withinInt. lia.
  - intros o Ho. vm_compute in Ho. injection Ho as <-. unfold withinInt. lia.
Defined.

(** X26. [GET /api/authors], every case.  A query with a parameter that is not
    well formed is answered 400 "Invalid query parameter format".  Any
    other query (its offset within the range of the client's integers) is
    answered 200 with the listing [getAllAuthors] gives for its [name] and
    [affiliation] as they came and the limit and offset of the rules (10
    and 0 when absent): the answer repeats that limit and offset, its
    [total] is the number of authors in it and is at most the limit, hence
    at most 100.  The store is never changed. *)
Theorem getAuthorsRoute_answers (query : Query) (db : DB) :
  (¬ acceptableAuthorQuery query →
     getAuthorsRoute query db = (Plain invalidQueryResponse, db)) ∧
  (acceptableAuthorQuery query →
   (∀ o, offsetByRule (query !! "offset") = Some o → withinInt o) →
     ∃ l o found,
       limitByRule (query !! "limit") = Some l ∧
       offsetByRule (query !! "offset") = Some o ∧
       getAllAuthors
         (mkAuthorFilters (stringParam query "name") (stringParam query "affiliation")
            (Some l) (Some o)) db = (Return found, db) ∧
       getAuthorsRoute query db = (Payload 200 found, db) ∧
       limit found = Some l ∧ offset found = Some o ∧
       total found = Z.of_nat (length (items found)) ∧
       total found <= l <= 100).
Proof.
  unfold getAuthorsRoute.
  destruct (validateAuthorQueryParams_cases query)
    as [(Hok & l & o & Hl & Ho & ->)|(Hno & ->)]; [|done].
  split; [done|]. intros _ _.
  pose proof (limitByRule_range _ _ Hl) as Hlr.
  pose proof (offsetByRule_range _ _ Ho) as Hor.
  set (filters := mkAuthorFilters (stringParam query "name")
                    (stringParam query "affiliation") (Some l) (Some o)).
  set (rows := List.filter (authorMatches (authorWhereOf filters)) (rowsAsc (authors db))).
  destruct (slice_page rows l o ltac:(lia) Hor) as [Hslice Hlen].
  assert (Hrun : getAllAuthors filters db =
            (Return (mkListing
                       (map (includePapers db) (take (Z.to_nat l) (drop (Z.to_nat o) rows)))
                       (Z.of_nat (length (take (Z.to_nat l) (drop (Z.to_nat o) rows))))
                       (Some l) (Some o)), db)).
  { rewrite getAllAuthors_run. fold rows. cbn [filters authorsLimit authorsOffset].
    by rewrite Hslice. }
  exists l, o. eexists. split; [done|]. split; [done|]. split; [exact Hrun|].
  split.
  - unfold getAuthorsHandler.
    destruct (integerParam_paging query l o) as [-> ->].
    assert (∀ key, key ≠ "limit" → key ≠ "offset" →
              stringParam (withPaging query l o) key = stringParam query key) as Hkeep.
    { intros key Hkl Hko. unfold stringParam. by rewrite withPaging_others. }
    rewrite !Hkeep by done. fold filters. rewrite Hrun. reflexivity.
  - cbn [limit offset total items]. split; [done|]. split; [done|].
    split; [by rewrite length_map|]. lia.
Qed.

Lemma getAuthorsRoute_answers_witness :
  ∃ l o found,
    limitByRule (authorQuery !! "limit") = Some l ∧
    offsetByRule (authorQuery !! "offset") = Some o ∧
    getAllAuthors
      (mkAuthorFilters (stringParam authorQuery "name") (stringParam authorQuery "affiliation")
         (Some l) (Some o)) seededStore = (Return found, seededStore) ∧
    getAuthorsRoute authorQuery seededStore = (Payload 200 found, seededStore) ∧
    limit found = Some l ∧ offset found = Some o ∧
    total found = Z.of_nat (length (items found)) ∧
    total found <= l <= 100.
Proof.
  apply (proj2 (getAuthorsRoute_answers authorQuery seededStore)).
  - split; [|split; [|split]].
    + intros n [= <-]. by exists "doe".
    + intros a Ha. vm_compute in Ha. discriminate.
    + vm_compute. by eexists.
    + vm_compute. by eexists.
  - intros o Ho. vm_compute in Ho. injection Ho as <-. unfold withinInt. lia.
Defined.

Lemma createAuthorRoute_run (body : JsValue) (db : DB) :
  notNullish body →
  createAuthorRoute body db =
  if isNull (getProperty body "name")
     || negb (isNonEmptyStringAfterTrim (getProperty body "name"))
  then (Plain (validationErrors ["Name is required"]), db)
  else
    match authorCreateInput (getProperty body "name") (getProperty body "email")
            (getProperty body "affiliation") with
    | Throw e => (Plain (errorHandler e), db)
    | Return input =>
        match createAuthor input db with
        | (Return author, db') => (Payload CREATED author, db')
        | (Throw e, db') => (Plain (errorHandler e), db')
        end
    end.
Proof.
  intros [Hnull Hundef].
  assert (Hrun : createAuthorRoute body db =
            match validateAuthorInput
                    (JsObj [("name", getProperty body "name");
                            ("email", getProperty body "email");
                            ("affiliation", getProperty body "affiliation")]) with
            | Throw e => (Plain (errorHandler e), db)
            | Return errors =>
                if negb (Z.of_nat (length errors) =? 0)
                then (Plain (validationErrors errors), db)
                else
                  match authorCreateInput (getProperty body "name")
                          (getProperty body "email") (getProperty body "affiliation") with
                  | Throw e => (Plain (errorHandler e), db)
                  | Return input =>
                      match createAuthor input db with
                      | (Return author, db') => (Payload CREATED author, db')
                      | (Throw e, db') => (Plain (errorHandler e), db')
                      end
                  end
            end).
  { unfold createAuthorRoute. by destruct body. }
  rewrite Hrun. unfold validateAuthorInput.
  cbn [getProperty lookupProp String.eqb Ascii.eqb Bool.eqb].
  by destruct (isNull (getProperty body "name")
               || negb (isNonEmptyStringAfterTrim (getProperty body "name"))).
Qed.

Lemma nullableStringInput_given (v : JsValue) :
  match nullableStringInput v with
  | Return f => givenAs v f ∧ ∀ g, givenAs v g → g = f
  | Throw e => e = invalidValue ∧ ∀ g, ¬ givenAs v g
  end.
Proof.
  destruct v; simpl;
    first [ split; [done|]; intros [| |?]; simpl; congruence
          | split; [done|]; intros [| |?]; discriminate ].
Qed.

(** X27. [POST /api/authors], every case, for a body that is an object.  A body
    whose [name] is not a string with something else than white space is
    answered 400 with the one message "Name is required", and nothing is
    stored.  Otherwise, when [email] and [affiliation] are each a string,
    [null] or absent, the answer is 201 with the author that [createAuthor]
    returns for these three values (in a store whose author sequence is
    ahead of the identifiers in use); when one of them is of another type,
    the client refuses it, the answer is 500 and nothing is stored. *)
Theorem createAuthorRoute_answers (body : JsValue) (db : DB) :
  notNullish body →
  (¬ nonBlankString (getProperty body "name") →
     createAuthorRoute body db
       = (Plain {| status := 400;
                   body := JsObj [("error", JsStr "Validation Error");
                                  ("messages", JsArr [JsStr "Name is required"])] |},
          db)) ∧
  (∀ name, getProperty body "name" = JsStr name → trim name ≠ "" →
     (∀ email affiliation,
        givenAs (getProperty body "email") email →
        givenAs (getProperty body "affiliation") affiliation →
        authorIdsBelowSeq db →
        ∃ created db',
          createAuthor (mkAuthorInput name email affiliation) db = (Return created, db') ∧
          createAuthorRoute body db = (Payload 201 created, db')) ∧
     ((∀ email, ¬ givenAs (getProperty body "email") email) ∨
      (∀ affiliation, ¬ givenAs (getProperty body "affiliation") affiliation) →
      createAuthorRoute body db = (Plain internalError, db))).
Proof.
  intros Hbody. rewrite (createAuthorRoute_run body db Hbody).
  pose proof (required_string_check (getProperty body "name")) as Hname.
  split.
  - intros Hno. apply Hname in Hno. by rewrite Hno.
  - intros name Hn Htrim.
    assert (nonBlankString (getProperty body "name")) as Hnb by (by exists name).
    rewrite (required_string_passes _ Hnb). rewrite Hn. unfold authorCreateInput.
    cbn [stringInput].
    pose proof (nullableStringInput_given (getProperty body "email")) as He.
    pose proof (nullableStringInput_given (getProperty body "affiliation")) as Ha.
    split.
    + intros email affiliation Hemail Haff Hwf.
      destruct (nullableStringInput (getProperty body "email")) as [e|err];
        [|destruct He as [_ He]; by apply He in Hemail].
      destruct (nullableStringInput (getProperty body "affiliation")) as [a|err];
        [|destruct Ha as [_ Ha]; by apply Ha in Haff].
      destruct He as [_ He]. destruct Ha as [_ Ha].
      rewrite (He email Hemail), (Ha affiliation Haff).
      rewrite (createAuthor_run db _ Hwf). eexists _, _. split; reflexivity.
    + intros Hbad.
      destruct (nullableStringInput (getProperty body "email")) as [e|err].
      * destruct (nullableStringInput (getProperty body "affiliation")) as [a|err];
          [|done].
        exfalso. destruct He as [He _]. destruct Ha as [Ha _].
        destruct Hbad as [Hbad|Hbad]; [by apply (Hbad e)|by apply (Hbad a)].
      * done.
Qed.

Lemma createAuthorRoute_answers_witness :
  ∃ created db',
    createAuthor (mkAuthorInput "Alice Johnson" Null Absent) seededStore
      = (Return created, db') ∧
    createAuthorRoute (JsObj [("name", JsStr "Alice Johnson"); ("email", JsNull)]) seededStore
      = (Payload 201 created, db').
Proof.
  apply (proj1 (proj2 (createAuthorRoute_answers
                         (JsObj [("name", JsStr "Alice Johnson"); ("email", JsNull)])
                         seededStore ltac:(split; discriminate))
                  "Alice Johnson" eq_refl ltac:(discriminate)) Null Absent).
  - reflexivity.
  - reflexivity.
  - by_evaluation (authorIdsBelowSeq seededStore).
Defined.
